(** * Skill-analysis engine of skilledenough: a shallow embedding

    The engine is the class [SkillAnalyzer] (services/analyzer.ts).  Every
    method is translated to a Rocq function of the same name.

    Modelling conventions.
    - JavaScript strings are [string], held as their UTF-8 bytes;
      [toLowerCase] folds the ASCII letters, and [jsLength] counts the
      UTF-16 code units that [.length] returns.
    - JavaScript numbers that hold integers (byte counts, stars, epoch
      milliseconds, day counts) are [Z]: sums and differences of integers
      below 2^53 are exact in double arithmetic.  Ratios and percentages
      are rationals [Q].  The engine is written over the exact quotients;
      the percentages of [topLanguages] are also given with the rounding
      of every operation as a parameter ([topLanguagesFl]), of which
      [roundDouble], rounding to the nearest double, is the instance that
      JavaScript computes (overflow and subnormal numbers apart).
    - ISO timestamps ([updated_at], [created_at]) are held as the value of
      [new Date(s).getTime()], epoch milliseconds.
    - A JavaScript [Set<string>] and the keys of an object or [Map] keep
      insertion order: they are lists without duplicates ([set_add] appends
      a new element at the end) and association lists.
      Keys are language and technology names; none is an integer index,
      which JavaScript would enumerate first.
    - [Array.prototype.sort] is stable; for the comparators used here the
      result is the one of a stable insertion sort.
    - A quotient by zero, [NaN] in JavaScript, is 0 in [Q]: it compares
      below every positive bound as [NaN] does, and the properties of the
      percentages are stated for a positive total.
    - [new Date()] reads the wall clock.  The reads are an effect: a monad
      [Clock] threads the number of reads made so far through the engine,
      and the k-th read returns the k-th value of a clock oracle.  Calendar
      arithmetic in the local time zone is a parameter, the class
      [Calendar]. *)

From Stdlib Require Import ZArith QArith Qabs Qround Qpower Bool List String Ascii.
From Stdlib Require Import ListSet Permutation Sorted Lia Lqa.
From Stdlib Require Import DecimalString.
Import ListNotations.

Local Open Scope string_scope.
Local Open Scope list_scope.
Local Open Scope Z_scope.

(** ** JavaScript primitives *)

(** [String.prototype.toLowerCase], on the ASCII letters. *)
Definition lowerAscii (c : ascii) : ascii :=
  let n := nat_of_ascii c in
  if ((65 <=? n) && (n <=? 90))%nat then ascii_of_nat (n + 32) else c.

Fixpoint toLowerCase (s : string) : string :=
  match s with
  | EmptyString => EmptyString
  | String c s' => String (lowerAscii c) (toLowerCase s')
  end.

(** [hay.includes(needle)]: substring containment. *)
Fixpoint includes (hay needle : string) : bool :=
  if String.prefix needle hay then true
  else match hay with
       | EmptyString => false
       | String _ hay' => includes hay' needle
       end.

(** [s.length]: the number of UTF-16 code units of a string, which is held
    here as its UTF-8 bytes.  A continuation byte (10xxxxxx) adds nothing;
    the lead byte of a four-byte sequence (11110xxx) stands for a code point
    beyond the basic plane and adds the two units of a surrogate pair; any
    other byte adds one unit. *)
Definition utf16Units (c : ascii) : nat :=
  let n := nat_of_ascii c in
  if (n <? 128)%nat then 1%nat
  else if (n <? 192)%nat then 0%nat
  else if (n <? 240)%nat then 1%nat
  else 2%nat.

Fixpoint jsLength (s : string) : nat :=
  match s with
  | EmptyString => 0%nat
  | String c s' => (utf16Units c + jsLength s')%nat
  end.

(** [parts.join(' ')]. *)
Definition joinSpace (parts : list string) : string := String.concat " " parts.

(** [arr.includes(x)] on an array of strings. *)
Definition arrIncludes (arr : list string) (x : string) : bool :=
  existsb (String.eqb x) arr.

(** [set.has(x)] and [set.add(x)] on a [Set<string>]. *)
Definition setHas (s : list string) (x : string) : bool := set_mem string_dec x s.
Definition setAdd (s : list string) (x : string) : list string := set_add string_dec x s.

(** [new Set(values)] followed by [Array.from]: first occurrences, in order. *)
Definition setFrom (values : list string) : list string :=
  fold_left setAdd values [].

Definition dedupe (values : list string) : list string := setFrom values.

(** [Math.round(a / b)] for integers [a] and [b > 0]: nearest integer, a
    half rounds up. *)
Definition roundDiv (a b : Z) : Z := (2 * a + b) / (2 * b).

(** [Math.floor(a / b)] for integers [a] and [b > 0]. *)
Definition floorDiv (a b : Z) : Z := a / b.

(** [arr.slice(0, n)] and [arr.slice(a, b)]. *)
Definition sliceTo {A} (n : nat) (arr : list A) : list A := firstn n arr.
Definition slice {A} (a b : nat) (arr : list A) : list A := firstn (b - a) (skipn a arr).

(** [arr.sort(cmp)].  [before x y] holds when [cmp(x, y) <= 0], that is
    when [x] may stay in front of [y]. *)
Section StableSort.
Context {A : Type} (before : A -> A -> bool).

Fixpoint insertSorted (x : A) (l : list A) : list A :=
  match l with
  | [] => [x]
  | y :: l' => if before x y then x :: y :: l' else y :: insertSorted x l'
  end.

Fixpoint stableSort (l : list A) : list A :=
  match l with
  | [] => []
  | x :: l' => insertSorted x (stableSort l')
  end.
End StableSort.

(** [arr.find(p)]. *)
Definition arrFind {A} (p : A -> bool) (arr : list A) : option A := find p arr.

(** Decimal rendering of an integer inside a template literal. *)
Definition numberToString (z : Z) : string := NilZero.string_of_int (Z.to_int z).

(** ** Data model (types/github.ts) *)

Record GitHubUser := {
  login : string;
  user_name : string;
  bio : string;
  public_repos : Z;
  followers : Z;
  following : Z;
  user_created_at : Z;
  avatar_url : string;
  user_html_url : string
}.

Record RepositoryWithLanguages := {
  name : string;
  description : option string;
  language : option string;
  stargazers_count : Z;
  forks_count : Z;
  updated_at : Z;
  created_at : Z;
  html_url : string;
  topics : list string;
  languageStats : option (list (string * Z))
}.

Record TechStack := {
  primary : list string;
  secondary : list string;
  frameworks : list string;
  tools : list string
}.

Record StackDepth := {
  core : list string;
  supporting : list string;
  emerging : list string
}.

Inductive ExperienceLevel := Beginner | Intermediate | Advanced | Expert.

Record TopLanguage := {
  tl_language : string;
  percentage : Q
}.

Record SkillAnalysis := {
  techStack : TechStack;
  topLanguages : list TopLanguage;
  experienceLevel : ExperienceLevel;
  totalProjects : Z;
  activeProjects : Z;
  accountAge : Q;
  stackDepth : StackDepth
}.

Record RepositoryHighlight := {
  hl_name : string;
  hl_description : option string;
  stars : Z;
  forks : Z;
  primaryLanguage : option string;
  lastUpdated : Z;
  createdAt : Z;
  hl_topics : list string;
  url : string;
  reason : string
}.

Record ActivityMetrics := {
  recentPushes : Z;
  activeLast30Days : Z;
  activeLast90Days : Z;
  medianUpdateInterval : Z;
  longestQuietStreak : Z;
  velocityScore : Z
}.

Inductive TestingLevel := TestingStrong | TestingModerate | TestingSparse.
Inductive AutomationLevel := AutomationAdvanced | AutomationBasic | AutomationNone.
Inductive DocumentationLevel := DocComprehensive | DocModerate | DocSparse.
Inductive ReleaseCadence := Weekly | Biweekly | Monthly | Quarterly | AdHoc.

Record QualitySignals := {
  testing : TestingLevel;
  automation : AutomationLevel;
  documentation : DocumentationLevel;
  releaseCadence : ReleaseCadence;
  notes : list string
}.

Record TimelineEvent := {
  year : Z;
  title : string;
  ev_description : string
}.

Record Opportunities := {
  jobRoles : list string;
  industries : list string;
  recommendations : list string;
  nextActions : list string
}.

Inductive MarketDemand := Low | Medium | High | VeryHigh.

Record FuturePrediction := {
  growthAreas : list string;
  skillsToLearn : list string;
  careerPath : list string;
  marketDemand : MarketDemand
}.

Inductive PRState := PROpen | PRClosed | PRMerged.

Record RecentPR := {
  pr_repo : string;
  pr_title : string;
  pr_state : PRState;
  pr_url : string;
  pr_createdAt : Z
}.

Record ContributionStats := {
  totalPRs : Z;
  mergedPRs : Z;
  openPRs : Z;
  totalIssues : Z;
  closedIssues : Z;
  recentPRs : list RecentPR
}.

Record AnalysisResult := {
  user : GitHubUser;
  skillAnalysis : SkillAnalysis;
  opportunities : Opportunities;
  futurePrediction : FuturePrediction;
  highlights : list RepositoryHighlight;
  activity : ActivityMetrics;
  quality : QualitySignals;
  timeline : list TimelineEvent;
  contributions : option ContributionStats
}.

(** ** Forecast engine: [predictFuture] *)

(** The three mutable locals of [predictFuture] that the trigger rules
    update in sequence. *)
Record ForecastState := {
  fs_growthAreas : list string;
  fs_skillsToLearn : list string;
  fs_marketDemand : MarketDemand
}.

Definition isVeryHigh (d : MarketDemand) : bool :=
  match d with VeryHigh => true | _ => false end.

Definition isAutomationAdvanced (a : AutomationLevel) : bool :=
  match a with AutomationAdvanced => true | _ => false end.

Definition forecastInit : ForecastState :=
  {| fs_growthAreas := []; fs_skillsToLearn := []; fs_marketDemand := Medium |}.

Definition ruleVelocity (a : ActivityMetrics) (q : QualitySignals) (s : ForecastState)
  : ForecastState :=
  if (velocityScore a >=? 70) || isAutomationAdvanced (automation q) then
    {| fs_growthAreas := fs_growthAreas s; fs_skillsToLearn := fs_skillsToLearn s;
       fs_marketDemand := VeryHigh |}
  else if velocityScore a >=? 50 then
    {| fs_growthAreas := fs_growthAreas s; fs_skillsToLearn := fs_skillsToLearn s;
       fs_marketDemand := High |}
  else s.

Definition ruleJsTs (ts : TechStack) (s : ForecastState) : ForecastState :=
  if arrIncludes (primary ts) "JavaScript" || arrIncludes (primary ts) "TypeScript" then
    {| fs_growthAreas :=
         fs_growthAreas s ++ ["Web3 and Blockchain Development"] ++ ["Progressive Web Apps"];
       fs_skillsToLearn :=
         fs_skillsToLearn s ++ ["WebAssembly"; "GraphQL"; "TypeScript (if not already)"];
       fs_marketDemand := fs_marketDemand s |}
  else s.

Definition rulePython (ts : TechStack) (s : ForecastState) : ForecastState :=
  if arrIncludes (primary ts) "Python" then
    {| fs_growthAreas :=
         fs_growthAreas s ++ ["AI and Machine Learning"] ++ ["Data Engineering"];
       fs_skillsToLearn :=
         fs_skillsToLearn s ++ ["TensorFlow/PyTorch"; "Apache Spark"; "MLOps"];
       fs_marketDemand := if isVeryHigh (fs_marketDemand s) then VeryHigh else High |}
  else s.

Definition ruleContainers (ts : TechStack) (s : ForecastState) : ForecastState :=
  if arrIncludes (tools ts) "Docker" || arrIncludes (tools ts) "Kubernetes" then
    {| fs_growthAreas :=
         fs_growthAreas s ++ ["Cloud Native Development"] ++ ["Platform Engineering"];
       fs_skillsToLearn :=
         fs_skillsToLearn s ++ ["Service Mesh (Istio)"; "GitOps (ArgoCD)"; "eBPF"];
       fs_marketDemand := VeryHigh |}
  else s.

Definition ruleFrontend (ts : TechStack) (s : ForecastState) : ForecastState :=
  if existsb (fun f => arrIncludes ["React"; "Vue"; "Angular"] f) (frameworks ts) then
    {| fs_growthAreas := fs_growthAreas s ++ ["Frontend Architecture"];
       fs_skillsToLearn :=
         fs_skillsToLearn s ++ ["Micro-frontends"; "Server Components"; "Edge Computing"];
       fs_marketDemand :=
         if negb (isVeryHigh (fs_marketDemand s)) then High else fs_marketDemand s |}
  else s.

Definition careerLadder (level : ExperienceLevel) : list string :=
  match level with
  | Beginner =>
      ["Junior Developer (0-2 years)"; "Mid-level Developer (2-4 years)";
       "Senior Developer (4-7 years)"]
  | Intermediate =>
      ["Senior Developer (current)"; "Tech Lead / Staff Engineer (2-3 years)";
       "Principal Engineer / Architect (5+ years)"]
  | _ =>
      ["Tech Lead / Staff Engineer (current)"; "Principal Engineer (2-3 years)";
       "Distinguished Engineer / CTO (5+ years)"]
  end.

Definition predictFuture (sa : SkillAnalysis) (q : QualitySignals) (a : ActivityMetrics)
  : FuturePrediction :=
  let ts := techStack sa in
  let s := ruleVelocity a q forecastInit in
  let s := ruleJsTs ts s in
  let s := rulePython ts s in
  let s := ruleContainers ts s in
  let s := ruleFrontend ts s in
  let growth :=
    match fs_growthAreas s with
    | [] => ["Cloud Computing"; "DevOps"; "Automation"]
    | g => g
    end in
  let skills :=
    if negb (arrIncludes (fs_skillsToLearn s) "System Design") then
      fs_skillsToLearn s ++ ["System Design"; "Cloud Architecture"; "Security Best Practices"]
    else fs_skillsToLearn s in
  {| growthAreas := dedupe growth;
     skillsToLearn := dedupe skills;
     careerPath := careerLadder (experienceLevel sa);
     marketDemand := fs_marketDemand s |}.

(** ** The wall clock *)

(** A computation that may call [new Date()].  The oracle gives the epoch
    milliseconds returned by the k-th read; the counter is the number of
    reads made so far. *)
Definition Clock (A : Type) : Type := (nat -> Z) -> nat -> A * nat.

Definition ret {A} (a : A) : Clock A := fun _ n => (a, n).

Definition bind {A B} (m : Clock A) (f : A -> Clock B) : Clock B :=
  fun oracle n => let (a, n') := m oracle n in f a oracle n'.

Definition newDate : Clock Z := fun oracle n => (oracle n, S n).

Notation "x <- m ;; k" := (bind m (fun x => k))
  (at level 61, m at next level, right associativity).

(** Result of a run that starts with no read made. *)
Definition runClock {A} (m : Clock A) (oracle : nat -> Z) : A := fst (m oracle 0%nat).

(** [arr.filter(p)] where the callback reads the clock: the elements are
    visited in index order. *)
Fixpoint filterClock {A} (p : A -> Clock bool) (arr : list A) : Clock (list A) :=
  match arr with
  | [] => ret []
  | x :: arr' =>
      keep <- p x ;;
      rest <- filterClock p arr' ;;
      ret (if keep then x :: rest else rest)
  end.

(** Calendar arithmetic of [Date] in the local time zone, which the engine
    uses and does not define: [monthsBefore k t] is the instant obtained
    from [t] by [d.setMonth(d.getMonth() - k)], and [getFullYear t] the
    local calendar year of [t]. *)
Class Calendar := {
  monthsBefore : Z -> Z -> Z;
  getFullYear : Z -> Z
}.

(** ** Lexicon tables *)

Definition frameworkKeywords : list (string * list string) :=
  [ ("React", ["react"; "reactjs"]);
    ("Next.js", ["next.js"; "nextjs"]);
    ("Gatsby", ["gatsby"]);
    ("Angular", ["angular"; "@angular"]);
    ("Vue", ["vue"; "vuejs"]);
    ("Nuxt.js", ["nuxt"]);
    ("Vite", ["vite"]);
    ("Django", ["django"]);
    ("Flask", ["flask"]);
    ("FastAPI", ["fastapi"]);
    ("Express", ["express"; "expressjs"]);
    ("NestJS", ["nestjs"; "@nestjs"]);
    ("Spring", ["spring"; "springboot"; "spring-boot"]);
    ("Laravel", ["laravel"]);
    ("Rails", ["rails"; "ruby-on-rails"]);
    ("ASP.NET", ["asp.net"; "aspnet"]);
    ("Flutter", ["flutter"]);
    ("React Native", ["react-native"]);
    ("TensorFlow", ["tensorflow"]);
    ("PyTorch", ["pytorch"]);
    ("Kubernetes", ["kubernetes"; "k8s"]);
    ("Docker", ["docker"]);
    ("AWS", ["aws"; "amazon-web-services"]);
    ("Azure", ["azure"]);
    ("GCP", ["gcp"; "google-cloud"]);
    ("MongoDB", ["mongodb"; "mongo"]);
    ("PostgreSQL", ["postgresql"; "postgres"]);
    ("MySQL", ["mysql"]);
    ("Redis", ["redis"]);
    ("Node", ["node.js"; "nodejs"]);
    ("GraphQL", ["graphql"]);
    ("Tailwind", ["tailwind"; "tailwindcss"]);
    ("Bootstrap", ["bootstrap"]);
    ("Material-UI", ["material-ui"; "mui"]) ].

Definition stackPatterns : list (string * list string) :=
  [ ("MERN", ["MongoDB"; "Express"; "React"; "Node"]);
    ("MEAN", ["MongoDB"; "Express"; "Angular"; "Node"]);
    ("MEVN", ["MongoDB"; "Express"; "Vue"; "Node"]);
    ("PERN", ["PostgreSQL"; "Express"; "React"; "Node"]);
    ("LAMP", ["Linux"; "Apache"; "MySQL"; "PHP"]);
    ("Django Stack", ["Django"; "PostgreSQL"; "Python"]);
    ("Rails Stack", ["Rails"; "PostgreSQL"; "Ruby"]);
    ("JAMstack", ["JavaScript"; "API"; "Markup"]);
    ("T3 Stack", ["TypeScript"; "tRPC"; "Tailwind"; "Next.js"]) ].

Definition techStackMapping : list (string * list string) :=
  [ ("Frontend Developer",
     ["JavaScript"; "TypeScript"; "HTML"; "CSS"; "React"; "Vue"; "Angular"]);
    ("Backend Developer", ["Python"; "Java"; "Go"; "Node.js"; "Ruby"; "PHP"; "C#"]);
    ("Full Stack Developer",
     ["JavaScript"; "TypeScript"; "Python"; "React"; "Node.js"; "Express"]);
    ("Mobile Developer", ["Swift"; "Kotlin"; "Java"; "Dart"; "Flutter"; "React Native"]);
    ("DevOps Engineer", ["Docker"; "Kubernetes"; "Python"; "Go"; "Shell"; "Terraform"]);
    ("Data Scientist", ["Python"; "R"; "SQL"; "TensorFlow"; "PyTorch"; "Jupyter"]);
    ("ML Engineer", ["Python"; "TensorFlow"; "PyTorch"; "Scikit-learn"; "Keras"]);
    ("Cloud Engineer", ["AWS"; "Azure"; "GCP"; "Terraform"; "Docker"; "Kubernetes"]);
    ("Game Developer", ["C++"; "C#"; "Unity"; "Unreal Engine"; "Godot"]);
    ("Systems Programmer", ["C"; "C++"; "Rust"; "Go"; "Assembly"]) ].

(** ** Text matcher *)

(** [value || ''] on an optional string. *)
Definition orEmpty (value : option string) : string :=
  match value with Some s => s | None => EmptyString end.

(** The haystack: topics, description and name joined by spaces, case-folded. *)
Definition searchText (repo : RepositoryWithLanguages) : string :=
  toLowerCase (joinSpace (topics repo ++ [orEmpty (description repo); name repo])).

(** [keywords.some((keyword) => text.includes(keyword))]. *)
Definition someKeyword (keywords : list string) (text : string) : bool :=
  existsb (fun keyword => includes text keyword) keywords.

(** ** Skill aggregator: [detectFullStacks] *)

Definition componentMatches (techArray : list string) (comp : string) : bool :=
  existsb (fun tech => includes tech (toLowerCase comp) || includes (toLowerCase comp) tech)
          techArray.

Definition patternStacks (techArray : list string) : list string :=
  fold_left
    (fun stacks '(stackName, components) =>
       let matches := filter (componentMatches techArray) components in
       let threshold := if (4 <=? List.length components)%nat then 3%nat else 2%nat in
       if (threshold <=? List.length matches)%nat then stacks ++ [stackName] else stacks)
    stackPatterns [].

Definition detectFullStacks (detectedTech : list string) : list string :=
  let techArray := map toLowerCase detectedTech in
  let has := setHas detectedTech in
  let stacks := patternStacks techArray in
  let stacks :=
    if has "React" then
      if has "Vite" then stacks ++ ["React + Vite"]
      else if has "Next.js" then stacks ++ ["Next.js"] else stacks
    else stacks in
  let stacks := if has "Vue" && has "Vite" then stacks ++ ["Vue + Vite"] else stacks in
  let stacks := if has "Angular" then stacks ++ ["Angular"] else stacks in
  let stacks :=
    if has "Node" || has "Express" then
      if has "TypeScript" then stacks ++ ["Node.js + TypeScript"]
      else stacks ++ ["Node.js + Express"]
    else stacks in
  let stacks := if has "Django" then stacks ++ ["Django"] else stacks in
  let stacks := if has "Spring" then stacks ++ ["Spring Boot"] else stacks in
  let hasReact := has "React" || has "Next.js" in
  let hasNode := has "Node" || has "Express" in
  let hasMongo := has "MongoDB" in
  let hasPostgres := has "PostgreSQL" in
  let stacks :=
    if hasReact && hasNode && negb (arrIncludes stacks "MERN")
       && negb (arrIncludes stacks "PERN") then
      if hasMongo then stacks ++ ["MERN Stack"]
      else if hasPostgres then stacks ++ ["PERN Stack"] else stacks
    else stacks in
  sliceTo 4 stacks.

(** ** Skill aggregator: [deriveStackDepth] *)

(** [usage.set(key, (usage.get(key) || 0) + 1)] on a [Map<string, number>]. *)
Fixpoint bumpUsage (usage : list (string * Z)) (key : string) : list (string * Z) :=
  match usage with
  | [] => [(key, 0 + 1)]
  | (k, count) :: usage' =>
      if String.eqb k key then (k, count + 1) :: usage'
      else (k, count) :: bumpUsage usage' key
  end.

Record UsageScan := {
  frameworkUsage : list (string * Z);
  recentFrameworks : list string
}.

Definition scanUsage (recentCutoff : Z) (repos : list RepositoryWithLanguages) : UsageScan :=
  fold_left
    (fun scan repo =>
       let text := searchText repo in
       fold_left
         (fun scan '(framework, keywords) =>
            if someKeyword keywords text then
              {| frameworkUsage := bumpUsage (frameworkUsage scan) framework;
                 recentFrameworks :=
                   if updated_at repo >=? recentCutoff
                   then setAdd (recentFrameworks scan) framework
                   else recentFrameworks scan |}
            else scan)
         frameworkKeywords scan)
    repos {| frameworkUsage := []; recentFrameworks := [] |}.

(** The local helper [supportsIfAbsent]. *)
Definition supportsIfAbsent (value : string) (coreSet supportingSet : list string)
  : list string :=
  if negb (setHas coreSet value) then setAdd supportingSet value else supportingSet.

(** [core] and [supporting] after [frameworkUsage.forEach]. *)
Definition promoteFrameworks (usage : list (string * Z)) (core0 : list string)
  : list string * list string :=
  fold_left
    (fun '(coreSet, supportingSet) '(framework, count) =>
       if count >=? 2 then (setAdd coreSet framework, supportingSet)
       else (coreSet, setAdd supportingSet framework))
    usage (core0, []).

(** [emerging] after the loop over the recently touched repositories. *)
Definition emergingLanguages (recentCutoff : Z) (coreSet supportingSet : list string)
    (repos : list RepositoryWithLanguages) (emerging0 : list string) : list string :=
  fold_left
    (fun emergingSet repo =>
       let updatedRecently :=
         (updated_at repo >=? recentCutoff) || (created_at repo >=? recentCutoff) in
       match language repo with
       | None => emergingSet
       | Some lang =>
           if negb updatedRecently || String.eqb lang EmptyString then emergingSet
           else if negb (setHas coreSet lang) && negb (setHas supportingSet lang)
                then setAdd emergingSet lang
                else emergingSet
       end)
    repos emerging0.

(** Body of [deriveStackDepth] once [recentCutoff] is known. *)
Definition deriveStackDepthAt (recentCutoff : Z) (ts : TechStack)
    (repos : list RepositoryWithLanguages) : StackDepth :=
  let core0 := setFrom (sliceTo 4 (primary ts)) in
  let scan := scanUsage recentCutoff repos in
  let '(coreSet, supportingSet) := promoteFrameworks (frameworkUsage scan) core0 in
  let supportingSet :=
    fold_left (fun acc item => supportsIfAbsent item coreSet acc) (secondary ts) supportingSet in
  let supportingSet :=
    fold_left (fun acc tool => supportsIfAbsent tool coreSet acc) (tools ts) supportingSet in
  let emergingSet :=
    fold_left
      (fun acc framework =>
         if negb (setHas coreSet framework) && negb (setHas supportingSet framework)
         then setAdd acc framework else acc)
      (recentFrameworks scan) [] in
  let emergingSet := emergingLanguages recentCutoff coreSet supportingSet repos emergingSet in
  {| core := coreSet;
     supporting := filter (fun item => negb (setHas coreSet item)) supportingSet;
     emerging := emergingSet |}.

Definition deriveStackDepth {cal : Calendar} (ts : TechStack)
    (repos : list RepositoryWithLanguages) : Clock StackDepth :=
  now <- newDate ;;
  ret (deriveStackDepthAt (monthsBefore 12 now) ts repos).

(** ** Skill aggregator: experience level *)

Definition calculateAccountAge (createdAt : Z) : Clock Q :=
  now <- newDate ;;
  ret (inject_Z (roundDiv ((now - createdAt) * 10) (1000 * 60 * 60 * 24 * 365)) / 10)%Q.

Definition isRecentlyActive {cal : Calendar} (updatedAt : Z) : Clock bool :=
  now <- newDate ;;
  let sixMonthsAgo := monthsBefore 6 now in
  ret (updatedAt >? sixMonthsAgo).

Definition determineExperienceLevel (accountAge : Q) (totalProjects activeProjects : Z)
    (avgStars : Q) : ExperienceLevel :=
  let score := 0 in
  let score :=
    if Qle_bool 7 accountAge then score + 4
    else if Qle_bool 5 accountAge then score + 3
    else if Qle_bool 3 accountAge then score + 2
    else if Qle_bool 1 accountAge then score + 1
    else score in
  let score :=
    if totalProjects >=? 100 then score + 4
    else if totalProjects >=? 50 then score + 3
    else if totalProjects >=? 20 then score + 2
    else if totalProjects >=? 10 then score + 1
    else score in
  let score :=
    if activeProjects >=? 20 then score + 3
    else if activeProjects >=? 10 then score + 2
    else if activeProjects >=? 5 then score + 1
    else score in
  let score :=
    if Qle_bool 100 avgStars then score + 4
    else if Qle_bool 50 avgStars then score + 3
    else if Qle_bool 20 avgStars then score + 2
    else if Qle_bool 5 avgStars then score + 1
    else score in
  if score >=? 12 then Expert
  else if score >=? 9 then Advanced
  else if score >=? 6 then Intermediate
  else Beginner.

(** ** Skill aggregator: [analyzeSkills] *)

(** [totals[lang] = (totals[lang] || 0) + bytes] on the object
    [languageTotals]; a new key goes last. *)
Fixpoint addBytes (totals : list (string * Z)) (lang : string) (bytes : Z)
  : list (string * Z) :=
  match totals with
  | [] => [(lang, 0 + bytes)]
  | (k, v) :: totals' =>
      if String.eqb k lang then (k, v + bytes) :: totals'
      else (k, v) :: addBytes totals' lang bytes
  end.

(** The four accumulators filled by the loop over the repositories. *)
Record SkillScan := {
  languageTotals : list (string * Z);
  sc_frameworks : list string;
  sc_tools : list string;
  detectedTech : list string
}.

Definition scanLanguages (repo : RepositoryWithLanguages) (totals : list (string * Z))
  : list (string * Z) :=
  match languageStats repo with
  | Some stats => fold_left (fun acc '(lang, bytes) => addBytes acc lang bytes) stats totals
  | None => totals
  end.

Definition scanFrameworks (text : string) (s : SkillScan) : SkillScan :=
  fold_left
    (fun s '(framework, keywords) =>
       if someKeyword keywords text then
         {| languageTotals := languageTotals s;
            sc_frameworks := setAdd (sc_frameworks s) framework;
            sc_tools := sc_tools s;
            detectedTech := setAdd (detectedTech s) framework |}
       else s)
    frameworkKeywords s.

(** [tools.add(tool)], and [detectedTech.add(tool)] when [feeds] is set. *)
Definition addTool (tool : string) (feeds : bool) (s : SkillScan) : SkillScan :=
  {| languageTotals := languageTotals s;
     sc_frameworks := sc_frameworks s;
     sc_tools := setAdd (sc_tools s) tool;
     detectedTech := if feeds then setAdd (detectedTech s) tool else detectedTech s |}.

Definition scanTools (text : string) (s : SkillScan) : SkillScan :=
  let s := if includes text "docker" then addTool "Docker" true s else s in
  let s :=
    if includes text "kubernetes" || includes text "k8s"
    then addTool "Kubernetes" true s else s in
  let s := if includes text "git" then addTool "Git" false s else s in
  let s :=
    if includes text "ci/cd" || includes text "github-actions"
    then addTool "CI/CD" false s else s in
  let s := if includes text "terraform" then addTool "Terraform" true s else s in
  let s := if includes text "ansible" then addTool "Ansible" false s else s in
  s.

Definition scanRepo (s : SkillScan) (repo : RepositoryWithLanguages) : SkillScan :=
  let s :=
    {| languageTotals := scanLanguages repo (languageTotals s);
       sc_frameworks := sc_frameworks s;
       sc_tools := sc_tools s;
       detectedTech := detectedTech s |} in
  let text := searchText repo in
  scanTools text (scanFrameworks text s).

Definition scanRepos (repos : list RepositoryWithLanguages) : SkillScan :=
  fold_left scanRepo repos
    {| languageTotals := []; sc_frameworks := []; sc_tools := []; detectedTech := [] |}.

(** [Object.values(languageTotals).reduce((a, b) => a + b, 0)]. *)
Definition totalBytesOf (totals : list (string * Z)) : Z :=
  fold_left (fun a b => a + b) (map snd totals) 0.

Definition byPercentageDesc (a b : TopLanguage) : bool :=
  Qle_bool (percentage b - percentage a) 0.

(** The distribution before [.slice(0, 10)]. *)
Definition rankedLanguages (totals : list (string * Z)) : list TopLanguage :=
  let totalBytes := totalBytesOf totals in
  stableSort byPercentageDesc
    (map (fun '(lang, bytes) =>
            {| tl_language := lang;
               percentage := (inject_Z bytes / inject_Z totalBytes) * 100 |})
         totals).

Definition topLanguagesOf (totals : list (string * Z)) : list TopLanguage :=
  sliceTo 10 (rankedLanguages totals).

(** *** The percentages in double arithmetic *)

(** [x] rounded to the nearest integer, a tie to the even one. *)
Definition roundTiesToEven (x : Q) : Z :=
  let f := Qfloor x in
  match Qcompare (x - inject_Z f) (1 # 2) with
  | Lt => f
  | Gt => f + 1
  | Eq => if Z.even f then f else f + 1
  end.

(** The binary exponent [e] of a non-zero [x]: [2 ^ e <= |x| < 2 ^ (e + 1)]. *)
Definition binaryExponent (x : Q) : Z :=
  let e0 := Z.log2 (Z.abs (Qnum x)) - Z.log2 (Z.pos (Qden x)) in
  if Qle_bool (2 ^ e0) (Qabs x) then e0 else e0 - 1.

(** The double nearest to [x]: 53 significant bits, ties to even.  The
    exponent is not bounded: overflow and subnormal numbers, which
    quotients of byte counts below 2^53 and their products by 100 do not
    reach, are not represented. *)
Definition roundDouble (x : Q) : Q :=
  (if Qeq_bool x 0 then 0
   else let ulp := 2 ^ (binaryExponent x - 52) in
        inject_Z (roundTiesToEven (x / ulp)) * ulp)%Q.

(** [(bytes / totalBytes) * 100] where the division and the multiplication
    are each followed by the rounding [fl]. *)
Definition percentageFl (fl : Q -> Q) (bytes totalBytes : Z) : Q :=
  fl (fl (inject_Z bytes / inject_Z totalBytes) * 100)%Q.

(** [rankedLanguages] and [topLanguagesOf] under the rounding [fl]; the
    identity gives the exact percentages. *)
Definition rankedLanguagesFl (fl : Q -> Q) (totals : list (string * Z)) : list TopLanguage :=
  let totalBytes := totalBytesOf totals in
  stableSort byPercentageDesc
    (map (fun '(lang, bytes) =>
            {| tl_language := lang; percentage := percentageFl fl bytes totalBytes |})
         totals).

Definition topLanguagesFl (fl : Q -> Q) (totals : list (string * Z)) : list TopLanguage :=
  sliceTo 10 (rankedLanguagesFl fl totals).

(** The set handed to [detectFullStacks]: the scan's detections and the
    five leading languages. *)
Definition detectedTechOf (repos : list RepositoryWithLanguages) : list string :=
  let s := scanRepos repos in
  fold_left (fun detected lang => setAdd detected (tl_language lang))
            (sliceTo 5 (topLanguagesOf (languageTotals s))) (detectedTech s).

Definition techStackOf (repos : list RepositoryWithLanguages) : TechStack :=
  let s := scanRepos repos in
  let top := topLanguagesOf (languageTotals s) in
  let detectedStacks := detectFullStacks (detectedTechOf repos) in
  let primaryLangs := map tl_language (sliceTo 3 top) in
  let secondaryLangs := map tl_language (slice 3 6 top) in
  {| primary := if (0 <? List.length detectedStacks)%nat then detectedStacks else primaryLangs;
     secondary := secondaryLangs;
     frameworks := sc_frameworks s;
     tools := sc_tools s |}.

Definition sumStars (repos : list RepositoryWithLanguages) : Z :=
  fold_left (fun sum r => sum + stargazers_count r) repos 0.

Definition analyzeSkills {cal : Calendar} (u : GitHubUser) (repos : list RepositoryWithLanguages)
  : Clock SkillAnalysis :=
  let ts := techStackOf repos in
  depth <- deriveStackDepth ts repos ;;
  age <- calculateAccountAge (user_created_at u) ;;
  let total := Z.of_nat (List.length repos) in
  active <- filterClock (fun r => isRecentlyActive (updated_at r)) repos ;;
  let activeCount := Z.of_nat (List.length active) in
  let avgStars := (inject_Z (sumStars repos) / inject_Z (Z.of_nat (List.length repos)))%Q in
  ret {| techStack := ts;
         topLanguages := topLanguagesOf (languageTotals (scanRepos repos));
         experienceLevel := determineExperienceLevel age total activeCount avgStars;
         totalProjects := total;
         activeProjects := activeCount;
         accountAge := age;
         stackDepth := depth |}.

(** ** Highlight selector: [extractRepositoryHighlights] *)

Record HighlightState := {
  hs_highlights : list RepositoryHighlight;
  hs_seen : list string
}.

Definition byStarsDesc (a b : RepositoryWithLanguages) : bool :=
  stargazers_count b - stargazers_count a <=? 0.

Definition byUpdateDesc (a b : RepositoryWithLanguages) : bool :=
  updated_at b - updated_at a <=? 0.

(** The closure [addHighlight]; [None] stands for [undefined]. *)
Definition addHighlight (candidate : option RepositoryWithLanguages) (why : string)
    (st : HighlightState) : HighlightState :=
  match candidate with
  | None => st
  | Some repo =>
      if setHas (hs_seen st) (name repo) then st
      else
        {| hs_highlights :=
             hs_highlights st ++
             [ {| hl_name := name repo;
                  hl_description := description repo;
                  stars := stargazers_count repo;
                  forks := forks_count repo;
                  primaryLanguage := language repo;
                  lastUpdated := updated_at repo;
                  createdAt := created_at repo;
                  hl_topics := topics repo;
                  url := html_url repo;
                  reason := why |} ];
           hs_seen := setAdd (hs_seen st) (name repo) |}
  end.

(** [Object.keys(repo.languageStats || {})]. *)
Definition languageKeys (repo : RepositoryWithLanguages) : list string :=
  match languageStats repo with Some stats => map fst stats | None => [] end.

(** Does the repository use [wanted], by its primary language or its byte map? *)
Definition usesLanguage (repo : RepositoryWithLanguages) (wanted : string) : bool :=
  String.eqb (toLowerCase (orEmpty (language repo))) (toLowerCase wanted)
  || existsb (fun lang => String.eqb (toLowerCase lang) (toLowerCase wanted))
             (languageKeys repo).

(** The [while] loop that fills the list with "Popular" entries.  [rest] is
    [byStars] from position [index] on; the loop is entered with
    [index < byStars.length] and leaves when [index] reaches the length. *)
Fixpoint popularLoop (limit : nat) (rest : list RepositoryWithLanguages)
    (st : HighlightState) : HighlightState :=
  match rest with
  | [] => st
  | repo :: rest' =>
      if (List.length (hs_highlights st) <? limit)%nat
      then popularLoop limit rest' (addHighlight (Some repo) "Popular" st)
      else st
  end.

Definition extractRepositoryHighlights (repos : list RepositoryWithLanguages)
    (priorityLanguages : list string) : list RepositoryHighlight :=
  match repos with
  | [] => []
  | _ =>
      let byStars := stableSort byStarsDesc repos in
      let byRecency := stableSort byUpdateDesc repos in
      let st := {| hs_highlights := []; hs_seen := [] |} in
      let st := addHighlight (hd_error byStars) "Top starred" st in
      let recentStandout :=
        match arrFind (fun repo => stargazers_count repo >=? 5) byRecency with
        | Some repo => Some repo
        | None => hd_error byRecency
        end in
      let st := addHighlight recentStandout "Recent" st in
      let stackAligned :=
        arrFind (fun repo => existsb (usesLanguage repo) priorityLanguages) byStars in
      let st := addHighlight stackAligned "Core stack" st in
      let st := popularLoop (Nat.min 3 (List.length repos)) byStars st in
      hs_highlights st
  end.

(** ** Activity analyzer: [calculateActivityMetrics] *)

Definition dayMs : Z := 1000 * 60 * 60 * 24.

(** The closure [diffDays] for the captured [now]. *)
Definition diffDays (now date : Z) : Z := roundDiv (now - date) dayMs.

Definition numericAsc (a b : Z) : bool := a - b <=? 0.

(** The private method [median]. *)
Definition median (values : list Z) : Z :=
  match values with
  | [] => 0
  | _ =>
      let sorted := stableSort numericAsc values in
      let mid := (List.length sorted / 2)%nat in
      if negb (List.length sorted mod 2 =? 0)%nat then nth mid sorted 0
      else roundDiv (nth (mid - 1) sorted 0 + nth mid sorted 0) 2
  end.

(** The [for] loop over consecutive pairs of [sortedByUpdate]. *)
Fixpoint updateIntervals (sorted : list RepositoryWithLanguages) : list Z :=
  match sorted with
  | current :: (next :: _) as rest =>
      roundDiv (Z.abs (updated_at current - updated_at next)) dayMs :: updateIntervals rest
  | _ => []
  end.

(** [Math.max(...args)] for a non-empty argument list. *)
Definition mathMax (args : list Z) : Z :=
  match args with
  | [] => 0
  | a :: rest => fold_left Z.max rest a
  end.

(** [arr.filter(p).length]. *)
Definition countWhere {A} (p : A -> bool) (arr : list A) : Z :=
  Z.of_nat (List.length (filter p arr)).

Definition defaultActivity : ActivityMetrics :=
  {| recentPushes := 0;
     activeLast30Days := 0;
     activeLast90Days := 0;
     medianUpdateInterval := 90;
     longestQuietStreak := 0;
     velocityScore := 0 |}.

(** Body of [calculateActivityMetrics] for a non-empty list, once [now] is read. *)
Definition activityAt (now : Z) (repos : list RepositoryWithLanguages) : ActivityMetrics :=
  let sortedByUpdate := stableSort byUpdateDesc repos in
  let intervals := updateIntervals sortedByUpdate in
  let latest := match sortedByUpdate with r :: _ => updated_at r | [] => 0 end in
  let pushes := countWhere (fun repo => diffDays now (updated_at repo) <=? 14) sortedByUpdate in
  let active30 := countWhere (fun repo => diffDays now (updated_at repo) <=? 30) sortedByUpdate in
  let active90 := countWhere (fun repo => diffDays now (updated_at repo) <=? 90) sortedByUpdate in
  let medianInterval :=
    match intervals with
    | [] => diffDays now latest
    | _ => median intervals
    end in
  let quietStreak :=
    match intervals with
    | [] => diffDays now latest
    | _ => mathMax (intervals ++ [diffDays now latest])
    end in
  let velocityBase := active30 * 12 + active90 * 6 + pushes * 16 in
  let velocityPenalty := Z.max 0 (Z.min 30 (floorDiv quietStreak 30 * 8)) in
  let velocity := Z.max 5 (Z.min 100 (velocityBase - velocityPenalty)) in
  {| recentPushes := pushes;
     activeLast30Days := active30;
     activeLast90Days := active90;
     medianUpdateInterval := medianInterval;
     longestQuietStreak := quietStreak;
     velocityScore := velocity |}.

Definition calculateActivityMetrics (repos : list RepositoryWithLanguages)
  : Clock ActivityMetrics :=
  match repos with
  | [] => ret defaultActivity
  | _ => now <- newDate ;; ret (activityAt now repos)
  end.

(** ** Quality evaluator: [evaluateQualitySignals] *)

Definition cadenceFromInterval (interval : Z) : ReleaseCadence :=
  if interval <=? 14 then Weekly
  else if interval <=? 30 then Biweekly
  else if interval <=? 60 then Monthly
  else if interval <=? 120 then Quarterly
  else AdHoc.

Definition testingKeys : list string :=
  ["test"; "spec"; "jest"; "pytest"; "cypress"; "vitest"; "mocha"; "unit"].

Definition automationKeys : list string :=
  ["github-actions"; "workflow"; "ci"; "pipeline"; "continuous"; "deployment"; "travis";
   "circleci"; "azure-pipelines"; "gitlab-ci"].

Definition documentationKeys : list string :=
  ["docs"; "documentation"; "wiki"; "guide"; "handbook"; "storybook"; "readme"].

(** [repo.description && repo.description.length > 80]. *)
Definition longDescription (repo : RepositoryWithLanguages) : bool :=
  match description repo with
  | Some d => (80 <? jsLength d)%nat
  | None => false
  end.

Definition isTestingSparse (t : TestingLevel) : bool :=
  match t with TestingSparse => true | _ => false end.
Definition isAutomationNone (a : AutomationLevel) : bool :=
  match a with AutomationNone => true | _ => false end.
Definition isDocSparse (d : DocumentationLevel) : bool :=
  match d with DocSparse => true | _ => false end.

(** [hits / total >= bound] on exact rationals. *)
Definition ratioAtLeast (hits total : Z) (bound : Q) : bool :=
  Qle_bool bound (inject_Z hits / inject_Z total).

Definition evaluateQualitySignals (repos : list RepositoryWithLanguages)
    (a : ActivityMetrics) : QualitySignals :=
  match repos with
  | [] =>
      {| testing := TestingSparse;
         automation := AutomationNone;
         documentation := DocSparse;
         releaseCadence := AdHoc;
         notes := ["No public repositories available for analysis."] |}
  | _ =>
      let total := Z.of_nat (List.length repos) in
      let testingHits := countWhere (fun repo => someKeyword testingKeys (searchText repo)) repos in
      let automationHits :=
        countWhere (fun repo => someKeyword automationKeys (searchText repo)) repos in
      let documentationHits :=
        countWhere (fun repo => longDescription repo
                                || someKeyword documentationKeys (searchText repo)) repos in
      let testingLevel :=
        if ratioAtLeast testingHits total (35 # 100) then TestingStrong
        else if ratioAtLeast testingHits total (18 # 100) then TestingModerate
        else TestingSparse in
      let automationLevel :=
        if ratioAtLeast automationHits total (3 # 10) then AutomationAdvanced
        else if ratioAtLeast automationHits total (15 # 100) then AutomationBasic
        else AutomationNone in
      let documentationLevel :=
        if ratioAtLeast documentationHits total (45 # 100) then DocComprehensive
        else if ratioAtLeast documentationHits total (2 # 10) then DocModerate
        else DocSparse in
      let notes0 : list string := [] in
      let notes1 :=
        if isTestingSparse testingLevel
        then notes0 ++ ["Testing references are minimal across public repositories."]
        else notes0 in
      let notes2 :=
        if isAutomationNone automationLevel
        then notes1 ++ ["No CI/CD or workflow keywords detected; consider adding automation."]
        else notes1 in
      let notes3 :=
        if isDocSparse documentationLevel
        then notes2 ++ ["Documentation signals are limited; enrich READMEs and guides."]
        else notes2 in
      let notes4 :=
        if recentPushes a >=? 5
        then notes3 ++ ["Multiple repositories updated in the last two weeks."]
        else notes3 in
      let notes5 :=
        if velocityScore a >=? 70
        then notes4 ++ ["Development cadence is consistently high."]
        else notes4 in
      {| testing := testingLevel;
         automation := automationLevel;
         documentation := documentationLevel;
         releaseCadence := cadenceFromInterval (medianUpdateInterval a);
         notes := notes5 |}
  end.

(** ** Opportunity engine: [identifyOpportunities] *)

Definition skillSatisfied (ts : TechStack) (skill : string) : bool :=
  arrIncludes (primary ts) skill
  || arrIncludes (frameworks ts) skill
  || arrIncludes (tools ts) skill
  || existsb (fun p => includes (toLowerCase skill) (toLowerCase p)) (primary ts).

Definition matchJobRoles (ts : TechStack) : list string :=
  fold_left
    (fun roles '(role, requiredSkills) =>
       let matches := filter (skillSatisfied ts) requiredSkills in
       if (2 <=? List.length matches)%nat then setAdd roles role else roles)
    techStackMapping [].

(** [arr.some((x) => options.includes(x))]. *)
Definition someIn (arr options : list string) : bool :=
  existsb (fun x => arrIncludes options x) arr.

Definition matchIndustries (ts : TechStack) : list string :=
  let industries : list string := [] in
  let industries :=
    if someIn (frameworks ts) ["React"; "Angular"; "Vue"]
    then setAdd (setAdd industries "Web Development") "SaaS" else industries in
  let industries :=
    if someIn (frameworks ts) ["TensorFlow"; "PyTorch"]
    then setAdd (setAdd industries "AI/ML") "Data Science" else industries in
  let industries :=
    if someIn (tools ts) ["Docker"; "Kubernetes"; "AWS"; "Azure"; "GCP"]
    then setAdd (setAdd industries "Cloud Computing") "DevOps" else industries in
  let industries :=
    if someIn (primary ts) ["Swift"; "Kotlin"; "Dart"]
    then setAdd industries "Mobile Apps" else industries in
  let industries :=
    if someIn (frameworks ts) ["Django"; "Flask"; "Express"; "Spring"]
    then setAdd (setAdd industries "Backend Services") "API Development" else industries in
  industries.

Definition levelRecommendations (level : ExperienceLevel) : list string :=
  match level with
  | Beginner =>
      ["Expand project variety to demonstrate breadth and foundational skills.";
       "Join collaborative open-source repositories to grow teamwork experience."]
  | Intermediate =>
      ["Deepen expertise in flagship stack components through advanced builds.";
       "Take on architectural responsibilities in collaborative projects."]
  | _ =>
      ["Share expertise via mentorship, talks, or open-source leadership.";
       "Lean into architecture and scaling concerns across flagship repos."]
  end.

Definition levelNextActions (level : ExperienceLevel) : list string :=
  match level with
  | Beginner => ["Ship a small production-ready project end-to-end this month."]
  | Intermediate => ["Document design decisions and publish a technical case study."]
  | _ => ["Formalize long-term roadmap for your most active repositories."]
  end.

Definition identifyOpportunities (sa : SkillAnalysis) (q : QualitySignals)
    (a : ActivityMetrics) : Opportunities :=
  let ts := techStack sa in
  let actions := levelNextActions (experienceLevel sa) in
  let actions :=
    if activeProjects sa <? 3
    then actions ++ ["Increase public project cadence to highlight ongoing maintenance."]
    else actions in
  let actions :=
    if isTestingSparse (testing q)
    then actions ++ ["Introduce automated test coverage on highlighted repositories."]
    else actions in
  let actions :=
    if isAutomationNone (automation q)
    then actions ++ ["Set up a CI/CD workflow (GitHub Actions, CircleCI, or similar)."]
    else actions in
  let actions :=
    if isDocSparse (documentation q)
    then actions ++ ["Upgrade README and docs with architecture notes and usage guides."]
    else actions in
  let actions :=
    if velocityScore a <? 40
    then actions ++ ["Plan bi-weekly release checkpoints to increase visible momentum."]
    else actions in
  {| jobRoles := dedupe (matchJobRoles ts);
     industries := dedupe (matchIndustries ts);
     recommendations := dedupe (levelRecommendations (experienceLevel sa));
     nextActions := dedupe actions |}.

(** ** Timeline builder: [buildTimeline] *)

Local Infix "^^" := String.append (at level 60, right associativity).

Definition timeSince (date : Z) : Clock string :=
  now <- newDate ;;
  let diffMs := now - date in
  let days := roundDiv diffMs (1000 * 60 * 60 * 24) in
  ret (if days <=? 1 then "1 day"
       else if days <? 7 then numberToString days ^^ " days"
       else
         let diffWeeks := roundDiv days 7 in
         if diffWeeks <? 5 then numberToString diffWeeks ^^ " wks"
         else
           let diffMonths := roundDiv days 30 in
           if diffMonths <? 12 then numberToString diffMonths ^^ " mo"
           else
             let diffYears := roundDiv days 365 in
             numberToString diffYears ^^ " yr"
               ^^ (if diffYears >? 1 then "s" else EmptyString)).

Definition byCreationAsc (a b : RepositoryWithLanguages) : bool :=
  created_at a - created_at b <=? 0.

Definition byYearAsc (a b : TimelineEvent) : bool := year a - year b <=? 0.

Definition eventKey (e : TimelineEvent) : string :=
  numberToString (year e) ^^ "-" ^^ title e.

(** The final [reduce]: an event is kept unless its key is already present. *)
Definition dedupeEvents (events : list TimelineEvent) : list TimelineEvent :=
  fold_left
    (fun acc event =>
       if negb (existsb (fun existing => String.eqb (eventKey existing) (eventKey event)) acc)
       then acc ++ [event] else acc)
    events [].

Definition adoptionEvents {cal : Calendar} (byCreation : list RepositoryWithLanguages)
    (top : list TopLanguage) (events : list TimelineEvent) : list TimelineEvent :=
  fold_left
    (fun events lang =>
       match arrFind (fun repo => usesLanguage repo (tl_language lang)) byCreation with
       | Some found =>
           events ++
           [ {| year := getFullYear (created_at found);
                title := tl_language lang ^^ " adoption";
                ev_description :=
                  name found ^^ " introduced " ^^ tl_language lang ^^ " into the portfolio" |} ]
       | None => events
       end)
    (sliceTo 3 top) events.

(** [value || fallback] on an optional string: the empty string is falsy. *)
Definition orDefault (value : option string) (fallback : string) : string :=
  match value with
  | Some s => if String.eqb s EmptyString then fallback else s
  | None => fallback
  end.

Definition buildTimeline {cal : Calendar} (u : GitHubUser) (repos : list RepositoryWithLanguages)
    (sa : SkillAnalysis) : Clock (list TimelineEvent) :=
  let events :=
    [ {| year := getFullYear (user_created_at u);
         title := "Joined GitHub";
         ev_description :=
           "Account created • " ^^ numberToString (totalProjects sa)
             ^^ " public repositories analysed" |} ] in
  let byCreation := stableSort byCreationAsc repos in
  (* [byCreation[0]] and the head of the list sorted by update exist exactly
     when [repos] is not empty *)
  match byCreation, stableSort byUpdateDesc repos with
  | firstRepo :: _, latestRepo :: _ =>
      let events :=
        events ++
        [ {| year := getFullYear (created_at firstRepo);
             title := "First repository • " ^^ name firstRepo;
             ev_description :=
               orDefault (description firstRepo) "Initial project committed to GitHub" |} ] in
      let events := adoptionEvents byCreation (topLanguages sa) events in
      since <- timeSince (updated_at latestRepo) ;;
      let events :=
        events ++
        [ {| year := getFullYear (updated_at latestRepo);
             title := "Latest launch";
             ev_description := name latestRepo ^^ " updated " ^^ since ^^ " ago" |} ] in
      ret (dedupeEvents (stableSort byYearAsc events))
  | _, _ => ret events
  end.

(** ** Orchestrator: [analyzeRepositories] *)

Definition analyzeRepositories {cal : Calendar} (u : GitHubUser)
    (repos : list RepositoryWithLanguages) (contribs : option ContributionStats)
  : Clock AnalysisResult :=
  sa <- analyzeSkills u repos ;;
  let hl := extractRepositoryHighlights repos (map tl_language (topLanguages sa)) in
  act <- calculateActivityMetrics repos ;;
  let qual := evaluateQualitySignals repos act in
  let opps := identifyOpportunities sa qual act in
  let future := predictFuture sa qual act in
  tl <- buildTimeline u repos sa ;;
  ret {| user := u;
         skillAnalysis := sa;
         opportunities := opps;
         futurePrediction := future;
         highlights := hl;
         activity := act;
         quality := qual;
         timeline := tl;
         contributions := contribs |}.

(** ** GitHub client (services/githubService.ts): the parts without I/O *)

Record PullRequestPayload := {
  prp_title : string;
  prp_state : string;
  prp_merged : bool;
  prp_html_url : string;
  prp_created_at : Z
}.

Record IssuePayload := {
  ip_title : string;
  ip_state : string;
  ip_html_url : string
}.

Record EventPayload := {
  action : option string;
  pull_request : option PullRequestPayload;
  issue : option IssuePayload
}.

Record GitHubEvent := {
  ev_type : string;
  ev_repo_name : string;
  payload : EventPayload;
  ev_created_at : Z
}.

(** [s.split(sep)] for a one-character separator. *)
Fixpoint splitChar (sep : ascii) (s : string) : list string :=
  match s with
  | EmptyString => [EmptyString]
  | String c s' =>
      if Ascii.eqb c sep then EmptyString :: splitChar sep s'
      else match splitChar sep s' with
           | seg :: rest => String c seg :: rest
           | [] => [String c EmptyString]
           end
  end.

(** [name.split('/')[1] || name]. *)
Definition repoShortName (fullName : string) : string :=
  match nth_error (splitChar "/" fullName) 1 with
  | Some seg => if String.eqb seg EmptyString then fullName else seg
  | None => fullName
  end.

(** [payload.action === wanted]. *)
Definition actionIs (e : GitHubEvent) (wanted : string) : bool :=
  match action (payload e) with
  | Some a => String.eqb a wanted
  | None => false
  end.

(** The counters and the list that the loop over the pull-request events updates. *)
Record PRScan := {
  scan_totalPRs : Z;
  scan_mergedPRs : Z;
  scan_openPRs : Z;
  scan_recentPRs : list RecentPR
}.

Definition scanPREvent (s : PRScan) (event : GitHubEvent) : PRScan :=
  let total := if actionIs event "opened" then scan_totalPRs s + 1 else scan_totalPRs s in
  match pull_request (payload event) with
  | None =>
      {| scan_totalPRs := total; scan_mergedPRs := scan_mergedPRs s;
         scan_openPRs := scan_openPRs s; scan_recentPRs := scan_recentPRs s |}
  | Some pr =>
      let merged := if prp_merged pr then scan_mergedPRs s + 1 else scan_mergedPRs s in
      let opened :=
        if prp_merged pr then scan_openPRs s
        else if String.eqb (prp_state pr) "open" then scan_openPRs s + 1
        else scan_openPRs s in
      let recent :=
        if (List.length (scan_recentPRs s) <? 5)%nat && actionIs event "opened" then
          scan_recentPRs s ++
          [ {| pr_repo := repoShortName (ev_repo_name event);
               pr_title := prp_title pr;
               pr_state :=
                 if prp_merged pr then PRMerged
                 else if String.eqb (prp_state pr) "open" then PROpen else PRClosed;
               pr_url := prp_html_url pr;
               pr_createdAt := prp_created_at pr |} ]
        else scan_recentPRs s in
      {| scan_totalPRs := total; scan_mergedPRs := merged; scan_openPRs := opened;
         scan_recentPRs := recent |}
  end.

Definition scanIssueEvent (counts : Z * Z) (event : GitHubEvent) : Z * Z :=
  let '(totalIssues, closedIssues) := counts in
  let totalIssues := if actionIs event "opened" then totalIssues + 1 else totalIssues in
  let closedIssues := if actionIs event "closed" then closedIssues + 1 else closedIssues in
  (totalIssues, closedIssues).

Definition parseContributionStats (events : list GitHubEvent) : ContributionStats :=
  let prEvents := filter (fun e => String.eqb (ev_type e) "PullRequestEvent") events in
  let issueEvents := filter (fun e => String.eqb (ev_type e) "IssuesEvent") events in
  let prs :=
    fold_left scanPREvent prEvents
      {| scan_totalPRs := 0; scan_mergedPRs := 0; scan_openPRs := 0; scan_recentPRs := [] |} in
  let '(issuesTotal, issuesClosed) := fold_left scanIssueEvent issueEvents (0, 0) in
  {| totalPRs := scan_totalPRs prs;
     mergedPRs := scan_mergedPRs prs;
     openPRs := scan_openPRs prs;
     totalIssues := issuesTotal;
     closedIssues := issuesClosed;
     recentPRs := scan_recentPRs prs |}.

(** The static fields that [enforceAnonymousLimit] reads and writes. *)
Record AnonymousWindow := {
  anonWindowStart : Z;
  anonRequestCount : Z
}.

Definition ANON_WINDOW_MS : Z := 60000.
Definition ANON_LIMIT : Z := 25.

(** [token] as a condition: [undefined] and the empty string are falsy. *)
Definition hasToken (token : option string) : bool :=
  match token with
  | Some t => negb (String.eqb t EmptyString)
  | None => false
  end.

(** [enforceAnonymousLimit(token)] with [Date.now()] returning [now]: the
    fields after the call, and the message of the error thrown, if any.  The
    fields keep their new values when the call throws. *)
Definition enforceAnonymousLimit (token : option string) (now : Z) (w : AnonymousWindow)
  : AnonymousWindow * option string :=
  if hasToken token then (w, None)
  else
    let w :=
      if now - anonWindowStart w >? ANON_WINDOW_MS
      then {| anonWindowStart := now; anonRequestCount := 0 |}
      else w in
    let w :=
      {| anonWindowStart := anonWindowStart w; anonRequestCount := anonRequestCount w + 1 |} in
    if anonRequestCount w >? ANON_LIMIT then
      (w, Some ("Too many GitHub requests without a personal token. "
                ^^ "Set VITE_GITHUB_TOKEN in your .env to continue."))
    else (w, None).

(** Anonymous calls made one after the other at the given instants: for each
    call, whether it returned. *)
Fixpoint anonymousCalls (instants : list Z) (w : AnonymousWindow) : list bool :=
  match instants with
  | [] => []
  | now :: later =>
      let '(w', err) := enforceAnonymousLimit None now w in
      (match err with None => true | Some _ => false end) :: anonymousCalls later w'
  end.

(** A repository as the REST API lists it (types/github.ts); [description]
    and [language] may be [null] in the payload. *)
Record Repository := {
  repo_name : string;
  repo_description : option string;
  repo_language : option string;
  languages_url : string;
  repo_stargazers_count : Z;
  repo_forks_count : Z;
  size : Z;
  repo_created_at : Z;
  repo_updated_at : Z;
  repo_topics : list string;
  repo_html_url : string
}.

Definition withLanguageStats (repo : Repository) (stats : list (string * Z))
  : RepositoryWithLanguages :=
  {| name := repo_name repo;
     description := repo_description repo;
     language := repo_language repo;
     stargazers_count := repo_stargazers_count repo;
     forks_count := repo_forks_count repo;
     updated_at := repo_updated_at repo;
     created_at := repo_created_at repo;
     html_url := repo_html_url repo;
     topics := repo_topics repo;
     languageStats := Some stats |}.

(** [repo.language ? { [repo.language]: 1 } : {}]. *)
Definition basicLanguageStats (repo : Repository) : list (string * Z) :=
  match repo_language repo with
  | Some lang => if String.eqb lang EmptyString then [] else [(lang, 1)]
  | None => []
  end.

(** The repository list that [analyzeUser] hands to the engine.  The outcome
    of [getRepositoryLanguages] for a repository is a parameter: [Some] byte
    map, or [None] when the request failed. *)
Definition analyzeUserRepos (fetchLanguages : Repository -> option (list (string * Z)))
    (repos : list Repository) : list RepositoryWithLanguages :=
  let topRepos := sliceTo 15 repos in
  let otherRepos := skipn 15 repos in
  let topReposWithLanguages :=
    map (fun repo =>
           match fetchLanguages repo with
           | Some languages => withLanguageStats repo languages
           | None => withLanguageStats repo []
           end) topRepos in
  let otherReposBasic :=
    map (fun repo => withLanguageStats repo (basicLanguageStats repo)) otherRepos in
  topReposWithLanguages ++ otherReposBasic.

(** ** Icon lookup (lib/techIcons.tsx) *)

Definition techIconMap : list (string * string) :=
  [ ("JavaScript", "/src/assets/images/JavaScript.svg");
    ("TypeScript", "/src/assets/images/TypeScript.svg");
    ("Python", "/src/assets/images/Python.svg");
    ("Java", "/src/assets/images/Java.svg");
    ("Go", "/src/assets/images/Go.svg");
    ("Rust", "/src/assets/images/Rust.svg");
    ("PHP", "/src/assets/images/PHP.svg");
    ("Ruby", "/src/assets/images/Ruby.svg");
    ("C++", "/src/assets/images/C++.svg");
    ("C#", "/src/assets/images/C%23.svg");
    ("Swift", "/src/assets/images/Swift.svg");
    ("Kotlin", "/src/assets/images/Kotlin.svg");
    ("Dart", "/src/assets/images/Dart.svg");
    ("HTML", "/src/assets/images/HTML5.svg");
    ("CSS", "/src/assets/images/CSS3.svg");
    ("C", "/src/assets/images/C.svg");
    ("R", "/src/assets/images/R.svg");
    ("Scala", "/src/assets/images/Scala.svg");
    ("Perl", "/src/assets/images/Perl.svg");
    ("Lua", "/src/assets/images/Lua.svg");
    ("React", "/src/assets/images/React.svg");
    ("Next.js", "/src/assets/images/Next.js.svg");
    ("Vue", "/src/assets/images/Vue.js.svg");
    ("Angular", "/src/assets/images/Angular.svg");
    ("Svelte", "/src/assets/images/Svelte.svg");
    ("Vite", "/src/assets/images/Vite.js.svg");
    ("Gatsby", "/src/assets/images/Gatsby.svg");
    ("Nuxt.js", "/src/assets/images/Nuxt.js.svg");
    ("Ember", "/src/assets/images/Ember.svg");
    ("Django", "/src/assets/images/Django.svg");
    ("Flask", "/src/assets/images/Flask.svg");
    ("FastAPI", "/src/assets/images/FastAPI.svg");
    ("Express", "/src/assets/images/Express.svg");
    ("NestJS", "/src/assets/images/NestJS.svg");
    ("Spring", "/src/assets/images/Spring.svg");
    ("Laravel", "/src/assets/images/Laravel.svg");
    ("Rails", "/src/assets/images/Rails.svg");
    ("Node", "/src/assets/images/Node.js.svg");
    ("ASP.NET", "/src/assets/images/dotNET.svg");
    ("MongoDB", "/src/assets/images/MongoDB.svg");
    ("PostgreSQL", "/src/assets/images/PostgresSQL.svg");
    ("MySQL", "/src/assets/images/MySQL.svg");
    ("Redis", "/src/assets/images/Redis.svg");
    ("SQLite", "/src/assets/images/SQLite.svg");
    ("MariaDB", "/src/assets/images/MariaDB.svg");
    ("Oracle", "/src/assets/images/Oracle.svg");
    ("Docker", "/src/assets/images/Docker.svg");
    ("Kubernetes", "/src/assets/images/Kubernetes.svg");
    ("Git", "/src/assets/images/Git.svg");
    ("AWS", "/src/assets/images/AWS.svg");
    ("Azure", "/src/assets/images/Azure.svg");
    ("GCP", "/src/assets/images/Google-Cloud.svg");
    ("Jenkins", "/src/assets/images/Jenkins.svg");
    ("GitHub", "/src/assets/images/Github.svg");
    ("GitLab", "/src/assets/images/GitLab.svg");
    ("Tailwind", "/src/assets/images/Tailwind-CSS.svg");
    ("Bootstrap", "/src/assets/images/Bootstrap.svg");
    ("Material-UI", "/src/assets/images/Material-UI.svg");
    ("Sass", "/src/assets/images/Sass.svg");
    ("Flutter", "/src/assets/images/Flutter.svg");
    ("React Native", "/src/assets/images/React.svg");
    ("GraphQL", "/src/assets/images/GraphQL.svg");
    ("TensorFlow", "/src/assets/images/TensorFlow.svg");
    ("PyTorch", "/src/assets/images/PyTorch.svg");
    ("Webpack", "/src/assets/images/Webpack.svg");
    ("Babel", "/src/assets/images/Babel.svg");
    ("Redux", "/src/assets/images/Redux.svg");
    ("Nginx", "/src/assets/images/Nginx.svg") ].

(** [techIconMap[key]] as far as the own keys of the table go. *)
Fixpoint iconOf (table : list (string * string)) (key : string) : option string :=
  match table with
  | [] => None
  | (k, icon) :: table' => if String.eqb k key then Some icon else iconOf table' key
  end.

(** The members that an object literal inherits from [Object.prototype]:
    [techIconMap[name]] finds them, and all of them are truthy, although
    they are not keys of the table. *)
Definition objectPrototypeMembers : list string :=
  [ "constructor"; "hasOwnProperty"; "isPrototypeOf"; "propertyIsEnumerable";
    "toLocaleString"; "toString"; "valueOf"; "__proto__";
    "__defineGetter__"; "__defineSetter__"; "__lookupGetter__"; "__lookupSetter__" ].

(** What [getTechIcon] returns: the path of an icon or, for the name of an
    inherited member, that member, which is no string. *)
Inductive IconResult :=
| IconPath (path : string)
| InheritedMember (member : string).

Definition fallbackIcon : string := "/src/assets/images/Code.svg".

(** The predicate of the [find] in [getTechIcon]. *)
Definition looseIconMatch (lowerTech key : string) : bool :=
  String.eqb (toLowerCase key) lowerTech
  || includes lowerTech (toLowerCase key)
  || includes (toLowerCase key) lowerTech.

Definition getTechIcon (techName : string) : IconResult :=
  match iconOf techIconMap techName with
  | Some icon => IconPath icon
  | None =>
      if arrIncludes objectPrototypeMembers techName then InheritedMember techName
      else
        let lowerTech := toLowerCase techName in
        match arrFind (looseIconMatch lowerTech) (map fst techIconMap) with
        | Some found =>
            match iconOf techIconMap found with
            | Some icon => IconPath icon
            | None => IconPath fallbackIcon
            end
        | None => IconPath fallbackIcon
        end
  end.

(** ** Notions used to state the properties *)

(** [sum(topLanguages[].percentage)]. *)
Definition sumPercentages (langs : list TopLanguage) : Q :=
  fold_right (fun entry acc => (percentage entry + acc)%Q) 0%Q langs.

(** The distinct language names of the byte maps, in order of first occurrence. *)
Definition distinctLanguages (repos : list RepositoryWithLanguages) : list string :=
  setFrom (flat_map languageKeys repos).

(** What the closure [addHighlight] maintains: the names of the entries are
    pairwise distinct, [seen] holds exactly these names, and every entry comes
    from a repository of the input. *)
Definition highlightInvariant (repos : list RepositoryWithLanguages) (st : HighlightState)
  : Prop :=
  NoDup (map hl_name (hs_highlights st))
  /\ (forall x, In x (hs_seen st) <-> In x (map hl_name (hs_highlights st)))
  /\ incl (map hl_name (hs_highlights st)) (map name repos).

(** What one repository contributes to the detected technologies. *)
Definition repoDetects (repo : RepositoryWithLanguages) (x : string) : Prop :=
  (exists keywords,
      In (x, keywords) frameworkKeywords /\ someKeyword keywords (searchText repo) = true)
  \/ (x = "Docker" /\ includes (searchText repo) "docker" = true)
  \/ (x = "Kubernetes"
      /\ (includes (searchText repo) "kubernetes" || includes (searchText repo) "k8s") = true)
  \/ (x = "Terraform" /\ includes (searchText repo) "terraform" = true).

(** A framework of the lexicon one of whose aliases occurs in the haystack
    of some repository. *)
Definition frameworkDetected (repos : list RepositoryWithLanguages) (tech : string) : Prop :=
  exists repo keywords,
    In repo repos /\ In (tech, keywords) frameworkKeywords
    /\ someKeyword keywords (searchText repo) = true.

(** One of the tools Docker, Kubernetes and Terraform whose keyword occurs in
    the haystack of some repository. *)
Definition toolDetected (repos : list RepositoryWithLanguages) (tech : string) : Prop :=
  exists repo,
    In repo repos
    /\ ((tech = "Docker" /\ includes (searchText repo) "docker" = true)
        \/ (tech = "Kubernetes"
            /\ (includes (searchText repo) "kubernetes" || includes (searchText repo) "k8s")
               = true)
        \/ (tech = "Terraform" /\ includes (searchText repo) "terraform" = true)).

(** The names of the five languages with the largest percentages. *)
Definition leadingLanguages (repos : list RepositoryWithLanguages) : list string :=
  map tl_language (firstn 5 (rankedLanguages (languageTotals (scanRepos repos)))).

(** Two arrays are disjoint as sets of names. *)
Definition disjointNames (xs ys : list string) : Prop :=
  forall x, In x xs -> ~ In x ys.

(** Rank of a demand label in the order Low < Medium < High < Very High. *)
Definition demandRank (d : MarketDemand) : Z :=
  match d with Low => 0 | Medium => 1 | High => 2 | VeryHigh => 3 end.

(** The day gaps between consecutive update timestamps, most recent first. *)
Definition dayGaps (repos : list RepositoryWithLanguages) : list Z :=
  updateIntervals (stableSort byUpdateDesc repos).

(** [v] is the [k]-th smallest value of [l], counting from 0. *)
Definition orderStatistic (l : list Z) (k : nat) (v : Z) : Prop :=
  In v l
  /\ (List.length (filter (fun x => (x <? v)%Z) l) <= k)%nat
  /\ (k < List.length (filter (fun x => (x <=? v)%Z) l))%nat.

(** The median as the specification words it: the middle value of an odd
    number of values, the average of the two middle values rounded to the
    nearest integer (a half upwards) of an even number. *)
Definition specMedian (l : list Z) (m : Z) : Prop :=
  let n := List.length l in
  (Nat.odd n = true /\ orderStatistic l (n / 2) m)
  \/ (Nat.even n = true
      /\ exists a b, orderStatistic l (n / 2 - 1) a /\ orderStatistic l (n / 2) b
                     /\ a + b <= 2 * m <= a + b + 1).

(** The quiet streak as the specification words it: the largest of the gaps
    and of the days since the update of the oldest repository. *)
Definition specLongestQuietStreak (now : Z) (repos : list RepositoryWithLanguages) : Z :=
  let sorted := stableSort byUpdateDesc repos in
  let oldest := match rev sorted with r :: _ => updated_at r | [] => 0 end in
  mathMax (dayGaps repos ++ [diffDays now oldest]).



(** ** Sample inputs *)

(** A calendar of 30-day months and 365-day years, for the samples only. *)
Definition sampleCalendar : Calendar :=
  {| monthsBefore := fun k t => t - k * 30 * dayMs;
     getFullYear := fun t => 1970 + t / (365 * dayMs) |}.

Definition sampleNow : Z := 1700000000000.


Definition sampleUser : GitHubUser :=
  {| login := "octo"; user_name := "Octo"; bio := "dev"; public_repos := 2;
     followers := 3; following := 1; user_created_at := sampleNow - 3000 * dayMs;
     avatar_url := "https://avatars.example/octo"; user_html_url := "https://github.com/octo" |}.


Definition mkRepo (n : string) (d : option string) (lang : option string) (starCount : Z)
    (daysSinceUpdate daysSinceCreation : Z) (tps : list string)
    (stats : option (list (string * Z))) : RepositoryWithLanguages :=
  {| name := n; description := d; language := lang; stargazers_count := starCount;
     forks_count := 0; updated_at := sampleNow - daysSinceUpdate * dayMs;
     created_at := sampleNow - daysSinceCreation * dayMs;
     html_url := String.append "https://github.com/octo/" n; topics := tps;
     languageStats := stats |}.

Definition repoShop : RepositoryWithLanguages :=
  mkRepo "shop-api" (Some "Express REST API with MongoDB") (Some "JavaScript") 12 10 400
         ["nodejs"; "docker"] (Some [("JavaScript", 9000); ("HTML", 1000)]).

Definition repoNotes : RepositoryWithLanguages :=
  mkRepo "ml-notes" None (Some "Python") 60 100 900 ["pytorch"]
         (Some [("Python", 5000); ("Jupyter Notebook", 5000)]).

(** One repository written in eleven languages of one byte each. *)
Definition repoPolyglot : RepositoryWithLanguages :=
  mkRepo "polyglot" None (Some "C") 0 1 2 []
         (Some [("C", 1); ("Go", 1); ("Rust", 1); ("Java", 1); ("Ruby", 1); ("PHP", 1);
                ("Perl", 1); ("Lua", 1); ("Zig", 1); ("Nim", 1); ("Elm", 1)]).

(** A repository whose haystack holds the keywords of Git, CI/CD and Ansible. *)
Definition repoInfra : RepositoryWithLanguages :=
  mkRepo "infra" (Some "ansible playbooks run by github-actions") (Some "Shell") 3 5 50
         ["git"] (Some [("Shell", 400); ("Python", 100)]).

Definition sampleForecastInput (velocity : Z) (auto : AutomationLevel)
  : SkillAnalysis * QualitySignals * ActivityMetrics :=
  ({| techStack := {| primary := ["Python"]; secondary := []; frameworks := ["React"];
                      tools := [] |};
      topLanguages := []; experienceLevel := Beginner; totalProjects := 1;
      activeProjects := 1; accountAge := 1; stackDepth := {| core := []; supporting := [];
                                                             emerging := [] |} |},
   {| testing := TestingSparse; automation := auto; documentation := DocSparse;
      releaseCadence := AdHoc; notes := [] |},
   {| recentPushes := 0; activeLast30Days := 0; activeLast90Days := 0;
      medianUpdateInterval := 90; longestQuietStreak := 0; velocityScore := velocity |}).

(** ** Notions used to state further properties *)

(** The rule of [analyzeSkills] that puts the tool [tool] into [tools] fires
    on the haystack of [repo]. *)
Definition toolRuleFires (repo : RepositoryWithLanguages) (tool : string) : Prop :=
  let text := searchText repo in
  (tool = "Docker" /\ includes text "docker" = true)
  \/ (tool = "Kubernetes" /\ (includes text "kubernetes" || includes text "k8s") = true)
  \/ (tool = "Git" /\ includes text "git" = true)
  \/ (tool = "CI/CD" /\ (includes text "ci/cd" || includes text "github-actions") = true)
  \/ (tool = "Terraform" /\ includes text "terraform" = true)
  \/ (tool = "Ansible" /\ includes text "ansible" = true).

(** Every entry of every byte map, in the order in which the scan meets them. *)
Definition allLanguageStats (repos : list RepositoryWithLanguages) : list (string * Z) :=
  flat_map (fun repo => match languageStats repo with Some stats => stats | None => [] end)
           repos.

Definition sumZ (values : list Z) : Z := fold_right Z.add 0 values.

(** The bytes recorded for [lang] over all the byte maps. *)
Definition languageBytes (repos : list RepositoryWithLanguages) (lang : string) : Z :=
  sumZ (map snd (filter (fun entry => String.eqb (fst entry) lang) (allLanguageStats repos))).

(** The share of a language as the specification words it: its bytes over
    the bytes of all languages, times 100. *)
Definition languageShare (repos : list RepositoryWithLanguages) (lang : string) : Q :=
  (inject_Z (languageBytes repos lang)
   / inject_Z (sumZ (map snd (allLanguageStats repos))) * 100)%Q.

(** [totals[lang] || 0]. *)
Definition totalOf (totals : list (string * Z)) (lang : string) : Z :=
  match find (fun entry => String.eqb (fst entry) lang) totals with
  | Some entry => snd entry
  | None => 0
  end.

(** Every name that [detectFullStacks] can return, in the order in which the
    rules append them. *)
Definition stackCatalogue : list string :=
  map fst stackPatterns ++
  ["React + Vite"; "Next.js"; "Vue + Vite"; "Angular"; "Node.js + TypeScript";
   "Node.js + Express"; "Django"; "Spring Boot"; "MERN Stack"; "PERN Stack"].

(** The composite rules of [detectFullStacks], one function per rule. *)
Definition ruleReactStack (has : string -> bool) (stacks : list string) : list string :=
  if has "React" then
    if has "Vite" then stacks ++ ["React + Vite"]
    else if has "Next.js" then stacks ++ ["Next.js"] else stacks
  else stacks.

Definition ruleVueStack (has : string -> bool) (stacks : list string) : list string :=
  if has "Vue" && has "Vite" then stacks ++ ["Vue + Vite"] else stacks.

Definition ruleAngularStack (has : string -> bool) (stacks : list string) : list string :=
  if has "Angular" then stacks ++ ["Angular"] else stacks.

Definition ruleNodeStack (has : string -> bool) (stacks : list string) : list string :=
  if has "Node" || has "Express" then
    if has "TypeScript" then stacks ++ ["Node.js + TypeScript"]
    else stacks ++ ["Node.js + Express"]
  else stacks.

Definition ruleDjangoStack (has : string -> bool) (stacks : list string) : list string :=
  if has "Django" then stacks ++ ["Django"] else stacks.

Definition ruleSpringStack (has : string -> bool) (stacks : list string) : list string :=
  if has "Spring" then stacks ++ ["Spring Boot"] else stacks.

Definition ruleFullStack (has : string -> bool) (stacks : list string) : list string :=
  if (has "React" || has "Next.js") && (has "Node" || has "Express")
     && negb (arrIncludes stacks "MERN") && negb (arrIncludes stacks "PERN") then
    if has "MongoDB" then stacks ++ ["MERN Stack"]
    else if has "PostgreSQL" then stacks ++ ["PERN Stack"] else stacks
  else stacks.

(** A list of names without duplicates, all among [seen]. *)
Definition freshWithin (seen stacks : list string) : Prop :=
  NoDup stacks /\ incl stacks seen.

(** The aliases of a technology in the lexicon; none for a name that is not
    in the lexicon. *)
Definition keywordsOf (tech : string) : list string :=
  match find (fun entry => String.eqb (fst entry) tech) frameworkKeywords with
  | Some entry => snd entry
  | None => []
  end.

(** The number of repositories whose haystack holds an alias of [tech]. *)
Definition mentions (repos : list RepositoryWithLanguages) (tech : string) : Z :=
  Z.of_nat
    (List.length (filter (fun repo => someKeyword (keywordsOf tech) (searchText repo)) repos)).

(** A repository updated or created at or after the cutoff whose
    primary-language field is [lang]. *)
Definition recentLanguage (recentCutoff : Z) (repos : list RepositoryWithLanguages)
    (lang : string) : Prop :=
  exists repo,
    In repo repos /\ language repo = Some lang /\ lang <> EmptyString
    /\ (recentCutoff <= updated_at repo \/ recentCutoff <= created_at repo).

(** The number of entries of a lexicon table named [tech] whose aliases
    occur in [text]. *)
Definition tableHits (text tech : string) (table : list (string * list string)) : Z :=
  Z.of_nat
    (List.length
       (filter (fun entry => String.eqb (fst entry) tech && someKeyword (snd entry) text)
               table)).

(** The four bands of points that [determineExperienceLevel] adds up, and
    the level of a total. *)
Definition ageBand (accountAge : Q) : Z :=
  if Qle_bool 7 accountAge then 4
  else if Qle_bool 5 accountAge then 3
  else if Qle_bool 3 accountAge then 2
  else if Qle_bool 1 accountAge then 1
  else 0.

Definition projectBand (totalProjects : Z) : Z :=
  if totalProjects >=? 100 then 4
  else if totalProjects >=? 50 then 3
  else if totalProjects >=? 20 then 2
  else if totalProjects >=? 10 then 1
  else 0.

Definition activityBand (activeProjects : Z) : Z :=
  if activeProjects >=? 20 then 3
  else if activeProjects >=? 10 then 2
  else if activeProjects >=? 5 then 1
  else 0.

Definition starBand (avgStars : Q) : Z :=
  if Qle_bool 100 avgStars then 4
  else if Qle_bool 50 avgStars then 3
  else if Qle_bool 20 avgStars then 2
  else if Qle_bool 5 avgStars then 1
  else 0.

Definition levelOfScore (score : Z) : ExperienceLevel :=
  if score >=? 12 then Expert
  else if score >=? 9 then Advanced
  else if score >=? 6 then Intermediate
  else Beginner.

(** Rank of a level in the order Beginner < Intermediate < Advanced < Expert. *)
Definition levelRank (level : ExperienceLevel) : Z :=
  match level with Beginner => 0 | Intermediate => 1 | Advanced => 2 | Expert => 3 end.

(** The entry that [addHighlight] pushes for a repository. *)
Definition highlightOf (repo : RepositoryWithLanguages) (why : string) : RepositoryHighlight :=
  {| hl_name := name repo;
     hl_description := description repo;
     stars := stargazers_count repo;
     forks := forks_count repo;
     primaryLanguage := language repo;
     lastUpdated := updated_at repo;
     createdAt := created_at repo;
     hl_topics := topics repo;
     url := html_url repo;
     reason := why |}.

(** The distinct repository names, in order of first occurrence. *)
Definition distinctNames (repos : list RepositoryWithLanguages) : list string :=
  setFrom (map name repos).

(** What every state of the selector satisfies beyond [highlightInvariant]:
    each entry is the copy of a repository of the input. *)
Definition highlightsCopy (repos : list RepositoryWithLanguages) (st : HighlightState) : Prop :=
  Forall (fun h => exists repo, In repo repos /\ h = highlightOf repo (reason h))
         (hs_highlights st).

(** Rank of a cadence from the most to the least frequent. *)
Definition cadenceRank (c : ReleaseCadence) : Z :=
  match c with Weekly => 0 | Biweekly => 1 | Monthly => 2 | Quarterly => 3 | AdHoc => 4 end.

(** The hit counts of [evaluateQualitySignals]. *)
Definition testingHitsOf (repos : list RepositoryWithLanguages) : Z :=
  countWhere (fun repo => someKeyword testingKeys (searchText repo)) repos.

Definition automationHitsOf (repos : list RepositoryWithLanguages) : Z :=
  countWhere (fun repo => someKeyword automationKeys (searchText repo)) repos.

Definition documentationHitsOf (repos : list RepositoryWithLanguages) : Z :=
  countWhere (fun repo => longDescription repo
                          || someKeyword documentationKeys (searchText repo)) repos.

(** The titles that [buildTimeline] gives to its events. *)
Definition timelineTitle (repos : list RepositoryWithLanguages) (sa : SkillAnalysis)
    (t : string) : Prop :=
  t = "Joined GitHub"
  \/ (exists repo,
        In repo repos
        /\ (forall other, In other repos -> created_at repo <= created_at other)
        /\ t = "First repository • " ^^ name repo)
  \/ (exists lang, In lang (firstn 3 (topLanguages sa)) /\ t = tl_language lang ^^ " adoption")
  \/ t = "Latest launch".

(** The events of the feed that [parseContributionStats] looks at. *)
Definition isPullRequestEvent (e : GitHubEvent) : bool :=
  String.eqb (ev_type e) "PullRequestEvent".

Definition isIssuesEvent (e : GitHubEvent) : bool := String.eqb (ev_type e) "IssuesEvent".

(** The pull request that an event carries is merged; is open and not merged. *)
Definition carriesMerged (e : GitHubEvent) : bool :=
  match pull_request (payload e) with
  | Some pr => prp_merged pr
  | None => false
  end.

Definition carriesOpen (e : GitHubEvent) : bool :=
  match pull_request (payload e) with
  | Some pr => negb (prp_merged pr) && String.eqb (prp_state pr) "open"
  | None => false
  end.

(** The titles of the pull requests of the "opened" events that carry one,
    in the order of the feed. *)
Definition openedTitles (events : list GitHubEvent) : list string :=
  flat_map
    (fun e =>
       if isPullRequestEvent e && actionIs e "opened" then
         match pull_request (payload e) with
         | Some pr => [prp_title pr]
         | None => []
         end
       else [])
    events.

(** The byte map that [analyzeUser] keeps for one of the first fifteen
    repositories: the map fetched, or the empty one when the request failed. *)
Definition fetchedOrEmpty (fetchLanguages : Repository -> option (list (string * Z)))
    (repo : Repository) : list (string * Z) :=
  match fetchLanguages repo with
  | Some languages => languages
  | None => []
  end.

(** The primary language of a listed repository is [lang]. *)
Definition primaryLanguageIs (lang : string) (repo : Repository) : bool :=
  match repo_language repo with
  | Some l => negb (String.eqb l EmptyString) && String.eqb l lang
  | None => false
  end.

(** The string has no slash. *)
Fixpoint hasNoSlash (s : string) : bool :=
  match s with
  | EmptyString => true
  | String c s' => negb (Ascii.eqb c "/") && hasNoSlash s'
  end.

(** [q] is the quotient [num / den] rounded to the nearest integer, a half
    upwards, which is what [Math.round(num / den)] returns for [den > 0]. *)
Definition nearestInteger (num den q : Z) : Prop :=
  (2 * q - 1) * den <= 2 * num < (2 * q + 1) * den.

(** The "opened" pull-request events that carry a pull request, in feed
    order. *)
Definition openedPullRequests (events : list GitHubEvent) : list GitHubEvent :=
  filter (fun e =>
            isPullRequestEvent e && actionIs e "opened"
            && match pull_request (payload e) with Some _ => true | None => false end)
         events.

(** The entry of [recentPRs] describes the pull request that the event
    carries: short repository name, title, link, creation date, and the
    state merged, open or closed. *)
Definition describesPullRequest (e : GitHubEvent) (entry : RecentPR) : Prop :=
  exists pr,
    pull_request (payload e) = Some pr
    /\ pr_repo entry = repoShortName (ev_repo_name e)
    /\ pr_title entry = prp_title pr
    /\ pr_url entry = prp_html_url pr
    /\ pr_createdAt entry = prp_created_at pr
    /\ (pr_state entry = PRMerged <-> prp_merged pr = true)
    /\ (pr_state entry = PROpen <-> prp_merged pr = false /\ prp_state pr = "open")
    /\ (pr_state entry = PRClosed <-> prp_merged pr = false /\ prp_state pr <> "open").

(** A repository whose description has 39 characters, all of three bytes. *)
Definition repoKana : RepositoryWithLanguages :=
  mkRepo "kana" (Some "これは日本語で書かれたリポジトリの説明文です。とても便利なツールを提供します。")
         (Some "Ruby") 1 3 30 [] (Some [("Ruby", 100)]).

(** * Properties *)

(** ** Stable sort *)

Section StableSortFacts.
Context {A : Type} (before : A -> A -> bool).

Lemma insertSorted_perm (x : A) (l : list A) :
  Permutation (insertSorted before x l) (x :: l).
Proof.
  induction l as [|y l IH]; simpl.
  - apply Permutation_refl.
  - destruct (before x y).
    + apply Permutation_refl.
    + apply perm_trans with (y :: x :: l).
      * now apply perm_skip.
      * apply perm_swap.
Qed.

Lemma stableSort_perm (l : list A) : Permutation (stableSort before l) l.
Proof.
  induction l as [|x l IH]; simpl.
  - apply perm_nil.
  - apply perm_trans with (x :: stableSort before l).
    + apply insertSorted_perm.
    + now apply perm_skip.
Qed.

Lemma stableSort_In (l : list A) (x : A) : In x (stableSort before l) <-> In x l.
Proof.
  split; apply Permutation_in.
  - apply stableSort_perm.
  - apply Permutation_sym, stableSort_perm.
Qed.

Lemma stableSort_length (l : list A) : List.length (stableSort before l) = List.length l.
Proof. apply Permutation_length, stableSort_perm. Qed.

Lemma stableSort_nonempty (l : list A) : l <> [] -> stableSort before l <> [].
Proof.
  intros Hl Hs. apply Hl. apply length_zero_iff_nil.
  rewrite <- stableSort_length, Hs. reflexivity.
Qed.

(** Stability: elements that the comparator does not separate keep their
    relative order. *)
Lemma insertSorted_filter (p : A -> bool) (x : A) (l : list A) :
  (forall y, p x = true -> p y = true -> before x y = true) ->
  filter p (insertSorted before x l) = filter p (x :: l).
Proof.
  intros Htie. induction l as [|y l IH]; [reflexivity|].
  cbn [insertSorted]. destruct (before x y) eqn:Hxy; [reflexivity|].
  cbn [filter] in *. rewrite IH.
  destruct (p x) eqn:Hpx; [|reflexivity].
  destruct (p y) eqn:Hpy; [|reflexivity].
  rewrite (Htie y eq_refl Hpy) in Hxy. discriminate.
Qed.

Lemma stableSort_stable (p : A -> bool) (l : list A) :
  (forall x y, p x = true -> p y = true -> before x y = true) ->
  filter p (stableSort before l) = filter p l.
Proof.
  intros Htie. induction l as [|x l IH]; [reflexivity|].
  cbn [stableSort]. rewrite insertSorted_filter.
  - cbn [filter]. now rewrite IH.
  - intros y. apply Htie.
Qed.

Hypothesis before_total : forall x y, before x y = true \/ before y x = true.
Hypothesis before_trans :
  forall x y z, before x y = true -> before y z = true -> before x z = true.

Let ordered (x y : A) : Prop := before x y = true.

Lemma insertSorted_sorted (x : A) (l : list A) :
  StronglySorted ordered l -> StronglySorted ordered (insertSorted before x l).
Proof.
  induction 1 as [|y l Hs IH Hall]; simpl.
  - constructor; [constructor | constructor].
  - destruct (before x y) eqn:Hxy.
    + constructor.
      * now constructor.
      * constructor; [exact Hxy|].
        rewrite Forall_forall in Hall |- *. intros z Hz.
        apply before_trans with y; [exact Hxy | now apply Hall].
    + constructor; [exact IH|].
      rewrite Forall_forall in Hall |- *. intros z Hz.
      apply (Permutation_in _ (insertSorted_perm x l)) in Hz.
      destruct Hz as [<- | Hz]; [| now apply Hall].
      destruct (before_total x y) as [Habs | Hyx]; [congruence | exact Hyx].
Qed.

Lemma stableSort_sorted (l : list A) : StronglySorted ordered (stableSort before l).
Proof.
  induction l as [|x l IH]; simpl.
  - constructor.
  - now apply insertSorted_sorted.
Qed.

Lemma stableSort_head_first (l : list A) (h : A) (t : list A) :
  stableSort before l = h :: t -> forall x, In x l -> before h x = true.
Proof.
  intros Hs x Hx.
  pose proof (stableSort_sorted l) as Hsorted. rewrite Hs in Hsorted.
  apply stableSort_In in Hx. rewrite Hs in Hx.
  inversion Hsorted as [|? ? _ Hall]; subst.
  destruct Hx as [<- | Hx].
  - destruct (before_total h h); assumption.
  - rewrite Forall_forall in Hall. now apply Hall.
Qed.
End StableSortFacts.

(** ** The primitives on sample values *)

Example toLowerCase_folds_ascii : toLowerCase "Next.JS App" = "next.js app".
Proof. reflexivity. Qed.

Example includes_is_substring :
  includes "my-reactjs-app" "react" = true /\ includes "my-app" "react" = false
  /\ includes "digital" "git" = true.
Proof. repeat split. Qed.

Example jsLength_counts_code_units :
  jsLength "README" = 6%nat
  /\ jsLength "日本語" = 3%nat /\ String.length "日本語" = 9%nat
  /\ jsLength "😀" = 2%nat.
Proof. repeat split. Qed.

Example roundDiv_rounds_half_up :
  roundDiv 3 2 = 2 /\ roundDiv (-3) 2 = -1 /\ roundDiv 5 4 = 1 /\ roundDiv 7 4 = 2.
Proof. repeat split. Qed.

Example setFrom_keeps_first_occurrences :
  setFrom ["b"; "a"; "b"; "c"; "a"] = ["b"; "a"; "c"].
Proof. reflexivity. Qed.

Example stableSort_keeps_ties_in_order :
  stableSort (fun a b => snd b - snd a <=? 0) [("a", 1); ("b", 2); ("c", 1); ("d", 2)]
  = [("b", 2); ("d", 2); ("a", 1); ("c", 1)].
Proof. reflexivity. Qed.

Example median_of_even_and_odd_counts :
  median [10; 1; 4; 3] = 4 /\ median [5; 1; 9] = 5 /\ median [] = 0.
Proof. repeat split. Qed.

Example detectFullStacks_mern :
  detectFullStacks ["React"; "Node"; "MongoDB"] = ["MERN"; "Node.js + Express"].
Proof. reflexivity. Qed.

Example numberToString_decimal :
  numberToString 42 = "42" /\ numberToString 0 = "0" /\ numberToString (-7) = "-7".
Proof. repeat split. Qed.

(** ** Forecast engine *)

Lemma ruleJsTs_demand (ts : TechStack) (s : ForecastState) :
  fs_marketDemand (ruleJsTs ts s) = fs_marketDemand s.
Proof. unfold ruleJsTs. now destruct (_ || _). Qed.

Lemma rulePython_raises (ts : TechStack) (s : ForecastState) :
  demandRank (fs_marketDemand s) <= demandRank (fs_marketDemand (rulePython ts s)).
Proof.
  unfold rulePython. destruct (arrIncludes _ _); simpl; [|lia].
  destruct (fs_marketDemand s); simpl; lia.
Qed.

Lemma ruleContainers_raises (ts : TechStack) (s : ForecastState) :
  demandRank (fs_marketDemand s) <= demandRank (fs_marketDemand (ruleContainers ts s)).
Proof.
  unfold ruleContainers. destruct (_ || _); simpl; [|lia].
  destruct (fs_marketDemand s); simpl; lia.
Qed.

Lemma ruleFrontend_raises (ts : TechStack) (s : ForecastState) :
  demandRank (fs_marketDemand s) <= demandRank (fs_marketDemand (ruleFrontend ts s)).
Proof.
  unfold ruleFrontend. destruct (existsb _ _); simpl; [|lia].
  destruct (fs_marketDemand s); simpl; lia.
Qed.

(** The demand after the velocity rule is a lower bound of the returned one. *)
Lemma predictFuture_above_velocity (sa : SkillAnalysis) (q : QualitySignals)
    (a : ActivityMetrics) :
  demandRank (fs_marketDemand (ruleVelocity a q forecastInit))
  <= demandRank (marketDemand (predictFuture sa q a)).
Proof.
  unfold predictFuture; simpl.
  etransitivity; [|apply ruleFrontend_raises].
  etransitivity; [|apply ruleContainers_raises].
  etransitivity; [|apply rulePython_raises].
  rewrite ruleJsTs_demand. lia.
Qed.

Lemma ruleVelocity_floor (a : ActivityMetrics) (q : QualitySignals) :
  demandRank Medium <= demandRank (fs_marketDemand (ruleVelocity a q forecastInit)).
Proof.
  unfold ruleVelocity.
  destruct (_ || _); [simpl; lia|].
  destruct (_ >=? _); simpl; lia.
Qed.

(** C7: a velocity of 70 or more, or Advanced automation, gives Very High;
    a velocity of 50 or more gives at least High; and each rule that runs
    after the velocity rule returns a demand at least as high as the one it
    receives, whatever that one is. *)
Theorem predictFuture_demand_escalation (sa : SkillAnalysis) (q : QualitySignals)
    (a : ActivityMetrics) :
  (70 <= velocityScore a \/ automation q = AutomationAdvanced ->
   marketDemand (predictFuture sa q a) = VeryHigh)
  /\ (50 <= velocityScore a ->
      demandRank High <= demandRank (marketDemand (predictFuture sa q a)))
  /\ (forall ts s,
        demandRank (fs_marketDemand s) <= demandRank (fs_marketDemand (ruleJsTs ts s))
        /\ demandRank (fs_marketDemand s) <= demandRank (fs_marketDemand (rulePython ts s))
        /\ demandRank (fs_marketDemand s)
           <= demandRank (fs_marketDemand (ruleContainers ts s))
        /\ demandRank (fs_marketDemand s)
           <= demandRank (fs_marketDemand (ruleFrontend ts s))).
Proof.
  pose proof (predictFuture_above_velocity sa q a) as Hmono.
  split; [|split].
  - intros Hhigh.
    assert (Hv : fs_marketDemand (ruleVelocity a q forecastInit) = VeryHigh).
    { unfold ruleVelocity.
      destruct Hhigh as [Hv | Hq].
      - apply Z.geb_le in Hv. rewrite Hv. reflexivity.
      - rewrite Hq. rewrite orb_true_r. reflexivity. }
    rewrite Hv in Hmono.
    destruct (marketDemand (predictFuture sa q a)); simpl in Hmono; try lia; reflexivity.
  - intros Hv. etransitivity; [|exact Hmono].
    unfold ruleVelocity.
    destruct (_ || _); [simpl; lia|].
    apply Z.geb_le in Hv. rewrite Hv. simpl. lia.
  - intros ts s. rewrite ruleJsTs_demand.
    repeat split;
      [lia | apply rulePython_raises | apply ruleContainers_raises | apply ruleFrontend_raises].
Qed.

Lemma predictFuture_demand_escalation_witness :
  marketDemand
    (predictFuture (fst (fst (sampleForecastInput 80 AutomationNone)))
                   (snd (fst (sampleForecastInput 80 AutomationNone)))
                   (snd (sampleForecastInput 80 AutomationNone))) = VeryHigh
  /\ demandRank High
     <= demandRank
          (marketDemand
             (predictFuture (fst (fst (sampleForecastInput 55 AutomationBasic)))
                            (snd (fst (sampleForecastInput 55 AutomationBasic)))
                            (snd (sampleForecastInput 55 AutomationBasic)))).
Proof.
  split.
  - apply (predictFuture_demand_escalation
             (fst (fst (sampleForecastInput 80 AutomationNone)))
             (snd (fst (sampleForecastInput 80 AutomationNone)))
             (snd (sampleForecastInput 80 AutomationNone))).
    left. simpl. lia.
  - apply (predictFuture_demand_escalation
             (fst (fst (sampleForecastInput 55 AutomationBasic)))
             (snd (fst (sampleForecastInput 55 AutomationBasic)))
             (snd (sampleForecastInput 55 AutomationBasic))).
    simpl. lia.
Defined.

(** C10: the returned market demand is never Low. *)
Theorem predictFuture_never_low (sa : SkillAnalysis) (q : QualitySignals)
    (a : ActivityMetrics) :
  marketDemand (predictFuture sa q a) <> Low.
Proof.
  pose proof (predictFuture_above_velocity sa q a) as Hmono.
  pose proof (ruleVelocity_floor a q) as Hfloor.
  intros Hlow. rewrite Hlow in Hmono. simpl in Hmono, Hfloor. lia.
Qed.

Lemma predictFuture_never_low_witness :
  marketDemand
    (predictFuture (fst (fst (sampleForecastInput 0 AutomationNone)))
                   (snd (fst (sampleForecastInput 0 AutomationNone)))
                   (snd (sampleForecastInput 0 AutomationNone))) <> Low.
Proof.
  apply (predictFuture_never_low
           (fst (fst (sampleForecastInput 0 AutomationNone)))
           (snd (fst (sampleForecastInput 0 AutomationNone)))
           (snd (sampleForecastInput 0 AutomationNone))).
Defined.

(** ** Activity analyzer *)

Lemma byUpdateDesc_spec (a b : RepositoryWithLanguages) :
  byUpdateDesc a b = true <-> updated_at b <= updated_at a.
Proof. unfold byUpdateDesc. rewrite Z.leb_le. lia. Qed.

Lemma byUpdateDesc_total (a b : RepositoryWithLanguages) :
  byUpdateDesc a b = true \/ byUpdateDesc b a = true.
Proof. rewrite !byUpdateDesc_spec. lia. Qed.

Lemma byUpdateDesc_trans (a b c : RepositoryWithLanguages) :
  byUpdateDesc a b = true -> byUpdateDesc b c = true -> byUpdateDesc a c = true.
Proof. rewrite !byUpdateDesc_spec. lia. Qed.

Lemma calculateActivityMetrics_nonempty (repos : list RepositoryWithLanguages)
    (oracle : nat -> Z) (n : nat) :
  repos <> [] ->
  calculateActivityMetrics repos oracle n = (activityAt (oracle n) repos, S n).
Proof. destruct repos; [congruence | reflexivity]. Qed.

(** C3: on a non-empty list the velocity score lies in [5, 100]; on the
    empty list the default record is returned, without reading the clock. *)
Theorem calculateActivityMetrics_velocity_range (repos : list RepositoryWithLanguages)
    (oracle : nat -> Z) (n : nat) :
  (repos <> [] ->
   5 <= velocityScore (fst (calculateActivityMetrics repos oracle n)) <= 100)
  /\ calculateActivityMetrics [] oracle n =
     ({| recentPushes := 0; activeLast30Days := 0; activeLast90Days := 0;
         medianUpdateInterval := 90; longestQuietStreak := 0; velocityScore := 0 |}, n).
Proof.
  split; [|reflexivity].
  intros Hne. rewrite (calculateActivityMetrics_nonempty _ _ _ Hne).
  unfold activityAt; simpl. lia.
Qed.

Lemma calculateActivityMetrics_velocity_range_witness :
  5 <= velocityScore
         (fst (calculateActivityMetrics [repoShop; repoNotes] (fun _ => sampleNow) 0%nat))
    <= 100.
Proof.
  apply (calculateActivityMetrics_velocity_range [repoShop; repoNotes]).
  discriminate.
Defined.

Lemma roundDiv_nearest (num den : Z) : 0 < den -> nearestInteger num den (roundDiv num den).
Proof.
  intros Hden. unfold nearestInteger, roundDiv.
  pose proof (Z.div_mod (2 * num + den) (2 * den) ltac:(lia)) as Hdm.
  pose proof (Z.mod_pos_bound (2 * num + den) (2 * den) ltac:(lia)) as Hmod.
  nia.
Qed.

Lemma nearestInteger_unique (num den q : Z) :
  0 < den -> nearestInteger num den q -> q = roundDiv num den.
Proof.
  intros Hden [Hlow Hhigh].
  destruct (roundDiv_nearest num den Hden) as [Hlow' Hhigh'].
  set (r := roundDiv num den) in *. nia.
Qed.

Lemma diffDays_nearest (now date : Z) :
  nearestInteger (now - date) 86400000 (diffDays now date).
Proof.
  unfold diffDays. change dayMs with 86400000. apply roundDiv_nearest. lia.
Qed.

Lemma fold_max_bounds (l : list Z) (a : Z) :
  a <= fold_left Z.max l a /\ forall x, In x l -> x <= fold_left Z.max l a.
Proof.
  revert a. induction l as [|y l IH]; intros a; simpl.
  - split; [lia | tauto].
  - destruct (IH (Z.max a y)) as [Hge Hall]. split; [lia|].
    intros x [<- | Hx]; [lia | now apply Hall].
Qed.

Lemma fold_max_attained (l : list Z) (a : Z) :
  fold_left Z.max l a = a \/ In (fold_left Z.max l a) l.
Proof.
  revert a. induction l as [|y l IH]; intros a; simpl.
  - now left.
  - destruct (IH (Z.max a y)) as [Heq | Hin]; [|now right; right].
    rewrite Heq. destruct (Z.max_spec a y) as [[_ ->] | [_ ->]]; [right; now left | now left].
Qed.

Lemma mathMax_upper (args : list Z) (x : Z) : In x args -> x <= mathMax args.
Proof.
  destruct args as [|a rest]; simpl; [tauto|].
  destruct (fold_max_bounds rest a) as [Hge Hall].
  intros [<- | Hx]; [exact Hge | now apply Hall].
Qed.

Lemma mathMax_attained (args : list Z) : args <> [] -> In (mathMax args) args.
Proof.
  destruct args as [|a rest]; [congruence|]. intros _. simpl.
  destruct (fold_max_attained rest a) as [-> | Hin]; [now left | now right].
Qed.

(** *** The median is the middle order statistic *)

Lemma filter_length_perm {A} (f : A -> bool) (l l' : list A) :
  Permutation l l' -> List.length (filter f l) = List.length (filter f l').
Proof.
  induction 1 as [|x l l' _ IH|x y l|l l' l'' _ IH1 _ IH2]; simpl.
  - reflexivity.
  - destruct (f x); simpl; congruence.
  - destruct (f x), (f y); reflexivity.
  - congruence.
Qed.

Lemma orderStatistic_perm (l l' : list Z) (k : nat) (v : Z) :
  Permutation l l' -> orderStatistic l k v -> orderStatistic l' k v.
Proof.
  intros Hp (Hin & Hlt & Hle). repeat split.
  - now apply (Permutation_in _ Hp).
  - now rewrite <- (filter_length_perm _ _ _ Hp).
  - now rewrite <- (filter_length_perm _ _ _ Hp).
Qed.

Lemma filter_none {A} (f : A -> bool) (l : list A) :
  Forall (fun x => f x = false) l -> filter f l = [].
Proof. induction 1 as [|x l Hx _ IH]; simpl; [reflexivity | now rewrite Hx]. Qed.

Lemma filter_all {A} (f : A -> bool) (l : list A) :
  Forall (fun x => f x = true) l -> filter f l = l.
Proof. induction 1 as [|x l Hx _ IH]; simpl; [reflexivity | now rewrite Hx, IH]. Qed.

Lemma numericAsc_spec (a b : Z) : numericAsc a b = true <-> a <= b.
Proof. unfold numericAsc. rewrite Z.leb_le. lia. Qed.

Lemma ascending_split (s : list Z) :
  StronglySorted (fun x y => numericAsc x y = true) s ->
  forall k, (k < List.length s)%nat ->
    Forall (fun x => x <= nth k s 0) (firstn (S k) s)
    /\ Forall (fun x => nth k s 0 <= x) (skipn k s).
Proof.
  induction 1 as [|a s Hs IH Hall]; intros k Hk; simpl in Hk; [lia|].
  rewrite Forall_forall in Hall.
  destruct k as [|k].
  - split.
    + simpl. constructor; [lia | constructor].
    + simpl. constructor; [lia|].
      apply Forall_forall. intros x Hx. now apply numericAsc_spec, Hall.
  - assert (Hk' : (k < List.length s)%nat) by lia.
    destruct (IH k Hk') as [Hfirst Hskip]. split.
    + change (firstn (S (S k)) (a :: s)) with (a :: firstn (S k) s).
      change (nth (S k) (a :: s) 0) with (nth k s 0).
      constructor; [|exact Hfirst].
      apply numericAsc_spec, Hall. now apply nth_In.
    + exact Hskip.
Qed.

Lemma ascending_orderStatistic (s : list Z) (k : nat) :
  StronglySorted (fun x y => numericAsc x y = true) s ->
  (k < List.length s)%nat -> orderStatistic s k (nth k s 0).
Proof.
  intros Hs Hk. destruct (ascending_split s Hs k Hk) as [Hfirst Hskip].
  set (v := nth k s 0) in *. repeat split.
  - now apply nth_In.
  - rewrite <- (firstn_skipn k s) at 1. rewrite filter_app, length_app.
    rewrite (filter_none _ (skipn k s)).
    + simpl. rewrite Nat.add_0_r.
      etransitivity; [apply filter_length_le | apply firstn_le_length].
    + eapply Forall_impl; [|exact Hskip]. intros x Hx. apply Z.ltb_ge. exact Hx.
  - rewrite <- (firstn_skipn (S k) s) at 1. rewrite filter_app, length_app.
    rewrite (filter_all _ (firstn (S k) s)).
    + rewrite firstn_length_le by lia. lia.
    + eapply Forall_impl; [|exact Hfirst]. intros x Hx. apply Z.leb_le. exact Hx.
Qed.

Lemma mod2_even (n : nat) : (n mod 2 =? 0)%nat = Nat.even n.
Proof.
  destruct (Nat.even n) eqn:He.
  - apply Nat.even_spec in He. destruct He as [m ->].
    apply Nat.eqb_eq. rewrite Nat.mul_comm. apply Nat.Div0.mod_mul.
  - apply Nat.eqb_neq. intros Hmod.
    assert (Heven : Nat.even n = true).
    { apply Nat.even_spec. exists (n / 2)%nat.
      pose proof (Nat.div_mod_eq n 2). lia. }
    congruence.
Qed.

Lemma roundDiv_half (x : Z) : x <= 2 * roundDiv x 2 <= x + 1.
Proof. unfold roundDiv. Z.div_mod_to_equations. lia. Qed.

Lemma median_specMedian (values : list Z) :
  values <> [] -> specMedian values (median values).
Proof.
  intros Hne. unfold median, specMedian.
  destruct values as [|z vs] eqn:Hvalues; [congruence|]. rewrite <- Hvalues in *.
  set (sorted := stableSort numericAsc values).
  assert (Hperm : Permutation sorted values) by apply stableSort_perm.
  assert (Hlen : List.length sorted = List.length values) by apply stableSort_length.
  assert (Hsorted : StronglySorted (fun x y => numericAsc x y = true) sorted).
  { apply stableSort_sorted.
    - intros x y. rewrite !numericAsc_spec. lia.
    - intros x y w. rewrite !numericAsc_spec. lia. }
  assert (Hpos : (0 < List.length values)%nat).
  { rewrite Hvalues. simpl. lia. }
  rewrite Hlen, mod2_even. clearbody sorted.
  set (n := List.length values) in *.
  pose proof (Nat.div_mod_eq n 2) as Hdiv.
  pose proof (Nat.mod_upper_bound n 2 ltac:(lia)) as Hmod.
  destruct (Nat.even n) eqn:Heven; cbn [negb].
  - right. split; [reflexivity|].
    assert (Hmod0 : (n mod 2 = 0)%nat).
    { apply Nat.eqb_eq. rewrite mod2_even. exact Heven. }
    exists (nth (n / 2 - 1) sorted 0), (nth (n / 2) sorted 0).
    split; [|split].
    + apply (orderStatistic_perm sorted); [exact Hperm|].
      apply ascending_orderStatistic; [exact Hsorted | lia].
    + apply (orderStatistic_perm sorted); [exact Hperm|].
      apply ascending_orderStatistic; [exact Hsorted | lia].
    + apply roundDiv_half.
  - left. split.
    + rewrite <- Nat.negb_even, Heven. reflexivity.
    + apply (orderStatistic_perm sorted); [exact Hperm|].
      apply ascending_orderStatistic; [exact Hsorted | lia].
Qed.

Lemma updateIntervals_length (sorted : list RepositoryWithLanguages) :
  List.length (updateIntervals sorted) = (List.length sorted - 1)%nat.
Proof.
  induction sorted as [|a s IH]; [reflexivity|].
  destruct s as [|b s']; [reflexivity|].
  change (updateIntervals (a :: b :: s'))
    with (roundDiv (Z.abs (updated_at a - updated_at b)) dayMs :: updateIntervals (b :: s')).
  simpl List.length in *. lia.
Qed.

Lemma updateIntervals_nth (sorted : list RepositoryWithLanguages) (i : nat) :
  (i < List.length (updateIntervals sorted))%nat ->
  nth i (updateIntervals sorted) 0 =
  roundDiv (Z.abs (nth i (map updated_at sorted) 0 - nth (S i) (map updated_at sorted) 0))
           dayMs.
Proof.
  revert i. induction sorted as [|a s IH]; intros i Hi; [simpl in Hi; lia|].
  destruct s as [|b s']; [simpl in Hi; lia|].
  change (updateIntervals (a :: b :: s'))
    with (roundDiv (Z.abs (updated_at a - updated_at b)) dayMs :: updateIntervals (b :: s'))
    in *.
  destruct i as [|i]; [reflexivity|].
  simpl in Hi. apply Nat.succ_lt_mono in Hi.
  change (nth (S i) (_ :: updateIntervals (b :: s')) 0)
    with (nth i (updateIntervals (b :: s')) 0).
  rewrite (IH i Hi). reflexivity.
Qed.

Lemma StronglySorted_map {A B} (f : A -> B) (R : A -> A -> Prop) (R' : B -> B -> Prop)
    (l : list A) :
  (forall x y, R x y -> R' (f x) (f y)) ->
  StronglySorted R l -> StronglySorted R' (map f l).
Proof.
  intros Himp. induction 1 as [|a l _ IH Hall]; simpl; constructor; [exact IH|].
  rewrite Forall_forall in *. intros y Hy.
  apply in_map_iff in Hy. destruct Hy as (x & <- & Hx). now apply Himp, Hall.
Qed.

Lemma sortedByUpdate_descending (repos : list RepositoryWithLanguages) :
  StronglySorted (fun a b => b <= a) (map updated_at (stableSort byUpdateDesc repos)).
Proof.
  apply (StronglySorted_map updated_at (fun x y => byUpdateDesc x y = true)).
  - intros a b Hab. now apply byUpdateDesc_spec.
  - apply (stableSort_sorted byUpdateDesc byUpdateDesc_total byUpdateDesc_trans).
Qed.

Lemma descending_nth (stamps : list Z) (i : nat) :
  StronglySorted (fun a b => b <= a) stamps ->
  (S i < List.length stamps)%nat -> nth (S i) stamps 0 <= nth i stamps 0.
Proof.
  intros Hs. revert i. induction Hs as [|a l Hs IH Hall]; intros i Hi.
  - cbn [List.length] in Hi. lia.
  - destruct i as [|i].
    + cbn [nth]. rewrite Forall_forall in Hall. apply Hall. apply nth_In.
      cbn [List.length] in Hi. lia.
    + change (nth (S (S i)) (a :: l) 0) with (nth (S i) l 0).
      change (nth (S i) (a :: l) 0) with (nth i l 0).
      apply IH. cbn [List.length] in Hi. lia.
Qed.

(** The gaps are the rounded differences of consecutive update timestamps
    taken in descending order. *)
Lemma dayGaps_nearest (repos : list RepositoryWithLanguages) :
  let stamps := map updated_at (stableSort byUpdateDesc repos) in
  Permutation stamps (map updated_at repos)
  /\ StronglySorted (fun a b => b <= a) stamps
  /\ List.length (dayGaps repos) = (List.length repos - 1)%nat
  /\ (forall i, (i < List.length (dayGaps repos))%nat ->
        nearestInteger (nth i stamps 0 - nth (S i) stamps 0) 86400000
                       (nth i (dayGaps repos) 0)).
Proof.
  cbv zeta.
  assert (Hlen : List.length (dayGaps repos) = (List.length repos - 1)%nat).
  { unfold dayGaps. rewrite updateIntervals_length, stableSort_length. reflexivity. }
  split; [apply Permutation_map, stableSort_perm|].
  split; [apply sortedByUpdate_descending|].
  split; [exact Hlen|].
  intros i Hi. unfold dayGaps in *. rewrite (updateIntervals_nth _ i Hi).
  rewrite Z.abs_eq.
  - change dayMs with 86400000. apply roundDiv_nearest. lia.
  - pose proof (descending_nth _ i (sortedByUpdate_descending repos)) as Hdesc.
    rewrite length_map, stableSort_length in Hdesc. lia.
Qed.

(** C4, as the code has it: the quiet streak is the largest of the gaps and
    of the days since the update of the most recently updated repository;
    for a single repository it is that repository's days since update.  The
    days since an update are the milliseconds elapsed over 86400000, rounded
    to the nearest integer; the gaps are the N-1 differences of consecutive
    update timestamps in descending order, rounded in the same way. *)
Theorem longestQuietStreak_latest (repos : list RepositoryWithLanguages)
    (oracle : nat -> Z) (n : nat) :
  repos <> [] ->
  exists latest sinceLatest stamps,
    hd_error (stableSort byUpdateDesc repos) = Some latest
    /\ In latest repos
    /\ (forall r, In r repos -> updated_at r <= updated_at latest)
    /\ nearestInteger (oracle n - updated_at latest) 86400000 sinceLatest
    /\ Permutation stamps (map updated_at repos)
    /\ StronglySorted (fun a b => b <= a) stamps
    /\ List.length (dayGaps repos) = (List.length repos - 1)%nat
    /\ (forall i, (i < List.length (dayGaps repos))%nat ->
          nearestInteger (nth i stamps 0 - nth (S i) stamps 0) 86400000
                         (nth i (dayGaps repos) 0))
    /\ let streak := longestQuietStreak (fst (calculateActivityMetrics repos oracle n)) in
       sinceLatest <= streak
       /\ (forall gap, In gap (dayGaps repos) -> gap <= streak)
       /\ (streak = sinceLatest \/ In streak (dayGaps repos))
       /\ (forall r, repos = [r] ->
             nearestInteger (oracle n - updated_at r) 86400000 streak).
Proof.
  intros Hne. rewrite (calculateActivityMetrics_nonempty _ _ _ Hne).
  destruct (stableSort byUpdateDesc repos) as [|latest rest] eqn:Hsort.
  { exfalso. now apply (stableSort_nonempty byUpdateDesc repos Hne). }
  exists latest, (diffDays (oracle n) (updated_at latest)),
         (map updated_at (stableSort byUpdateDesc repos)).
  split; [reflexivity|]. split.
  { apply (stableSort_In byUpdateDesc). rewrite Hsort. now left. }
  split.
  { intros r Hr. apply byUpdateDesc_spec.
    apply (stableSort_head_first byUpdateDesc byUpdateDesc_total byUpdateDesc_trans
             repos latest rest Hsort r Hr). }
  split; [apply diffDays_nearest|].
  destruct (dayGaps_nearest repos) as (Hperm & Hdesc & Hlen & Hgap).
  split; [exact Hperm|]. split; [exact Hdesc|]. split; [exact Hlen|]. split; [exact Hgap|].
  unfold activityAt, dayGaps; simpl. rewrite Hsort.
  set (gaps := updateIntervals (latest :: rest)).
  set (since := diffDays (oracle n) (updated_at latest)).
  destruct gaps as [|g gaps'] eqn:Hgaps.
  - split; [lia|]. split; [intros gap []|]. split; [now left|].
    intros r Hr. subst repos. simpl in Hsort. injection Hsort as <- _.
    apply diffDays_nearest.
  - assert (Hne' : (g :: gaps') ++ [since] <> []) by discriminate.
    repeat split.
    + apply mathMax_upper. apply in_or_app. right. now left.
    + intros gap Hgap'. apply mathMax_upper. apply in_or_app. now left.
    + destruct (in_app_or _ _ _ (mathMax_attained _ Hne')) as [Hin | [Heq | []]].
      * now right.
      * left. congruence.
    + subst repos. simpl in Hsort. injection Hsort as <- <-.
      subst gaps. discriminate.
    + subst repos. simpl in Hsort. injection Hsort as <- <-.
      subst gaps. discriminate.
Qed.

Lemma longestQuietStreak_latest_witness :
  exists latest sinceLatest stamps,
    hd_error (stableSort byUpdateDesc [repoNotes; repoShop]) = Some latest
    /\ In latest [repoNotes; repoShop]
    /\ (forall r, In r [repoNotes; repoShop] -> updated_at r <= updated_at latest)
    /\ nearestInteger (sampleNow - updated_at latest) 86400000 sinceLatest
    /\ Permutation stamps (map updated_at [repoNotes; repoShop])
    /\ StronglySorted (fun a b => b <= a) stamps
    /\ List.length (dayGaps [repoNotes; repoShop]) = 1%nat
    /\ (forall i, (i < List.length (dayGaps [repoNotes; repoShop]))%nat ->
          nearestInteger (nth i stamps 0 - nth (S i) stamps 0) 86400000
                         (nth i (dayGaps [repoNotes; repoShop]) 0))
    /\ let streak :=
         longestQuietStreak
           (fst (calculateActivityMetrics [repoNotes; repoShop] (fun _ => sampleNow) 0%nat)) in
       sinceLatest <= streak
       /\ (forall gap, In gap (dayGaps [repoNotes; repoShop]) -> gap <= streak)
       /\ (streak = sinceLatest \/ In streak (dayGaps [repoNotes; repoShop]))
       /\ (forall r, [repoNotes; repoShop] = [r] ->
             nearestInteger (sampleNow - updated_at r) 86400000 streak).
Proof.
  apply (longestQuietStreak_latest [repoNotes; repoShop] (fun _ => sampleNow) 0%nat).
  discriminate.
Defined.

(** C4, as the specification words it, fails: with updates 10 and 100 days
    ago the code returns 90, the largest of the gap 90 and of the 10 days of
    the latest repository, where the oldest repository's 100 days would
    give 100. *)
Lemma longestQuietStreak_oldest_counterexample :
  longestQuietStreak
    (fst (calculateActivityMetrics [repoShop; repoNotes] (fun _ => sampleNow) 0%nat)) = 90
  /\ specLongestQuietStreak sampleNow [repoShop; repoNotes] = 100
  /\ longestQuietStreak
       (fst (calculateActivityMetrics [repoShop; repoNotes] (fun _ => sampleNow) 0%nat))
     <> specLongestQuietStreak sampleNow [repoShop; repoNotes].
Proof. vm_compute. repeat split; congruence. Qed.

(** Two repositories updated 10 and 100 days before [now], in either order. *)
Lemma two_repositories_10_100 (now : Z) (r1 r2 : RepositoryWithLanguages) :
  updated_at r1 = now - 10 * dayMs -> updated_at r2 = now - 100 * dayMs ->
  forall repos, repos = [r1; r2] \/ repos = [r2; r1] ->
    medianUpdateInterval (activityAt now repos) = 90
    /\ longestQuietStreak (activityAt now repos) = 90.
Proof.
  intros H1 H2 repos Hrepos.
  assert (Hsort : stableSort byUpdateDesc repos = [r1; r2]).
  { destruct Hrepos as [-> | ->]; simpl; unfold byUpdateDesc; rewrite H1, H2.
    - replace (now - 100 * dayMs - (now - 10 * dayMs) <=? 0) with true; [reflexivity|].
      symmetry. apply Z.leb_le. unfold dayMs. lia.
    - replace (now - 10 * dayMs - (now - 100 * dayMs) <=? 0) with false; [reflexivity|].
      symmetry. apply Z.leb_gt. unfold dayMs. lia. }
  unfold activityAt. rewrite Hsort. simpl updateIntervals. cbv zeta.
  unfold diffDays. rewrite H1, H2.
  replace (now - 10 * dayMs - (now - 100 * dayMs)) with (90 * dayMs) by lia.
  replace (now - (now - 10 * dayMs)) with (10 * dayMs) by lia.
  split; reflexivity.
Qed.

(** C5: the gaps are the N-1 rounded day differences of consecutive update
    timestamps taken in descending order; with at least one gap the median
    interval is their median (middle value of an odd count, rounded average
    of the two middle values of an even count); a single repository gives
    its days since update, the milliseconds elapsed since the update over
    86400000 rounded to the nearest integer; updates 10 and 100 days before
    now give a median interval of 90 and a quiet streak of 90. *)
Theorem medianUpdateInterval_is_median (repos : list RepositoryWithLanguages)
    (oracle : nat -> Z) (n : nat) :
  repos <> [] ->
  let metrics := fst (calculateActivityMetrics repos oracle n) in
  let now := oracle n in
  (exists stamps,
      Permutation stamps (map updated_at repos)
      /\ StronglySorted (fun a b => b <= a) stamps
      /\ List.length (dayGaps repos) = (List.length repos - 1)%nat
      /\ forall i, (i < List.length (dayGaps repos))%nat ->
           nth i (dayGaps repos) 0 =
           roundDiv (Z.abs (nth i stamps 0 - nth (S i) stamps 0)) dayMs
           /\ nearestInteger (nth i stamps 0 - nth (S i) stamps 0) 86400000
                             (nth i (dayGaps repos) 0))
  /\ (dayGaps repos <> [] -> specMedian (dayGaps repos) (medianUpdateInterval metrics))
  /\ (forall r, repos = [r] ->
        nearestInteger (now - updated_at r) 86400000 (medianUpdateInterval metrics))
  /\ (forall r1 r2,
        updated_at r1 = now - 10 * dayMs -> updated_at r2 = now - 100 * dayMs ->
        repos = [r1; r2] \/ repos = [r2; r1] ->
        medianUpdateInterval metrics = 90 /\ longestQuietStreak metrics = 90).
Proof.
  intros Hne. rewrite (calculateActivityMetrics_nonempty _ _ _ Hne). cbv zeta.
  change (fst (activityAt (oracle n) repos, S n)) with (activityAt (oracle n) repos).
  split; [|split; [|split]].
  - exists (map updated_at (stableSort byUpdateDesc repos)).
    split; [apply Permutation_map, stableSort_perm|].
    split; [apply sortedByUpdate_descending|].
    split.
    + unfold dayGaps. rewrite updateIntervals_length, stableSort_length. reflexivity.
    + intros i Hi. split; [now apply updateIntervals_nth|].
      now apply (dayGaps_nearest repos).
  - intros Hgaps. unfold activityAt, dayGaps in *; simpl.
    destruct (updateIntervals (stableSort byUpdateDesc repos)) as [|g gaps] eqn:Hg;
      [congruence|].
    apply median_specMedian. discriminate.
  - intros r ->. apply diffDays_nearest.
  - intros r1 r2 H1 H2 Hrepos.
    exact (two_repositories_10_100 (oracle n) r1 r2 H1 H2 repos Hrepos).
Qed.

Lemma medianUpdateInterval_is_median_witness :
  let metrics :=
    fst (calculateActivityMetrics [repoNotes; repoShop] (fun _ => sampleNow) 0%nat) in
  specMedian (dayGaps [repoNotes; repoShop]) (medianUpdateInterval metrics)
  /\ medianUpdateInterval metrics = 90 /\ longestQuietStreak metrics = 90.
Proof.
  pose proof (medianUpdateInterval_is_median [repoNotes; repoShop] (fun _ => sampleNow) 0%nat
                ltac:(discriminate)) as (_ & Hmedian & _ & Hscenario).
  split.
  - apply Hmedian. vm_compute. discriminate.
  - apply (Hscenario repoShop repoNotes); [reflexivity | reflexivity | now right].
Defined.

(** ** Highlight selector *)

Lemma setHas_true (s : list string) (x : string) : setHas s x = true <-> In x s.
Proof.
  unfold setHas. split.
  - apply set_mem_correct1.
  - apply set_mem_correct2.
Qed.

Lemma setHas_false (s : list string) (x : string) : setHas s x = false <-> ~ In x s.
Proof.
  rewrite <- setHas_true. destruct (setHas s x); split; congruence.
Qed.

Lemma setAdd_In (s : list string) (x y : string) : In y (setAdd s x) <-> y = x \/ In y s.
Proof. unfold setAdd. apply set_add_iff. Qed.

Lemma addHighlight_invariant (repos : list RepositoryWithLanguages)
    (candidate : option RepositoryWithLanguages) (why : string) (st : HighlightState) :
  (forall r, candidate = Some r -> In r repos) ->
  highlightInvariant repos st -> highlightInvariant repos (addHighlight candidate why st).
Proof.
  intros Hcand Hinv.
  destruct candidate as [repo|]; simpl; [|exact Hinv].
  destruct (setHas (hs_seen st) (name repo)) eqn:Hhas; [exact Hinv|].
  destruct Hinv as (Hnodup & Hseen & Hincl).
  apply setHas_false in Hhas.
  unfold highlightInvariant; simpl. rewrite map_app; simpl. split; [|split].
  - apply NoDup_app; [exact Hnodup | constructor; [intros [] | constructor] |].
    intros x Hx [<- | []]. apply Hhas. now apply Hseen.
  - intros x. rewrite setAdd_In, in_app_iff, Hseen. simpl. intuition congruence.
  - intros x Hx. apply in_app_or in Hx. destruct Hx as [Hx | [<- | []]].
    + now apply Hincl.
    + apply in_map. now apply Hcand.
Qed.

Lemma addHighlight_length (candidate : option RepositoryWithLanguages) (why : string)
    (st : HighlightState) :
  (List.length (hs_highlights (addHighlight candidate why st))
   <= S (List.length (hs_highlights st)))%nat.
Proof.
  destruct candidate as [repo|]; simpl; [|lia].
  destruct (setHas _ _); simpl; [lia|]. rewrite length_app. simpl. lia.
Qed.

Lemma popularLoop_invariant (repos : list RepositoryWithLanguages) (limit : nat)
    (rest : list RepositoryWithLanguages) (st : HighlightState) :
  incl rest repos ->
  highlightInvariant repos st -> highlightInvariant repos (popularLoop limit rest st).
Proof.
  revert st.
  induction rest as [|repo rest IH]; intros st Hincl Hinv; cbn [popularLoop]; [exact Hinv|].
  destruct (_ <? _)%nat; [|exact Hinv].
  apply IH.
  - intros x Hx. apply Hincl. now right.
  - apply addHighlight_invariant; [|exact Hinv].
    intros r [= <-]. apply Hincl. now left.
Qed.

Lemma popularLoop_length (limit : nat) (rest : list RepositoryWithLanguages)
    (st : HighlightState) :
  (List.length (hs_highlights (popularLoop limit rest st))
   <= Nat.max limit (List.length (hs_highlights st)))%nat.
Proof.
  revert st. induction rest as [|repo rest IH]; intros st; cbn [popularLoop]; [lia|].
  destruct (_ <? _)%nat eqn:Hlt; [|lia].
  apply Nat.ltb_lt in Hlt.
  etransitivity; [apply IH|].
  pose proof (addHighlight_length (Some repo) "Popular" st). lia.
Qed.

Lemma hd_error_In {A} (l : list A) (x : A) : hd_error l = Some x -> In x l.
Proof. destruct l; simpl; [discriminate | intros [= ->]; now left]. Qed.

(** The state from which the selector returns its list. *)
Lemma extractRepositoryHighlights_state (repos : list RepositoryWithLanguages)
    (priorityLanguages : list string) :
  repos <> [] ->
  exists st,
    extractRepositoryHighlights repos priorityLanguages = hs_highlights st
    /\ highlightInvariant repos st
    /\ (List.length (hs_highlights st) <= 3)%nat.
Proof.
  intros Hne. unfold extractRepositoryHighlights.
  destruct repos as [|r0 repos0] eqn:Hrepos; [congruence|]. rewrite <- Hrepos. cbv zeta.
  set (byStars := stableSort byStarsDesc repos).
  set (byRecency := stableSort byUpdateDesc repos).
  set (st0 := {| hs_highlights := []; hs_seen := [] |}).
  set (c1 := hd_error byStars).
  set (c2 := match arrFind _ byRecency with Some repo => Some repo | None => _ end).
  set (c3 := arrFind _ byStars).
  set (st1 := addHighlight c1 "Top starred" st0).
  set (st2 := addHighlight c2 "Recent" st1).
  set (st3 := addHighlight c3 "Core stack" st2).
  exists (popularLoop (Nat.min 3 (List.length repos)) byStars st3).
  split; [reflexivity|]. split.
  - apply popularLoop_invariant.
    { intros x Hx. now apply stableSort_In in Hx. }
    apply addHighlight_invariant.
    { intros r Hr. apply find_some in Hr. now apply (stableSort_In byStarsDesc), Hr. }
    apply addHighlight_invariant.
    { intros r Hr. subst c2. destruct (arrFind _ byRecency) eqn:Hfind.
      - injection Hr as <-. apply find_some in Hfind.
        now apply (stableSort_In byUpdateDesc), Hfind.
      - apply hd_error_In in Hr. now apply stableSort_In in Hr. }
    apply addHighlight_invariant.
    { intros r Hr. apply hd_error_In in Hr. now apply stableSort_In in Hr. }
    split; [constructor | split; [intros x; simpl; tauto | intros x []]].
  - etransitivity; [apply popularLoop_length|].
    pose proof (addHighlight_length c1 "Top starred" st0) as H1.
    pose proof (addHighlight_length c2 "Recent" st1) as H2.
    pose proof (addHighlight_length c3 "Core stack" st2) as H3.
    fold st1 in H1, H2. fold st2 in H2, H3. fold st3 in H3.
    simpl in H1. lia.
Qed.

(** C8: the highlight names are pairwise distinct, there are at most
    min(3, number of repositories) entries, and none for no repository. *)
Theorem extractRepositoryHighlights_unique_bounded (repos : list RepositoryWithLanguages)
    (priorityLanguages : list string) :
  NoDup (map hl_name (extractRepositoryHighlights repos priorityLanguages))
  /\ (List.length (extractRepositoryHighlights repos priorityLanguages)
      <= Nat.min 3 (List.length repos))%nat
  /\ extractRepositoryHighlights [] priorityLanguages = [].
Proof.
  destruct repos as [|r0 repos0] eqn:Hrepos.
  { repeat split; simpl; [constructor | lia]. }
  rewrite <- Hrepos.
  destruct (extractRepositoryHighlights_state repos priorityLanguages)
    as (st & -> & (Hnodup & _ & Hincl) & Hlen); [subst; discriminate|].
  split; [exact Hnodup|]. split; [|reflexivity].
  apply Nat.min_glb; [exact Hlen|].
  rewrite <- (length_map hl_name), <- (length_map name repos).
  now apply NoDup_incl_length.
Qed.

Lemma extractRepositoryHighlights_unique_bounded_witness :
  NoDup (map hl_name (extractRepositoryHighlights [repoShop; repoNotes] ["Python"]))
  /\ (List.length (extractRepositoryHighlights [repoShop; repoNotes] ["Python"])
      <= Nat.min 3 (List.length [repoShop; repoNotes]))%nat.
Proof.
  split; apply (extractRepositoryHighlights_unique_bounded [repoShop; repoNotes] ["Python"]).
Defined.

(** ** Skill aggregator: language distribution *)

Lemma analyzeSkills_run {cal : Calendar} (u : GitHubUser)
    (repos : list RepositoryWithLanguages) (oracle : nat -> Z) (n : nat) :
  exists level active age n',
    analyzeSkills u repos oracle n =
    ({| techStack := techStackOf repos;
        topLanguages := topLanguagesOf (languageTotals (scanRepos repos));
        experienceLevel := level;
        totalProjects := Z.of_nat (List.length repos);
        activeProjects := active;
        accountAge := age;
        stackDepth :=
          deriveStackDepthAt (monthsBefore 12 (oracle n)) (techStackOf repos) repos |}, n').
Proof.
  cbv beta iota zeta
      delta [analyzeSkills deriveStackDepth calculateAccountAge bind newDate ret].
  match goal with
  | |- context [filterClock ?p ?l ?o ?m] => destruct (filterClock p l o m) as [active n']
  end.
  eexists _, _, _, _. reflexivity.
Qed.

Lemma sumPercentages_perm (l l' : list TopLanguage) :
  Permutation l l' -> (sumPercentages l == sumPercentages l')%Q.
Proof.
  induction 1 as [|x l l' _ IH|x y l|l l' l'' _ IH1 _ IH2]; simpl.
  - reflexivity.
  - now rewrite IH.
  - ring.
  - now rewrite IH1.
Qed.

Lemma fold_add_shift (l : list Z) (a : Z) :
  fold_left (fun x y => x + y) l a = a + fold_left (fun x y => x + y) l 0.
Proof.
  revert a. induction l as [|b l IH]; intros a; simpl; [lia|].
  rewrite (IH (a + b)), (IH b). lia.
Qed.

(** The shares of a distribution over a total [t] add up to the share of
    the sum of the byte counts. *)
Lemma sumPercentages_shares (totals : list (string * Z)) (t : Q) :
  (sumPercentages
     (map (fun '(lang, bytes) =>
             {| tl_language := lang; percentage := (inject_Z bytes / t) * 100 |}) totals)
   == (inject_Z (totalBytesOf totals) / t) * 100)%Q.
Proof.
  unfold totalBytesOf.
  induction totals as [|[lang bytes] totals IH]; simpl.
  - unfold Qdiv. ring.
  - rewrite IH. rewrite (fold_add_shift _ bytes). rewrite inject_Z_plus.
    unfold Qdiv. ring.
Qed.

Lemma rankedLanguages_sum (totals : list (string * Z)) :
  0 < totalBytesOf totals -> (sumPercentages (rankedLanguages totals) == 100)%Q.
Proof.
  intros Hpos. unfold rankedLanguages.
  rewrite (sumPercentages_perm _ _ (stableSort_perm byPercentageDesc _)).
  rewrite sumPercentages_shares.
  field. intros Hzero.
  apply (inject_Z_injective (totalBytesOf totals) 0) in Hzero. lia.
Qed.

Lemma scanFrameworks_languageTotals (text : string) (s : SkillScan) :
  languageTotals (scanFrameworks text s) = languageTotals s.
Proof.
  unfold scanFrameworks. generalize frameworkKeywords. intros table. revert s.
  induction table as [|[framework keywords] table IH]; intros s; simpl; [reflexivity|].
  rewrite IH. now destruct (someKeyword keywords text).
Qed.

Lemma scanTools_languageTotals (text : string) (s : SkillScan) :
  languageTotals (scanTools text s) = languageTotals s.
Proof.
  unfold scanTools.
  repeat match goal with
         | |- context [if ?b then _ else _] => destruct b
         end; reflexivity.
Qed.

Lemma scanRepos_languageTotals (repos : list RepositoryWithLanguages) (s : SkillScan) :
  languageTotals (fold_left scanRepo repos s) =
  fold_left (fun totals repo => scanLanguages repo totals) repos (languageTotals s).
Proof.
  revert s. induction repos as [|repo repos IH]; intros s; simpl; [reflexivity|].
  rewrite IH. unfold scanRepo.
  now rewrite scanTools_languageTotals, scanFrameworks_languageTotals.
Qed.

Lemma addBytes_keys (totals : list (string * Z)) (lang : string) (bytes : Z) :
  map fst (addBytes totals lang bytes) = setAdd (map fst totals) lang.
Proof.
  induction totals as [|[k v] totals IH]; simpl; [reflexivity|].
  destruct (string_dec lang k) as [-> | Hneq].
  - now rewrite String.eqb_refl.
  - destruct (String.eqb k lang) eqn:Heq.
    + apply String.eqb_eq in Heq. congruence.
    + simpl. now rewrite IH.
Qed.

Lemma scanLanguages_keys (repo : RepositoryWithLanguages) (totals : list (string * Z)) :
  map fst (scanLanguages repo totals) = fold_left setAdd (languageKeys repo) (map fst totals).
Proof.
  unfold scanLanguages, languageKeys.
  destruct (languageStats repo) as [stats|]; [|reflexivity].
  revert totals. induction stats as [|[lang bytes] stats IH]; intros totals; simpl;
    [reflexivity|].
  now rewrite IH, addBytes_keys.
Qed.

Lemma languageTotals_keys (repos : list RepositoryWithLanguages) :
  map fst (languageTotals (scanRepos repos)) = distinctLanguages repos.
Proof.
  unfold scanRepos, distinctLanguages, setFrom. rewrite scanRepos_languageTotals. simpl.
  change (@nil string) with (map fst (@nil (string * Z))).
  generalize (@nil (string * Z)) as totals.
  induction repos as [|repo repos IH]; intros totals; simpl; [reflexivity|].
  now rewrite fold_left_app, IH, scanLanguages_keys.
Qed.

(** ** Skill aggregator: stack depth *)

Lemma emergingFrameworks_outside (coreSet supportingSet recent acc : list string) :
  (forall x, In x acc -> ~ In x coreSet /\ ~ In x supportingSet) ->
  forall x,
    In x (fold_left
            (fun acc framework =>
               if negb (setHas coreSet framework) && negb (setHas supportingSet framework)
               then setAdd acc framework else acc)
            recent acc) ->
    ~ In x coreSet /\ ~ In x supportingSet.
Proof.
  revert acc. induction recent as [|framework recent IH]; intros acc Hacc x; simpl.
  - apply Hacc.
  - apply IH. intros y Hy.
    destruct (setHas coreSet framework) eqn:Hc; simpl in Hy; [now apply Hacc|].
    destruct (setHas supportingSet framework) eqn:Hs; simpl in Hy; [now apply Hacc|].
    apply setAdd_In in Hy. destruct Hy as [-> | Hy]; [|now apply Hacc].
    split; now apply setHas_false.
Qed.

Lemma emergingLanguages_outside (recentCutoff : Z) (coreSet supportingSet : list string)
    (repos : list RepositoryWithLanguages) (acc : list string) :
  (forall x, In x acc -> ~ In x coreSet /\ ~ In x supportingSet) ->
  forall x, In x (emergingLanguages recentCutoff coreSet supportingSet repos acc) ->
            ~ In x coreSet /\ ~ In x supportingSet.
Proof.
  unfold emergingLanguages.
  revert acc. induction repos as [|repo repos IH]; intros acc Hacc x; simpl.
  - apply Hacc.
  - apply IH. intros y Hy.
    destruct (language repo) as [lang|]; [|now apply Hacc].
    destruct (negb _ || String.eqb lang EmptyString); [now apply Hacc|].
    destruct (setHas coreSet lang) eqn:Hc; simpl in Hy; [now apply Hacc|].
    destruct (setHas supportingSet lang) eqn:Hs; simpl in Hy; [now apply Hacc|].
    apply setAdd_In in Hy. destruct Hy as [-> | Hy]; [|now apply Hacc].
    split; now apply setHas_false.
Qed.

(** The three tiers are pairwise disjoint for every tech stack and cutoff. *)
Lemma deriveStackDepthAt_disjoint (recentCutoff : Z) (ts : TechStack)
    (repos : list RepositoryWithLanguages) :
  let depth := deriveStackDepthAt recentCutoff ts repos in
  disjointNames (core depth) (supporting depth)
  /\ disjointNames (core depth) (emerging depth)
  /\ disjointNames (supporting depth) (emerging depth).
Proof.
  unfold deriveStackDepthAt.
  destruct (promoteFrameworks _ _) as [coreSet supportingSet0].
  set (supportingSet :=
         fold_left (fun acc tool => supportsIfAbsent tool coreSet acc) (tools ts)
           (fold_left (fun acc item => supportsIfAbsent item coreSet acc) (secondary ts)
              supportingSet0)).
  cbv zeta. cbn [core supporting emerging].
  assert (Hout : forall x,
             In x (emergingLanguages recentCutoff coreSet supportingSet repos
                     (fold_left
                        (fun acc framework =>
                           if negb (setHas coreSet framework)
                              && negb (setHas supportingSet framework)
                           then setAdd acc framework else acc)
                        (recentFrameworks (scanUsage recentCutoff repos)) [])) ->
             ~ In x coreSet /\ ~ In x supportingSet).
  { apply emergingLanguages_outside. apply emergingFrameworks_outside. intros x []. }
  split; [|split].
  - intros x Hcore Hsupp. apply filter_In in Hsupp. destruct Hsupp as [_ Hnot].
    apply negb_true_iff, setHas_false in Hnot. contradiction.
  - intros x Hcore Hem. apply Hout in Hem. tauto.
  - intros x Hsupp Hem. apply filter_In in Hsupp. apply Hout in Hem. tauto.
Qed.

(** C2: the core, supporting and emerging arrays of the returned analysis
    are pairwise disjoint as sets of names. *)
Theorem stackDepth_pairwise_disjoint {cal : Calendar} (u : GitHubUser)
    (repos : list RepositoryWithLanguages) (oracle : nat -> Z) (n : nat) :
  let depth := stackDepth (fst (analyzeSkills u repos oracle n)) in
  disjointNames (core depth) (supporting depth)
  /\ disjointNames (core depth) (emerging depth)
  /\ disjointNames (supporting depth) (emerging depth).
Proof.
  destruct (analyzeSkills_run u repos oracle n) as (level & active & age & n' & ->).
  cbn [fst stackDepth]. apply deriveStackDepthAt_disjoint.
Qed.

Lemma stackDepth_pairwise_disjoint_witness :
  let depth :=
    stackDepth (fst (analyzeSkills (cal := sampleCalendar) sampleUser [repoShop; repoNotes]
                       (fun _ => sampleNow) 0%nat)) in
  disjointNames (core depth) (supporting depth)
  /\ disjointNames (core depth) (emerging depth)
  /\ disjointNames (supporting depth) (emerging depth).
Proof.
  apply (stackDepth_pairwise_disjoint (cal := sampleCalendar) sampleUser [repoShop; repoNotes]
           (fun _ => sampleNow) 0%nat).
Defined.

(** ** Skill aggregator: the detected-technology set *)

Lemma scanFrameworks_detectedTech (text : string) (s : SkillScan) (x : string) :
  In x (detectedTech (scanFrameworks text s)) <->
  In x (detectedTech s)
  \/ exists keywords, In (x, keywords) frameworkKeywords /\ someKeyword keywords text = true.
Proof.
  unfold scanFrameworks. generalize frameworkKeywords. intros table. revert s.
  induction table as [|[framework keywords] table IH]; intros s; simpl.
  - split; [now left | intros [H | (k & [] & _)]; exact H].
  - rewrite IH. destruct (someKeyword keywords text) eqn:Hmatch; simpl.
    + rewrite setAdd_In. split.
      * intros [[-> | Hin] | (k & Hk & Hm)].
        -- right. exists keywords. split; [now left | exact Hmatch].
        -- now left.
        -- right. exists k. split; [now right | exact Hm].
      * intros [Hin | (k & [Heq | Hk] & Hm)].
        -- left. now right.
        -- injection Heq as -> ->. left. now left.
        -- right. now exists k.
    + split.
      * intros [Hin | (k & Hk & Hm)]; [now left|].
        right. exists k. split; [now right | exact Hm].
      * intros [Hin | (k & [Heq | Hk] & Hm)]; [now left | | right; now exists k].
        injection Heq as -> ->. congruence.
Qed.

Lemma addTool_detectedTech (b : bool) (tool : string) (feeds : bool) (s : SkillScan)
    (x : string) :
  In x (detectedTech (if b then addTool tool feeds s else s)) <->
  In x (detectedTech s) \/ (b = true /\ feeds = true /\ x = tool).
Proof.
  destruct b, feeds; simpl; rewrite ?setAdd_In; intuition congruence.
Qed.

Lemma scanTools_detectedTech (text : string) (s : SkillScan) (x : string) :
  In x (detectedTech (scanTools text s)) <->
  In x (detectedTech s)
  \/ (x = "Docker" /\ includes text "docker" = true)
  \/ (x = "Kubernetes" /\ (includes text "kubernetes" || includes text "k8s") = true)
  \/ (x = "Terraform" /\ includes text "terraform" = true).
Proof.
  unfold scanTools. cbv zeta. rewrite !addTool_detectedTech. intuition congruence.
Qed.

Lemma scanRepo_detectedTech (s : SkillScan) (repo : RepositoryWithLanguages) (x : string) :
  In x (detectedTech (scanRepo s repo)) <-> In x (detectedTech s) \/ repoDetects repo x.
Proof.
  unfold scanRepo, repoDetects. cbv zeta.
  rewrite scanTools_detectedTech, scanFrameworks_detectedTech. simpl. tauto.
Qed.

Lemma scanRepos_detectedTech (repos : list RepositoryWithLanguages) (s : SkillScan)
    (x : string) :
  In x (detectedTech (fold_left scanRepo repos s)) <->
  In x (detectedTech s) \/ exists repo, In repo repos /\ repoDetects repo x.
Proof.
  revert s. induction repos as [|repo repos IH]; intros s; simpl.
  - split; [now left | intros [H | (r & [] & _)]; exact H].
  - rewrite IH, scanRepo_detectedTech. split.
    + intros [[Hin | Hd] | (r & Hr & Hd)].
      * now left.
      * right. exists repo. split; [now left | exact Hd].
      * right. exists r. split; [now right | exact Hd].
    + intros [Hin | (r & [<- | Hr] & Hd)].
      * left. now left.
      * left. now right.
      * right. now exists r.
Qed.

Lemma detected_split (repos : list RepositoryWithLanguages) (x : string) :
  (exists repo, In repo repos /\ repoDetects repo x) <->
  frameworkDetected repos x \/ toolDetected repos x.
Proof.
  unfold repoDetects, frameworkDetected, toolDetected. split.
  - intros (repo & Hin & [(k & Hk & Hm) | Htool]).
    + left. now exists repo, k.
    + right. now exists repo.
  - intros [(repo & k & Hin & Hk & Hm) | (repo & Hin & Htool)].
    + exists repo. split; [exact Hin|]. left. now exists k.
    + exists repo. split; [exact Hin|]. now right.
Qed.

Lemma addLanguages_In (langs : list TopLanguage) (detected : list string) (x : string) :
  In x (fold_left (fun d lang => setAdd d (tl_language lang)) langs detected) <->
  In x detected \/ In x (map tl_language langs).
Proof.
  revert detected. induction langs as [|lang langs IH]; intros detected; simpl.
  - tauto.
  - rewrite IH, setAdd_In. intuition congruence.
Qed.

Lemma detectedTechOf_In (repos : list RepositoryWithLanguages) (x : string) :
  In x (detectedTechOf repos) <->
  frameworkDetected repos x \/ toolDetected repos x \/ In x (leadingLanguages repos).
Proof.
  unfold detectedTechOf, leadingLanguages, topLanguagesOf, sliceTo. cbv zeta.
  rewrite addLanguages_In, firstn_firstn. simpl Nat.min.
  unfold scanRepos. rewrite scanRepos_detectedTech, detected_split. simpl. tauto.
Qed.

Lemma setFrom_NoDup (values acc : list string) :
  NoDup acc -> NoDup (fold_left setAdd values acc).
Proof.
  revert acc. induction values as [|v values IH]; intros acc Hacc; simpl; [exact Hacc|].
  apply IH. unfold setAdd. now apply set_add_nodup.
Qed.

Lemma rankedLanguages_names (totals : list (string * Z)) :
  Permutation (map tl_language (rankedLanguages totals)) (map fst totals).
Proof.
  unfold rankedLanguages.
  eapply perm_trans; [apply Permutation_map, stableSort_perm|].
  rewrite map_map. erewrite map_ext; [apply Permutation_refl|].
  intros [lang bytes]. reflexivity.
Qed.

Lemma rankedLanguages_NoDup (repos : list RepositoryWithLanguages) :
  NoDup (map tl_language (rankedLanguages (languageTotals (scanRepos repos)))).
Proof.
  eapply Permutation_NoDup; [apply Permutation_sym, rankedLanguages_names|].
  rewrite languageTotals_keys. apply setFrom_NoDup. constructor.
Qed.

Lemma beyond_prefix {A B} (f : A -> B) (l : list A) (k i : nat) (a : A) :
  NoDup (map f l) -> nth_error l i = Some a -> (k <= i)%nat ->
  ~ In (f a) (map f (firstn k l)).
Proof.
  revert l i. induction k as [|k IH]; intros l i Hnodup Hnth Hle; [intros []|].
  destruct l as [|b l]; [intros []|].
  destruct i as [|i]; [lia|]. simpl in Hnth.
  inversion Hnodup as [|? ? Hnotin Hnodup']; subst.
  simpl. intros [Heq | Hin].
  - apply Hnotin. rewrite Heq. apply in_map. eapply nth_error_In; eauto.
  - apply (IH l i); [assumption | assumption | lia | assumption].
Qed.

Lemma byPercentageDesc_spec (a b : TopLanguage) :
  byPercentageDesc a b = true <-> (percentage b <= percentage a)%Q.
Proof. unfold byPercentageDesc. rewrite Qle_bool_iff. split; intros H; lra. Qed.

Lemma rankedLanguages_descending (totals : list (string * Z)) :
  StronglySorted (fun a b => (percentage b <= percentage a)%Q) (rankedLanguages totals).
Proof.
  unfold rankedLanguages.
  match goal with |- StronglySorted _ (stableSort _ ?l) => generalize l end.
  intros l.
  pose proof (stableSort_sorted byPercentageDesc) as Hsorted.
  assert (Htotal : forall x y, byPercentageDesc x y = true \/ byPercentageDesc y x = true).
  { intros x y. rewrite !byPercentageDesc_spec.
    destruct (Qlt_le_dec (percentage x) (percentage y)) as [Hlt | Hle];
      [right; lra | left; exact Hle]. }
  assert (Htrans : forall x y z, byPercentageDesc x y = true -> byPercentageDesc y z = true ->
                                 byPercentageDesc x z = true).
  { intros x y z. rewrite !byPercentageDesc_spec. intros; lra. }
  specialize (Hsorted Htotal Htrans l).
  induction Hsorted as [|a s _ IH Hall]; constructor; [exact IH|].
  eapply Forall_impl; [|exact Hall]. intros b Hb. now apply byPercentageDesc_spec.
Qed.

(** ** Dependence on the wall clock *)















(** * Further properties of the engine and of its callers *)

(** ** Substring containment *)

Lemma prefix_iff (a s : string) :
  String.prefix a s = true <-> exists post, s = String.append a post.
Proof.
  revert s. induction a as [|c a IH]; intros s.
  - split; [intros _; now exists s | intros _; now destruct s].
  - destruct s as [|d s]; simpl.
    + split; [discriminate | intros (post & Hpost); discriminate].
    + destruct (ascii_dec c d) as [-> | Hneq].
      * rewrite IH. split; intros (post & Hpost); exists post; congruence.
      * split; [discriminate | intros (post & Hpost); congruence].
Qed.

Lemma includes_iff (hay needle : string) :
  includes hay needle = true <->
  exists pre post, hay = String.append pre (String.append needle post).
Proof.
  induction hay as [|c hay IH].
  - cbn [includes]. destruct (String.prefix needle EmptyString) eqn:Hp.
    + apply prefix_iff in Hp. destruct Hp as (post & Hpost).
      split; [intros _; now exists EmptyString, post | reflexivity].
    + split; [discriminate|]. intros (pre & post & Heq).
      destruct pre; simpl in Heq; [|discriminate].
      assert (Htrue : String.prefix needle EmptyString = true)
        by (apply prefix_iff; now exists post).
      congruence.
  - cbn [includes]. destruct (String.prefix needle (String c hay)) eqn:Hp.
    + apply prefix_iff in Hp. destruct Hp as (post & Hpost).
      split; [intros _; now exists EmptyString, post | reflexivity].
    + rewrite IH. split.
      * intros (pre & post & ->). now exists (String c pre), post.
      * intros (pre & post & Heq). destruct pre as [|d pre]; simpl in Heq.
        -- assert (Htrue : String.prefix needle (String c hay) = true)
             by (apply prefix_iff; now exists post).
           congruence.
        -- injection Heq as _ ->. now exists pre, post.
Qed.

Lemma append_assoc (a b c : string) :
  String.append (String.append a b) c = String.append a (String.append b c).
Proof. induction a as [|x a IH]; simpl; [reflexivity | now rewrite IH]. Qed.

Lemma includes_trans (text a b : string) :
  includes text a = true -> includes a b = true -> includes text b = true.
Proof.
  rewrite !includes_iff. intros (pre & post & ->) (pre' & post' & ->).
  exists (String.append pre pre'), (String.append post' post).
  now rewrite !append_assoc.
Qed.

(** ** Frameworks and tools *)

Lemma scanFrameworks_frameworks (text : string) (s : SkillScan) (x : string) :
  In x (sc_frameworks (scanFrameworks text s)) <->
  In x (sc_frameworks s)
  \/ exists keywords, In (x, keywords) frameworkKeywords /\ someKeyword keywords text = true.
Proof.
  unfold scanFrameworks. generalize frameworkKeywords. intros table. revert s.
  induction table as [|[framework keywords] table IH]; intros s; simpl.
  - split; [now left | intros [H | (k & [] & _)]; exact H].
  - rewrite IH. destruct (someKeyword keywords text) eqn:Hmatch; simpl.
    + rewrite setAdd_In. split.
      * intros [[-> | Hin] | (k & Hk & Hm)].
        -- right. exists keywords. split; [now left | exact Hmatch].
        -- now left.
        -- right. exists k. split; [now right | exact Hm].
      * intros [Hin | (k & [Heq | Hk] & Hm)].
        -- left. now right.
        -- injection Heq as -> ->. left. now left.
        -- right. now exists k.
    + split.
      * intros [Hin | (k & Hk & Hm)]; [now left|].
        right. exists k. split; [now right | exact Hm].
      * intros [Hin | (k & [Heq | Hk] & Hm)]; [now left | | right; now exists k].
        injection Heq as -> ->. congruence.
Qed.

Lemma scanFrameworks_tools (text : string) (s : SkillScan) :
  sc_tools (scanFrameworks text s) = sc_tools s.
Proof.
  unfold scanFrameworks. generalize frameworkKeywords. intros table. revert s.
  induction table as [|[framework keywords] table IH]; intros s; simpl; [reflexivity|].
  rewrite IH. now destruct (someKeyword keywords text).
Qed.

Lemma scanFrameworks_NoDup (text : string) (s : SkillScan) :
  NoDup (sc_frameworks s) -> NoDup (sc_frameworks (scanFrameworks text s)).
Proof.
  unfold scanFrameworks. generalize frameworkKeywords. intros table. revert s.
  induction table as [|[framework keywords] table IH]; intros s Hs; simpl; [exact Hs|].
  apply IH. destruct (someKeyword keywords text); [|exact Hs].
  simpl. unfold setAdd. now apply set_add_nodup.
Qed.

Lemma addTool_tools (b : bool) (tool : string) (feeds : bool) (s : SkillScan) (x : string) :
  In x (sc_tools (if b then addTool tool feeds s else s)) <->
  In x (sc_tools s) \/ (b = true /\ x = tool).
Proof. destruct b; simpl; rewrite ?setAdd_In; intuition congruence. Qed.

Lemma addTool_frameworks (b : bool) (tool : string) (feeds : bool) (s : SkillScan) :
  sc_frameworks (if b then addTool tool feeds s else s) = sc_frameworks s.
Proof. now destruct b. Qed.

Lemma addTool_NoDup (b : bool) (tool : string) (feeds : bool) (s : SkillScan) :
  NoDup (sc_tools s) -> NoDup (sc_tools (if b then addTool tool feeds s else s)).
Proof. destruct b; simpl; [|tauto]. unfold setAdd. apply set_add_nodup. Qed.

Lemma scanRepo_frameworks (s : SkillScan) (repo : RepositoryWithLanguages) (x : string) :
  In x (sc_frameworks (scanRepo s repo)) <->
  In x (sc_frameworks s)
  \/ exists keywords,
       In (x, keywords) frameworkKeywords /\ someKeyword keywords (searchText repo) = true.
Proof.
  unfold scanRepo, scanTools. cbv zeta.
  rewrite !addTool_frameworks, scanFrameworks_frameworks. simpl. tauto.
Qed.

Lemma scanRepo_tools (s : SkillScan) (repo : RepositoryWithLanguages) (x : string) :
  In x (sc_tools (scanRepo s repo)) <-> In x (sc_tools s) \/ toolRuleFires repo x.
Proof.
  unfold scanRepo, scanTools, toolRuleFires. cbv zeta.
  rewrite !addTool_tools, scanFrameworks_tools. simpl. intuition congruence.
Qed.

Lemma scanRepo_NoDup (s : SkillScan) (repo : RepositoryWithLanguages) :
  NoDup (sc_frameworks s) /\ NoDup (sc_tools s) ->
  NoDup (sc_frameworks (scanRepo s repo)) /\ NoDup (sc_tools (scanRepo s repo)).
Proof.
  intros [Hf Ht]. unfold scanRepo, scanTools. cbv zeta. split.
  - rewrite !addTool_frameworks. now apply scanFrameworks_NoDup.
  - repeat apply addTool_NoDup. now rewrite scanFrameworks_tools.
Qed.

Lemma scanRepos_frameworks_tools (repos : list RepositoryWithLanguages) (s : SkillScan) :
  (forall x, In x (sc_frameworks (fold_left scanRepo repos s)) <->
             In x (sc_frameworks s)
             \/ exists repo keywords,
                  In repo repos /\ In (x, keywords) frameworkKeywords
                  /\ someKeyword keywords (searchText repo) = true)
  /\ (forall x, In x (sc_tools (fold_left scanRepo repos s)) <->
                In x (sc_tools s) \/ exists repo, In repo repos /\ toolRuleFires repo x)
  /\ (NoDup (sc_frameworks s) /\ NoDup (sc_tools s) ->
      NoDup (sc_frameworks (fold_left scanRepo repos s))
      /\ NoDup (sc_tools (fold_left scanRepo repos s))).
Proof.
  revert s. induction repos as [|repo repos IH]; intros s; simpl.
  - split; [|split].
    + intros x. split; [now left | intros [H | (r & k & [] & _)]; exact H].
    + intros x. split; [now left | intros [H | (r & [] & _)]; exact H].
    + tauto.
  - destruct (IH (scanRepo s repo)) as (Hf & Ht & Hn). split; [|split].
    + intros x. rewrite Hf, scanRepo_frameworks. split.
      * intros [[Hin | (k & Hk & Hm)] | (r & k & Hr & Hk & Hm)].
        -- now left.
        -- right. exists repo, k. split; [now left | now split].
        -- right. exists r, k. split; [now right | now split].
      * intros [Hin | (r & k & [<- | Hr] & Hk & Hm)].
        -- left. now left.
        -- left. right. now exists k.
        -- right. now exists r, k.
    + intros x. rewrite Ht, scanRepo_tools. split.
      * intros [[Hin | Hfire] | (r & Hr & Hfire)].
        -- now left.
        -- right. exists repo. split; [now left | exact Hfire].
        -- right. exists r. split; [now right | exact Hfire].
      * intros [Hin | (r & [<- | Hr] & Hfire)].
        -- left. now left.
        -- left. now right.
        -- right. now exists r.
    + intros Hs. apply Hn. now apply scanRepo_NoDup.
Qed.

Ltac lexicon_entry H :=
  simpl in H;
  repeat (destruct H as [H | H];
          [first [discriminate H | injection H as <-; reflexivity] |]);
  contradiction.

Lemma lexicon_docker (keywords : list string) :
  In ("Docker", keywords) frameworkKeywords -> keywords = ["docker"].
Proof. intros H. lexicon_entry H. Qed.

Lemma lexicon_kubernetes (keywords : list string) :
  In ("Kubernetes", keywords) frameworkKeywords -> keywords = ["kubernetes"; "k8s"].
Proof. intros H. lexicon_entry H. Qed.

Lemma lexicon_react_native (keywords : list string) :
  In ("React Native", keywords) frameworkKeywords -> keywords = ["react-native"].
Proof. intros H. lexicon_entry H. Qed.

Lemma analyzeSkills_techStack {cal : Calendar} (u : GitHubUser)
    (repos : list RepositoryWithLanguages) (oracle : nat -> Z) (n : nat) :
  techStack (fst (analyzeSkills u repos oracle n)) = techStackOf repos.
Proof.
  destruct (analyzeSkills_run u repos oracle n) as (level & active & age & n' & ->).
  reflexivity.
Qed.

Lemma frameworks_tools_run {cal : Calendar} (u : GitHubUser)
    (repos : list RepositoryWithLanguages) (oracle : nat -> Z) (n : nat) :
  let ts := techStack (fst (analyzeSkills u repos oracle n)) in
  (forall x, In x (frameworks ts) <-> frameworkDetected repos x)
  /\ (forall x, In x (tools ts) <-> exists repo, In repo repos /\ toolRuleFires repo x)
  /\ NoDup (frameworks ts) /\ NoDup (tools ts)
  /\ incl (frameworks ts) (map fst frameworkKeywords)
  /\ incl (tools ts) ["Docker"; "Kubernetes"; "Git"; "CI/CD"; "Terraform"; "Ansible"].
Proof.
  rewrite analyzeSkills_techStack. unfold techStackOf. cbv zeta. cbn [frameworks tools].
  unfold scanRepos.
  destruct (scanRepos_frameworks_tools repos
              {| languageTotals := []; sc_frameworks := []; sc_tools := [];
                 detectedTech := [] |}) as (Hf & Ht & Hn).
  simpl in Hf, Ht, Hn.
  assert (Hf' : forall x,
             In x (sc_frameworks (fold_left scanRepo repos
                     {| languageTotals := []; sc_frameworks := []; sc_tools := [];
                        detectedTech := [] |})) <-> frameworkDetected repos x).
  { intros x. rewrite Hf. unfold frameworkDetected. tauto. }
  assert (Ht' : forall x,
             In x (sc_tools (fold_left scanRepo repos
                     {| languageTotals := []; sc_frameworks := []; sc_tools := [];
                        detectedTech := [] |}))
             <-> exists repo, In repo repos /\ toolRuleFires repo x).
  { intros x. rewrite Ht. tauto. }
  destruct Hn as [Hnf Hnt]; [split; constructor|].
  repeat split; try assumption; try (now apply Hf'); try (now apply Ht').
  - intros x Hx. apply Hf' in Hx. destruct Hx as (repo & k & _ & Hk & _).
    change x with (fst (x, k)). now apply in_map.
  - intros x Hx. apply Ht' in Hx. destruct Hx as (repo & _ & Hfire).
    unfold toolRuleFires in Hfire. simpl. intuition.
Qed.

(** X1: [frameworks] holds exactly the lexicon technologies one of whose
    aliases occurs in some haystack, [tools] exactly the tools whose rule
    fires on some haystack; both are free of duplicates, and [tools] only
    ever holds the six tool names. *)
Theorem frameworks_tools_characterised {cal : Calendar} (u : GitHubUser)
    (repos : list RepositoryWithLanguages) (oracle : nat -> Z) (n : nat) :
  let ts := techStack (fst (analyzeSkills u repos oracle n)) in
  (forall x, In x (frameworks ts) <-> frameworkDetected repos x)
  /\ (forall x, In x (tools ts) <-> exists repo, In repo repos /\ toolRuleFires repo x)
  /\ NoDup (frameworks ts) /\ NoDup (tools ts)
  /\ incl (frameworks ts) (map fst frameworkKeywords)
  /\ incl (tools ts) ["Docker"; "Kubernetes"; "Git"; "CI/CD"; "Terraform"; "Ansible"].
Proof. exact (frameworks_tools_run u repos oracle n). Qed.

(** X2: consequences of matching by substring.  Docker, and likewise
    Kubernetes, is in [tools] exactly when it is in [frameworks]; whenever
    React Native is detected so is React; and a haystack that mentions
    github-actions puts both CI/CD and Git into [tools]. *)
Theorem substring_matching_consequences {cal : Calendar} (u : GitHubUser)
    (repos : list RepositoryWithLanguages) (oracle : nat -> Z) (n : nat) :
  let ts := techStack (fst (analyzeSkills u repos oracle n)) in
  (In "Docker" (tools ts) <-> In "Docker" (frameworks ts))
  /\ (In "Kubernetes" (tools ts) <-> In "Kubernetes" (frameworks ts))
  /\ (In "React Native" (frameworks ts) -> In "React" (frameworks ts))
  /\ ((exists repo, In repo repos /\ includes (searchText repo) "github-actions" = true) ->
      In "CI/CD" (tools ts) /\ In "Git" (tools ts)).
Proof.
  destruct (frameworks_tools_run u repos oracle n) as (Hf & Ht & _).
  cbv zeta in *. split; [|split; [|split]].
  - rewrite Hf, Ht. unfold frameworkDetected, toolRuleFires. split.
    + intros (repo & Hin & Hfire). exists repo, ["docker"].
      split; [exact Hin|]. split; [simpl; tauto|].
      simpl. destruct Hfire as [[_ ->] | Hrest]; [reflexivity|].
      repeat (destruct Hrest as [[Habs _] | Hrest]; [discriminate Habs|]).
      destruct Hrest as [Habs _]. discriminate Habs.
    + intros (repo & k & Hin & Hk & Hm). apply lexicon_docker in Hk. subst k.
      exists repo. split; [exact Hin|]. left. split; [reflexivity|].
      simpl in Hm. now rewrite orb_false_r in Hm.
  - rewrite Hf, Ht. unfold frameworkDetected, toolRuleFires. split.
    + intros (repo & Hin & Hfire). exists repo, ["kubernetes"; "k8s"].
      split; [exact Hin|]. split; [simpl; tauto|].
      simpl. destruct Hfire as [[Habs _] | [[_ Hk] | Hrest]];
        [discriminate Habs | now rewrite orb_false_r |].
      repeat (destruct Hrest as [[Habs _] | Hrest]; [discriminate Habs|]).
      destruct Hrest as [Habs _]. discriminate Habs.
    + intros (repo & k & Hin & Hk & Hm). apply lexicon_kubernetes in Hk. subst k.
      exists repo. split; [exact Hin|]. right. left. split; [reflexivity|].
      simpl in Hm. now rewrite orb_false_r in Hm.
  - rewrite !Hf. intros (repo & k & Hin & Hk & Hm).
    apply lexicon_react_native in Hk. subst k.
    exists repo, ["react"; "reactjs"]. split; [exact Hin|]. split; [simpl; tauto|].
    simpl in Hm. rewrite orb_false_r in Hm. simpl.
    rewrite (includes_trans _ "react-native" "react" Hm eq_refl). reflexivity.
  - intros (repo & Hin & Hga). rewrite !Ht. split; exists repo; (split; [exact Hin|]).
    + unfold toolRuleFires. cbv zeta. right. right. right. left.
      split; [reflexivity|]. rewrite Hga. apply orb_true_r.
    + unfold toolRuleFires. cbv zeta. right. right. left.
      split; [reflexivity|]. exact (includes_trans _ "github-actions" "git" Hga eq_refl).
Qed.

Lemma substring_matching_consequences_witness :
  In "CI/CD" (tools (techStack (fst (analyzeSkills (cal := sampleCalendar) sampleUser
                                       [repoInfra] (fun _ => sampleNow) 0%nat))))
  /\ In "Git" (tools (techStack (fst (analyzeSkills (cal := sampleCalendar) sampleUser
                                        [repoInfra] (fun _ => sampleNow) 0%nat)))).
Proof.
  apply (substring_matching_consequences (cal := sampleCalendar) sampleUser [repoInfra]
           (fun _ => sampleNow) 0%nat).
  exists repoInfra. split; [now left | vm_compute; reflexivity].
Defined.

(** ** Aggregation of the byte counts *)

Lemma totalBytesOf_sumZ (totals : list (string * Z)) :
  totalBytesOf totals = sumZ (map snd totals).
Proof.
  unfold totalBytesOf. induction totals as [|[k v] totals IH]; simpl; [reflexivity|].
  rewrite fold_add_shift, IH. reflexivity.
Qed.

Lemma addBytes_totalOf (totals : list (string * Z)) (added : string) (bytes : Z)
    (lang : string) :
  totalOf (addBytes totals added bytes) lang
  = totalOf totals lang + (if String.eqb added lang then bytes else 0).
Proof.
  unfold totalOf. induction totals as [|[k v] totals IH]; simpl.
  - destruct (String.eqb added lang); simpl; lia.
  - destruct (String.eqb k added) eqn:Hka; simpl.
    + apply String.eqb_eq in Hka. subst k.
      destruct (String.eqb added lang); simpl; lia.
    + destruct (String.eqb k lang) eqn:Hkl; simpl; [|exact IH].
      apply String.eqb_eq in Hkl. subst k. rewrite String.eqb_sym, Hka. lia.
Qed.

Lemma addBytes_sumZ (totals : list (string * Z)) (added : string) (bytes : Z) :
  sumZ (map snd (addBytes totals added bytes)) = sumZ (map snd totals) + bytes.
Proof.
  induction totals as [|[k v] totals IH]; simpl; [lia|].
  destruct (String.eqb k added); simpl; [lia|]. rewrite IH. lia.
Qed.

Lemma sumZ_app (xs ys : list Z) : sumZ (xs ++ ys) = sumZ xs + sumZ ys.
Proof. induction xs as [|x xs IH]; simpl; [reflexivity | rewrite IH; lia]. Qed.

Lemma scanStats_totalOf (stats totals : list (string * Z)) (lang : string) :
  totalOf (fold_left (fun acc '(l, bytes) => addBytes acc l bytes) stats totals) lang
  = totalOf totals lang
    + sumZ (map snd (filter (fun entry => String.eqb (fst entry) lang) stats)).
Proof.
  revert totals. induction stats as [|[l bytes] stats IH]; intros totals; simpl; [lia|].
  rewrite IH, addBytes_totalOf. destruct (String.eqb l lang); simpl; lia.
Qed.

Lemma scanStats_sumZ (stats totals : list (string * Z)) :
  sumZ (map snd (fold_left (fun acc '(l, bytes) => addBytes acc l bytes) stats totals))
  = sumZ (map snd totals) + sumZ (map snd stats).
Proof.
  revert totals. induction stats as [|[l bytes] stats IH]; intros totals; simpl; [lia|].
  rewrite IH, addBytes_sumZ. lia.
Qed.

Lemma scanLanguages_fold (repos : list RepositoryWithLanguages) (totals : list (string * Z))
    (lang : string) :
  totalOf (fold_left (fun acc repo => scanLanguages repo acc) repos totals) lang
  = totalOf totals lang
    + sumZ (map snd (filter (fun entry => String.eqb (fst entry) lang)
                            (allLanguageStats repos)))
  /\ sumZ (map snd (fold_left (fun acc repo => scanLanguages repo acc) repos totals))
     = sumZ (map snd totals) + sumZ (map snd (allLanguageStats repos)).
Proof.
  revert totals. induction repos as [|repo repos IH]; intros totals; simpl; [lia|].
  destruct (IH (scanLanguages repo totals)) as [-> ->].
  rewrite filter_app, !map_app, !sumZ_app. unfold scanLanguages.
  destruct (languageStats repo) as [stats|]; simpl; [|lia].
  rewrite scanStats_totalOf, scanStats_sumZ. lia.
Qed.

Lemma languageTotals_facts (repos : list RepositoryWithLanguages) :
  let totals := languageTotals (scanRepos repos) in
  (forall lang, totalOf totals lang = languageBytes repos lang)
  /\ (forall lang, In lang (map fst totals) <-> In lang (map fst (allLanguageStats repos)))
  /\ NoDup (map fst totals)
  /\ totalBytesOf totals = sumZ (map snd (allLanguageStats repos)).
Proof.
  cbv zeta. split; [|split; [|split]].
  - intros lang. unfold scanRepos. rewrite scanRepos_languageTotals. simpl.
    destruct (scanLanguages_fold repos [] lang) as [-> _]. reflexivity.
  - intros lang. rewrite languageTotals_keys. unfold distinctLanguages, setFrom.
    assert (Hfold : forall values acc,
               In lang (fold_left setAdd values acc) <-> In lang acc \/ In lang values).
    { induction values as [|v values IH]; intros acc; simpl; [tauto|].
      rewrite IH, setAdd_In. intuition congruence. }
    rewrite Hfold. simpl.
    assert (Hkeys : flat_map languageKeys repos = map fst (allLanguageStats repos)).
    { unfold allLanguageStats, languageKeys.
      induction repos as [|repo repos' IH]; simpl; [reflexivity|].
      rewrite map_app, IH. now destruct (languageStats repo). }
    rewrite Hkeys. tauto.
  - rewrite languageTotals_keys. apply setFrom_NoDup. constructor.
  - rewrite totalBytesOf_sumZ. unfold scanRepos. rewrite scanRepos_languageTotals. simpl.
    destruct (scanLanguages_fold repos [] EmptyString) as [_ ->]. reflexivity.
Qed.

(** X3: the scan adds up the byte maps.  The total kept for a language is
    the sum of the bytes recorded for it over all repositories, a language
    has a total exactly when some byte map names it, and [totalBytes] is the
    sum of all the bytes of all the byte maps. *)
Theorem languageTotals_aggregate (repos : list RepositoryWithLanguages) :
  let totals := languageTotals (scanRepos repos) in
  (forall lang, totalOf totals lang = languageBytes repos lang)
  /\ (forall lang, In lang (map fst totals) <-> In lang (map fst (allLanguageStats repos)))
  /\ NoDup (map fst totals)
  /\ totalBytesOf totals = sumZ (map snd (allLanguageStats repos)).
Proof. exact (languageTotals_facts repos). Qed.

(** ** Shape of the language ranking *)

Lemma firstn_In_full {A} (k : nat) (l : list A) (x : A) : In x (firstn k l) -> In x l.
Proof.
  intros Hx. rewrite <- (firstn_skipn k l). apply in_or_app. now left.
Qed.

Lemma firstn_NoDup {A} (k : nat) (l : list A) : NoDup l -> NoDup (firstn k l).
Proof.
  revert l. induction k as [|k IH]; intros l Hl; [constructor|].
  destruct l as [|x l]; [constructor|]. simpl.
  inversion Hl as [|? ? Hnotin Hl']; subst. constructor; [|now apply IH].
  intros Hin. apply Hnotin. now apply (firstn_In_full k).
Qed.

Lemma firstn_StronglySorted {A} (R : A -> A -> Prop) (k : nat) (l : list A) :
  StronglySorted R l -> StronglySorted R (firstn k l).
Proof.
  revert l. induction k as [|k IH]; intros l Hl; [constructor|].
  destruct l as [|x l]; [constructor|]. simpl.
  inversion Hl as [|? ? Hl' Hall]; subst. constructor; [now apply IH|].
  rewrite Forall_forall in *. intros y Hy. apply Hall. now apply (firstn_In_full k).
Qed.

Lemma totalOf_entry (totals : list (string * Z)) (lang : string) (bytes : Z) :
  NoDup (map fst totals) -> In (lang, bytes) totals -> totalOf totals lang = bytes.
Proof.
  unfold totalOf. induction totals as [|[k v] totals IH]; intros Hnodup Hin; [destruct Hin|].
  simpl in *. inversion Hnodup as [|? ? Hnotin Hnodup']; subst.
  destruct Hin as [Heq | Hin].
  - injection Heq as -> ->. now rewrite String.eqb_refl.
  - destruct (String.eqb k lang) eqn:Hk; [|now apply IH].
    apply String.eqb_eq in Hk. subst k. exfalso. apply Hnotin.
    change lang with (fst (lang, bytes)). now apply in_map.
Qed.

Lemma sumZ_nonneg (values : list Z) : Forall (fun v => 0 <= v) values -> 0 <= sumZ values.
Proof. induction 1 as [|v values Hv _ IH]; simpl; lia. Qed.

Lemma sumZ_filter_le (p : string * Z -> bool) (entries : list (string * Z)) :
  Forall (fun entry => 0 <= snd entry) entries ->
  0 <= sumZ (map snd (filter p entries)) <= sumZ (map snd entries).
Proof.
  induction 1 as [|entry entries Hentry _ IH]; simpl; [lia|].
  destruct (p entry); simpl; lia.
Qed.

Lemma rankedLanguages_entry (totals : list (string * Z)) (entry : TopLanguage) :
  In entry (rankedLanguages totals) ->
  exists bytes,
    In (tl_language entry, bytes) totals
    /\ percentage entry = (inject_Z bytes / inject_Z (totalBytesOf totals) * 100)%Q.
Proof.
  unfold rankedLanguages. intros Hin. apply stableSort_In in Hin.
  apply in_map_iff in Hin. destruct Hin as ([lang bytes] & <- & Hin).
  now exists bytes.
Qed.

(** X4: [topLanguages] has at most ten entries, no language twice, in
    descending order of percentage, and each entry is a language of some
    byte map.  When the total is positive an entry's percentage is the share
    of the bytes recorded for its language, and it lies between 0 and 100
    when no byte count is negative. *)
Theorem topLanguages_shape {cal : Calendar} (u : GitHubUser)
    (repos : list RepositoryWithLanguages) (oracle : nat -> Z) (n : nat) :
  let top := topLanguages (fst (analyzeSkills u repos oracle n)) in
  let total := totalBytesOf (languageTotals (scanRepos repos)) in
  (List.length top <= 10)%nat
  /\ NoDup (map tl_language top)
  /\ StronglySorted (fun a b => (percentage b <= percentage a)%Q) top
  /\ (forall entry, In entry top ->
        In (tl_language entry) (map fst (allLanguageStats repos))
        /\ (percentage entry
            == inject_Z (languageBytes repos (tl_language entry)) / inject_Z total * 100)%Q)
  /\ (0 < total ->
      Forall (fun stat => 0 <= snd stat) (allLanguageStats repos) ->
      forall entry, In entry top -> (0 <= percentage entry <= 100)%Q).
Proof.
  destruct (analyzeSkills_run u repos oracle n) as (level & active & age & n' & ->).
  cbn [fst topLanguages]. unfold topLanguagesOf, sliceTo. cbv zeta.
  destruct (languageTotals_facts repos) as (Htotal & Hkeys & Hnodup & Hsum).
  cbv zeta in Htotal, Hkeys, Hnodup, Hsum.
  assert (Hentry : forall entry,
             In entry (firstn 10 (rankedLanguages (languageTotals (scanRepos repos)))) ->
             In (tl_language entry) (map fst (allLanguageStats repos))
             /\ percentage entry
                = (inject_Z (languageBytes repos (tl_language entry))
                   / inject_Z (totalBytesOf (languageTotals (scanRepos repos))) * 100)%Q).
  { intros entry Hin. apply firstn_In_full, rankedLanguages_entry in Hin.
    destruct Hin as (bytes & Hin & Hpct). split.
    - apply Hkeys. change (tl_language entry) with (fst (tl_language entry, bytes)).
      now apply in_map.
    - rewrite <- Htotal, (totalOf_entry _ _ bytes Hnodup Hin). exact Hpct. }
  split; [apply firstn_le_length|]. split.
  { rewrite <- firstn_map. apply firstn_NoDup, rankedLanguages_NoDup. }
  split; [apply firstn_StronglySorted, rankedLanguages_descending|]. split.
  - intros entry Hin. destruct (Hentry entry Hin) as [Hlang ->]. split; [exact Hlang|].
    reflexivity.
  - intros Hpos Hnonneg entry Hin. destruct (Hentry entry Hin) as [_ ->].
    pose proof (sumZ_filter_le (fun e => String.eqb (fst e) (tl_language entry))
                  _ Hnonneg) as Hbounds.
    fold (languageBytes repos (tl_language entry)) in Hbounds.
    rewrite <- Hsum in Hbounds.
    set (b := languageBytes repos (tl_language entry)) in *.
    set (t := totalBytesOf (languageTotals (scanRepos repos))) in *.
    assert (Ht : (inject_Z 0 < inject_Z t)%Q) by (rewrite <- Zlt_Qlt; exact Hpos).
    assert (Hb0 : (inject_Z 0 <= inject_Z b)%Q) by (rewrite <- Zle_Qle; lia).
    assert (Hbt : (inject_Z b <= inject_Z t)%Q) by (rewrite <- Zle_Qle; lia).
    change (inject_Z 0) with 0%Q in Ht, Hb0.
    assert (Hq0 : (0 <= inject_Z b / inject_Z t)%Q).
    { apply Qle_shift_div_l; [exact Ht | lra]. }
    assert (Hq1 : (inject_Z b / inject_Z t <= 1)%Q).
    { apply Qle_shift_div_r; [exact Ht | lra]. }
    split; lra.
Qed.

Lemma topLanguages_shape_witness :
  Forall (fun entry => (0 <= percentage entry <= 100)%Q)
         (topLanguages (fst (analyzeSkills (cal := sampleCalendar) sampleUser
                               [repoShop; repoNotes] (fun _ => sampleNow) 0%nat))).
Proof.
  apply Forall_forall.
  apply (topLanguages_shape (cal := sampleCalendar) sampleUser [repoShop; repoNotes]
           (fun _ => sampleNow) 0%nat).
  - vm_compute. reflexivity.
  - repeat constructor; simpl; lia.
Defined.

(** ** Language percentages in double arithmetic *)

Section DoubleRounding.
Local Open Scope Q_scope.

Lemma roundTiesToEven_error (x : Q) :
  (Qabs (inject_Z (roundTiesToEven x) - x) <= 1 # 2)%Q.
Proof.
  unfold roundTiesToEven. cbv zeta.
  pose proof (Qfloor_le x) as Hlow. pose proof (Qlt_floor x) as Hhigh.
  rewrite inject_Z_plus in Hhigh. change (inject_Z 1) with 1 in Hhigh.
  apply Qabs_Qle_condition.
  destruct (Qcompare (x - inject_Z (Qfloor x)) (1 # 2)) eqn:Hcmp.
  - apply Qeq_alt in Hcmp.
    destruct (Z.even (Qfloor x)); [|rewrite inject_Z_plus; change (inject_Z 1) with 1];
      split; lra.
  - apply Qlt_alt in Hcmp. split; lra.
  - apply Qgt_alt in Hcmp. rewrite inject_Z_plus. change (inject_Z 1) with 1. split; lra.
Qed.

Lemma binaryExponent_lower (x : Q) : ~ x == 0 -> 2 ^ binaryExponent x <= Qabs x.
Proof.
  intros Hnz. unfold binaryExponent. cbv zeta.
  destruct (Qle_bool _ (Qabs x)) eqn:Htest; [now apply Qle_bool_iff|]. clear Htest.
  destruct x as [num den]. cbn [Qnum Qden].
  assert (Hnum : (0 < Z.abs num)%Z).
  { destruct num; [exfalso; apply Hnz; reflexivity | lia | lia]. }
  set (n := Z.abs num) in *.
  pose proof (Z.log2_spec n Hnum) as [Hn _].
  pose proof (Z.log2_spec (Z.pos den) ltac:(lia)) as [_ Hd].
  pose proof (Z.log2_nonneg n) as Hln. pose proof (Z.log2_nonneg (Z.pos den)) as Hld.
  replace (Z.log2 n - Z.log2 (Z.pos den) - 1)%Z
    with (Z.log2 n - Z.succ (Z.log2 (Z.pos den)))%Z by lia.
  rewrite Qpower_minus by (intros H; discriminate H).
  change 2 with (inject_Z 2). rewrite <- !Zpower_Qpower by lia.
  change (Qabs (num # den)) with (n # den).
  set (a := (2 ^ Z.log2 n)%Z) in *. set (b := (2 ^ Z.succ (Z.log2 (Z.pos den)))%Z) in *.
  assert (Ha : (0 < a)%Z) by (subst a; apply Z.pow_pos_nonneg; lia).
  assert (Hb : (0 < b)%Z) by lia.
  apply Qle_shift_div_r; [change 0 with (inject_Z 0); rewrite <- Zlt_Qlt; lia|].
  unfold Qle, Qmult, inject_Z. cbn [Qnum Qden]. nia.
Qed.

Lemma roundDouble_error (x : Q) :
  Qabs (roundDouble x - x) <= (1 # 9007199254740992) * Qabs x.
Proof.
  unfold roundDouble. destruct (Qeq_bool x 0) eqn:Hzero.
  - apply Qeq_bool_eq in Hzero. rewrite Hzero. vm_compute. discriminate.
  - apply Qeq_bool_neq in Hzero. cbv zeta.
    set (e := binaryExponent x).
    pose proof (binaryExponent_lower x Hzero) as Hlow. fold e in Hlow.
    assert (Hulp : 0 < 2 ^ (e - 52)) by (apply Qpower_0_lt; reflexivity).
    set (ulp := 2 ^ (e - 52)) in *.
    assert (Hsplit : 2 ^ e == ulp * 4503599627370496).
    { subst ulp. replace e with ((e - 52) + 52)%Z at 1 by lia.
      rewrite Qpower_plus by (intros H; discriminate H). reflexivity. }
    pose proof (roundTiesToEven_error (x / ulp)) as Herr.
    set (k := inject_Z (roundTiesToEven (x / ulp))) in *.
    assert (Heq : k * ulp - x == (k - x / ulp) * ulp) by (field; lra).
    rewrite Heq, Qabs_Qmult, (Qabs_pos ulp) by lra.
    rewrite Hsplit in Hlow.
    assert (Hbound : Qabs (k - x / ulp) * ulp <= (1 # 2) * ulp).
    { apply Qmult_le_compat_r; [exact Herr | lra]. }
    lra.
Qed.

End DoubleRounding.

(** The doubles that the code computes for one byte of Python and two
    bytes of Go: the two percentages add up to 100 - 2^-46, not to 100. *)
Example topLanguagesFl_thirds :
  (sumPercentages (topLanguagesFl roundDouble [("Python", 1%Z); ("Go", 2%Z)])
   == 100 - (1 # 70368744177664))%Q
  /\ (sumPercentages (topLanguagesFl (fun x => x) [("Python", 1%Z); ("Go", 2%Z)])
      == 100)%Q.
Proof. split; vm_compute; reflexivity. Qed.

Lemma percentageFl_error (fl : Q -> Q) (eps q : Q) :
  (forall x, Qabs (fl x - x) <= eps * Qabs x)%Q ->
  (0 <= eps)%Q -> (0 <= q)%Q ->
  (Qabs (fl (fl q * 100) - q * 100) <= (2 * eps + eps * eps) * (q * 100))%Q.
Proof.
  intros Hfl Heps Hq.
  pose proof (Hfl q) as H1. rewrite (Qabs_pos q Hq) in H1.
  pose proof (Hfl (fl q * 100)%Q) as H2.
  rewrite Qabs_Qmult in H2. change (Qabs 100) with 100%Q in H2.
  apply Qabs_Qle_condition in H1. destruct H1 as [H1l H1u].
  assert (Ha : (Qabs (fl q) <= (1 + eps) * q)%Q).
  { apply Qabs_Qle_condition. split; nra. }
  set (a := fl q) in *. set (r := fl (a * 100)%Q) in *.
  set (A := Qabs a) in *.
  assert (HA : (0 <= A)%Q) by apply Qabs_nonneg.
  apply Qabs_Qle_condition in H2. destruct H2 as [H2l H2u].
  apply Qabs_Qle_condition. split; nra.
Qed.

Lemma sumPercentagesFl_error (fl : Q -> Q) (eps t : Q) (totals : list (string * Z)) :
  (forall x, Qabs (fl x - x) <= eps * Qabs x)%Q ->
  (0 <= eps)%Q -> (0 < t)%Q ->
  Forall (fun entry => 0 <= snd entry) totals ->
  (Qabs (sumPercentages
           (map (fun '(lang, bytes) =>
                   {| tl_language := lang;
                      percentage := fl (fl (inject_Z bytes / t) * 100) |}) totals)
         - inject_Z (sumZ (map snd totals)) / t * 100)
   <= (2 * eps + eps * eps) * (inject_Z (sumZ (map snd totals)) / t * 100))%Q.
Proof.
  intros Hfl Heps Ht Hnonneg.
  induction Hnonneg as [|[lang bytes] totals Hbytes _ IH].
  - unfold sumPercentages. cbn [map fold_right]. change (sumZ []) with 0%Z.
    change (inject_Z 0) with 0%Q. set (z := (0 / t * 100)%Q).
    assert (Hz : (z == 0)%Q) by (subst z; field; lra).
    clearbody z. rewrite Hz. apply Qabs_Qle_condition. split; lra.
  - unfold sumPercentages in *. cbn [map fold_right snd percentage] in *.
    change (sumZ (bytes :: map snd totals)) with (bytes + sumZ (map snd totals)).
    rewrite inject_Z_plus.
    assert (Hq : (0 <= inject_Z bytes / t)%Q).
    { apply Qle_shift_div_l; [exact Ht|]. rewrite Qmult_0_l.
      change 0%Q with (inject_Z 0). rewrite <- Zle_Qle. exact Hbytes. }
    pose proof (percentageFl_error fl eps _ Hfl Heps Hq) as Hentry.
    set (p := fl (fl (inject_Z bytes / t) * 100)%Q) in *.
    set (S := fold_right _ 0%Q _) in *.
    set (e := (inject_Z bytes / t * 100)%Q) in *.
    set (E := (inject_Z (sumZ (map snd totals)) / t * 100)%Q) in *.
    setoid_replace ((inject_Z bytes + inject_Z (sumZ (map snd totals))) / t * 100)%Q
      with (e + E)%Q by (subst e E; field; lra).
    apply Qabs_Qle_condition in Hentry. apply Qabs_Qle_condition in IH.
    apply Qabs_Qle_condition. clearbody p S e E. split; nra.
Qed.

Lemma roundingUnit_bound (eps : Q) :
  (0 <= eps <= 1 # 9007199254740992)%Q -> (100 * (2 * eps + eps * eps) <= 1 # 100)%Q.
Proof. intros [Hlow Hhigh]. nra. Qed.

Lemma languageTotals_nonneg (repos : list RepositoryWithLanguages) :
  Forall (fun stat => 0 <= snd stat) (allLanguageStats repos) ->
  Forall (fun entry => 0 <= snd entry) (languageTotals (scanRepos repos)).
Proof.
  intros Hnonneg. destruct (languageTotals_facts repos) as (Htotal & _ & Hnodup & _).
  cbv zeta in Htotal, Hnodup. apply Forall_forall. intros [lang bytes] Hin. cbn [snd].
  rewrite <- (totalOf_entry _ _ _ Hnodup Hin), Htotal. unfold languageBytes.
  apply (sumZ_filter_le (fun entry => String.eqb (fst entry) lang) _ Hnonneg).
Qed.

(** C1, as the code has it.  [topLanguages] is the first ten entries of the
    ranking of all languages.  For every rounding of the operations with a
    relative error of at most 2^-53, which the rounding to the nearest
    double has, a positive total, byte counts that are not negative and at
    most ten distinct languages, the returned percentages add up to 100
    within 100 (2 eps + eps^2), hence within 0.01; without rounding they add
    up to 100 exactly.  No repository gives no language. *)
Theorem topLanguages_sum_when_all_kept {cal : Calendar} (u : GitHubUser)
    (repos : list RepositoryWithLanguages) (oracle : nat -> Z) (n : nat)
    (fl : Q -> Q) (eps : Q) :
  (forall x, Qabs (fl x - x) <= eps * Qabs x)%Q ->
  (0 <= eps <= 1 # 9007199254740992)%Q ->
  let sa := fst (analyzeSkills u repos oracle n) in
  let totals := languageTotals (scanRepos repos) in
  let returned := topLanguagesFl fl totals in
  topLanguages sa = topLanguagesFl (fun x => x) totals
  /\ returned = firstn 10 (rankedLanguagesFl fl totals)
  /\ (0 < totalBytesOf totals ->
      Forall (fun stat => 0 <= snd stat) (allLanguageStats repos) ->
      (List.length (distinctLanguages repos) <= 10)%nat ->
      (Qabs (sumPercentages returned - 100) <= 100 * (2 * eps + eps * eps))%Q
      /\ (Qabs (sumPercentages returned - 100) <= 1 # 100)%Q)
  /\ (repos = [] -> returned = [] /\ topLanguages sa = []).
Proof.
  intros Hfl Heps.
  destruct (analyzeSkills_run u repos oracle n) as (level & active & age & n' & ->).
  cbn [fst topLanguages]. cbv zeta.
  split; [reflexivity|]. split; [reflexivity|]. split.
  - intros Hpos Hnonneg Hfew.
    assert (Hsum : (Qabs (sumPercentages (topLanguagesFl fl (languageTotals (scanRepos repos)))
                          - 100)
                    <= 100 * (2 * eps + eps * eps))%Q).
    { unfold topLanguagesFl, sliceTo. rewrite firstn_all2.
      2:{ unfold rankedLanguagesFl. rewrite stableSort_length, length_map.
          rewrite <- languageTotals_keys, length_map in Hfew. exact Hfew. }
      unfold rankedLanguagesFl. cbv zeta.
      rewrite (sumPercentages_perm _ _ (stableSort_perm byPercentageDesc _)).
      set (totals := languageTotals (scanRepos repos)) in *.
      assert (Ht : (0 < inject_Z (totalBytesOf totals))%Q).
      { change 0%Q with (inject_Z 0). rewrite <- Zlt_Qlt. exact Hpos. }
      pose proof (sumPercentagesFl_error fl eps (inject_Z (totalBytesOf totals)) totals
                    Hfl (proj1 Heps) Ht (languageTotals_nonneg repos Hnonneg)) as Herr.
      rewrite <- totalBytesOf_sumZ in Herr.
      assert (Hone : (inject_Z (totalBytesOf totals) / inject_Z (totalBytesOf totals) * 100
                      == 100)%Q) by (field; lra).
      rewrite Hone in Herr. unfold percentageFl.
      setoid_replace (100 * (2 * eps + eps * eps))%Q
        with ((2 * eps + eps * eps) * 100)%Q by ring.
      exact Herr. }
    split; [exact Hsum|].
    apply Qle_trans with (1 := Hsum). now apply roundingUnit_bound.
  - intros ->. split; reflexivity.
Qed.

Lemma topLanguages_sum_when_all_kept_witness :
  (Qabs (sumPercentages
           (topLanguagesFl roundDouble (languageTotals (scanRepos [repoShop; repoNotes])))
         - 100) <= 1 # 100)%Q.
Proof.
  apply (topLanguages_sum_when_all_kept (cal := sampleCalendar) sampleUser
           [repoShop; repoNotes] (fun _ => sampleNow) 0%nat roundDouble
           (1 # 9007199254740992) roundDouble_error).
  - split; [discriminate | apply Qle_refl].
  - vm_compute. reflexivity.
  - repeat constructor; simpl; lia.
  - vm_compute. lia.
Defined.

(** C1, as the specification words it, fails: eleven languages of one byte
    each have a positive total, and the ten percentages kept add up to
    1000/11, more than 9 below 100, in exact and in double arithmetic. *)
Lemma topLanguages_sum_counterexample :
  0 < totalBytesOf (languageTotals (scanRepos [repoPolyglot]))
  /\ ~ (Qabs
          (sumPercentages
             (topLanguages
                (fst (analyzeSkills (cal := sampleCalendar) sampleUser [repoPolyglot]
                        (fun _ => sampleNow) 0%nat))) - 100) <= 1 # 100)%Q
  /\ ~ (Qabs
          (sumPercentages
             (topLanguagesFl roundDouble (languageTotals (scanRepos [repoPolyglot])))
           - 100) <= 1 # 100)%Q.
Proof.
  split; [vm_compute; reflexivity|].
  split; apply Qlt_not_le; vm_compute; reflexivity.
Qed.

Lemma StronglySorted_prefix_suffix {A} (R : A -> A -> Prop) (l : list A) (k : nat)
    (x y : A) :
  StronglySorted R l -> In x (firstn k l) -> In y (skipn k l) -> R x y.
Proof.
  intros Hs. revert k. induction Hs as [|a l Hs IH Hall]; intros k Hx Hy.
  - rewrite firstn_nil in Hx. destruct Hx.
  - destruct k as [|k]; [destruct Hx|].
    cbn [firstn skipn] in Hx, Hy. destruct Hx as [<- | Hx].
    + rewrite Forall_forall in Hall. apply Hall.
      rewrite <- (firstn_skipn k l). apply in_or_app. now right.
    + now apply IH with k.
Qed.

(** Every entry of the ranking carries the share of its language. *)
Lemma rankedLanguages_share (repos : list RepositoryWithLanguages) (entry : TopLanguage) :
  In entry (rankedLanguages (languageTotals (scanRepos repos))) ->
  percentage entry = languageShare repos (tl_language entry).
Proof.
  intros Hin. destruct (languageTotals_facts repos) as (Htotal & _ & Hnodup & Hsum).
  cbv zeta in Htotal, Hnodup, Hsum.
  destruct (rankedLanguages_entry _ entry Hin) as (bytes & Hbytes & ->).
  unfold languageShare.
  rewrite <- Htotal, (totalOf_entry _ _ _ Hnodup Hbytes), Hsum. reflexivity.
Qed.

(** C9: the set handed to [detectFullStacks] holds exactly the detected
    frameworks, the tools Docker, Kubernetes and Terraform when detected, and
    the five leading languages of the ranking by descending percentage.  The
    ranking lists every language of the byte maps once, with its share of
    the bytes, in descending order of share; the leading languages are its
    first five names, so that no language outside them has a larger share
    than one of them.  The names Git, CI/CD and Ansible are in the set only
    as leading languages, and a language ranked sixth or lower is in it only
    as a detected framework or tool of that name. *)
Theorem detectedTech_feeds_archetypes {cal : Calendar} (u : GitHubUser)
    (repos : list RepositoryWithLanguages) (oracle : nat -> Z) (n : nat) :
  let sa := fst (analyzeSkills u repos oracle n) in
  let stacks := detectFullStacks (detectedTechOf repos) in
  let ranked := rankedLanguages (languageTotals (scanRepos repos)) in
  (forall tech,
      In tech (detectedTechOf repos) <->
      frameworkDetected repos tech \/ toolDetected repos tech
      \/ In tech (leadingLanguages repos))
  /\ StronglySorted (fun a b => (percentage b <= percentage a)%Q) ranked
  /\ Permutation (map tl_language ranked) (distinctLanguages repos)
  /\ (forall entry, In entry ranked ->
        percentage entry = languageShare repos (tl_language entry))
  /\ leadingLanguages repos = firstn 5 (map tl_language ranked)
  /\ List.length (leadingLanguages repos)
     = Nat.min 5 (List.length (distinctLanguages repos))
  /\ NoDup (leadingLanguages repos)
  /\ incl (leadingLanguages repos) (distinctLanguages repos)
  /\ (forall lead other,
        In lead (leadingLanguages repos) -> In other (distinctLanguages repos) ->
        ~ In other (leadingLanguages repos) ->
        (languageShare repos other <= languageShare repos lead)%Q)
  /\ (forall tool,
        In tool ["Git"; "CI/CD"; "Ansible"] -> In tool (detectedTechOf repos) ->
        In tool (leadingLanguages repos))
  /\ (forall i lang,
        (5 <= i)%nat ->
        nth_error ranked i = Some lang ->
        In (tl_language lang) (detectedTechOf repos) ->
        frameworkDetected repos (tl_language lang) \/ toolDetected repos (tl_language lang))
  /\ primary (techStack sa) =
     if (0 <? List.length stacks)%nat then stacks
     else map tl_language (firstn 3 (topLanguages sa)).
Proof.
  destruct (analyzeSkills_run u repos oracle n) as (level & active & age & n' & ->).
  cbn [fst techStack topLanguages]. cbv zeta.
  set (ranked := rankedLanguages (languageTotals (scanRepos repos))).
  assert (Hperm : Permutation (map tl_language ranked) (distinctLanguages repos)).
  { rewrite <- languageTotals_keys. apply rankedLanguages_names. }
  assert (Hsorted : StronglySorted (fun a b => (percentage b <= percentage a)%Q) ranked)
    by apply rankedLanguages_descending.
  assert (Hnodup : NoDup (map tl_language ranked)) by apply rankedLanguages_NoDup.
  assert (Hlead : leadingLanguages repos = firstn 5 (map tl_language ranked)).
  { unfold leadingLanguages. fold ranked. now rewrite firstn_map. }
  split; [intros tech; apply detectedTechOf_In|].
  split; [exact Hsorted|].
  split; [exact Hperm|].
  split; [intros entry Hentry; now apply rankedLanguages_share|].
  split; [exact Hlead|].
  split.
  { rewrite Hlead, length_firstn, <- (Permutation_length Hperm). reflexivity. }
  split; [rewrite Hlead; now apply firstn_NoDup|].
  split.
  { intros x Hx. rewrite Hlead in Hx. apply firstn_In_full in Hx.
    now apply (Permutation_in _ Hperm). }
  split.
  { intros lead other Hin Hother Hout.
    unfold leadingLanguages in Hin, Hout. fold ranked in Hin, Hout.
    apply in_map_iff in Hin. destruct Hin as (e1 & <- & He1).
    apply (Permutation_in _ (Permutation_sym Hperm)) in Hother.
    apply in_map_iff in Hother. destruct Hother as (e2 & <- & He2).
    assert (Hsuffix : In e2 (skipn 5 ranked)).
    { rewrite <- (firstn_skipn 5 ranked) in He2. apply in_app_or in He2.
      destruct He2 as [He2 | He2]; [|exact He2].
      exfalso. apply Hout. now apply in_map. }
    rewrite <- (rankedLanguages_share repos e1) by now apply firstn_In_full in He1.
    rewrite <- (rankedLanguages_share repos e2) by exact He2.
    exact (StronglySorted_prefix_suffix _ ranked 5 e1 e2 Hsorted He1 Hsuffix). }
  split.
  { intros tool Htool Hin. apply detectedTechOf_In in Hin.
    destruct Hin as [(repo & k & _ & Hk & _) | [(repo & _ & Hcase) | Hlang]];
      [exfalso | exfalso | exact Hlang].
    + simpl in Htool, Hk.
      repeat (destruct Hk as [Hk | Hk]; [injection Hk as Hk _; subst tool; simpl in Htool;
                                         intuition discriminate|]).
      exact Hk.
    + simpl in Htool.
      destruct Hcase as [[-> _] | [[-> _] | [-> _]]]; intuition discriminate. }
  split.
  { intros i lang Hi Hnth Hin. apply detectedTechOf_In in Hin.
    destruct Hin as [Hf | [Ht | Hlang]]; [now left | now right | exfalso].
    revert Hlang. unfold leadingLanguages.
    apply (beyond_prefix tl_language _ 5 i lang);
      [apply rankedLanguages_NoDup | exact Hnth | exact Hi]. }
  reflexivity.
Qed.

Lemma detectedTech_feeds_archetypes_witness :
  tools (techStackOf [repoInfra]) = ["Git"; "CI/CD"; "Ansible"]
  /\ (forall tool,
        In tool ["Git"; "CI/CD"; "Ansible"] -> In tool (detectedTechOf [repoInfra]) ->
        In tool (leadingLanguages [repoInfra]))
  /\ ~ In "Git" (detectedTechOf [repoInfra]).
Proof.
  split; [vm_compute; reflexivity|]. split.
  - apply (detectedTech_feeds_archetypes (cal := sampleCalendar) sampleUser [repoInfra]
             (fun _ => sampleNow) 0%nat).
  - vm_compute. intuition discriminate.
Defined.

(** ** Stack archetypes *)

Lemma detectFullStacks_rules (detected : list string) :
  detectFullStacks detected =
  let has := setHas detected in
  sliceTo 4
    (ruleFullStack has
       (ruleSpringStack has
          (ruleDjangoStack has
             (ruleNodeStack has
                (ruleAngularStack has
                   (ruleVueStack has
                      (ruleReactStack has (patternStacks (map toLowerCase detected))))))))).
Proof. reflexivity. Qed.

Lemma patternStacks_fresh (techArray : list string) (table : list (string * list string))
    (acc : list string) :
  NoDup (acc ++ map fst table) ->
  freshWithin (acc ++ map fst table)
    (fold_left
       (fun stacks '(stackName, components) =>
          let matches := filter (componentMatches techArray) components in
          let threshold := if (4 <=? List.length components)%nat then 3%nat else 2%nat in
          if (threshold <=? List.length matches)%nat then stacks ++ [stackName] else stacks)
       table acc).
Proof.
  revert acc. induction table as [|[stackName components] table IH]; intros acc Hnodup.
  - simpl in *. rewrite app_nil_r in *. split; [exact Hnodup | apply incl_refl].
  - cbn [fold_left map fst] in *. cbv zeta.
    destruct (_ <=? List.length (filter _ components))%nat.
    + specialize (IH (acc ++ [stackName])). rewrite <- app_assoc in IH. apply IH, Hnodup.
    + destruct (IH acc (NoDup_remove_1 _ _ _ Hnodup)) as [Hn Hi]. split; [exact Hn|].
      intros x Hx. apply Hi in Hx. apply in_app_or in Hx. apply in_or_app.
      destruct Hx as [Hx | Hx]; [now left | right; now right].
Qed.

Lemma freshWithin_keep (seen seen' stacks : list string) :
  freshWithin seen stacks -> incl seen seen' -> freshWithin seen' stacks.
Proof. intros [Hn Hi] Hincl. split; [exact Hn | now apply incl_tran with seen]. Qed.

Lemma freshWithin_add (seen seen' stacks : list string) (x : string) :
  freshWithin seen stacks -> ~ In x seen -> incl (x :: seen) seen' ->
  freshWithin seen' (stacks ++ [x]).
Proof.
  intros [Hn Hi] Hfresh Hincl. split.
  - apply NoDup_app; [exact Hn | constructor; [intros [] | constructor] |].
    intros y Hy [<- | []]. apply Hfresh. now apply Hi.
  - intros y Hy. apply Hincl. apply in_app_or in Hy.
    destruct Hy as [Hy | [<- | []]]; [right; now apply Hi | now left].
Qed.

Ltac catalogue_incl := let y := fresh in let Hy := fresh in intros y Hy; simpl in *; tauto.
Ltac catalogue_fresh := simpl; intuition discriminate.
Ltac stage_keep H := apply (freshWithin_keep _ _ _ H); catalogue_incl.
Ltac stage_add H :=
  apply (freshWithin_add _ _ _ _ H); [catalogue_fresh | catalogue_incl].

Lemma detectFullStacks_full_fresh (detected : list string) :
  let has := setHas detected in
  freshWithin stackCatalogue
    (ruleFullStack has
       (ruleSpringStack has
          (ruleDjangoStack has
             (ruleNodeStack has
                (ruleAngularStack has
                   (ruleVueStack has
                      (ruleReactStack has (patternStacks (map toLowerCase detected))))))))).
Proof.
  intros has.
  assert (H0 : freshWithin (map fst stackPatterns)
                 (patternStacks (map toLowerCase detected))).
  { unfold patternStacks.
    apply (patternStacks_fresh (map toLowerCase detected) stackPatterns []).
    simpl. repeat (constructor; [simpl; intuition discriminate|]). constructor. }
  set (s0 := patternStacks (map toLowerCase detected)) in *. clearbody s0.
  assert (H1 : freshWithin (firstn 11 stackCatalogue) (ruleReactStack has s0)).
  { unfold ruleReactStack.
    destruct (has "React"); [|stage_keep H0].
    destruct (has "Vite"); [stage_add H0|].
    destruct (has "Next.js"); [stage_add H0 | stage_keep H0]. }
  set (s1 := ruleReactStack has s0) in *. clearbody s1. clear H0.
  assert (H2 : freshWithin (firstn 12 stackCatalogue) (ruleVueStack has s1)).
  { unfold ruleVueStack. destruct (has "Vue" && has "Vite"); [stage_add H1 | stage_keep H1]. }
  set (s2 := ruleVueStack has s1) in *. clearbody s2. clear H1.
  assert (H3 : freshWithin (firstn 13 stackCatalogue) (ruleAngularStack has s2)).
  { unfold ruleAngularStack. destruct (has "Angular"); [stage_add H2 | stage_keep H2]. }
  set (s3 := ruleAngularStack has s2) in *. clearbody s3. clear H2.
  assert (H4 : freshWithin (firstn 15 stackCatalogue) (ruleNodeStack has s3)).
  { unfold ruleNodeStack. destruct (has "Node" || has "Express"); [|stage_keep H3].
    destruct (has "TypeScript"); stage_add H3. }
  set (s4 := ruleNodeStack has s3) in *. clearbody s4. clear H3.
  assert (H5 : freshWithin (firstn 16 stackCatalogue) (ruleDjangoStack has s4)).
  { unfold ruleDjangoStack. destruct (has "Django"); [stage_add H4 | stage_keep H4]. }
  set (s5 := ruleDjangoStack has s4) in *. clearbody s5. clear H4.
  assert (H6 : freshWithin (firstn 17 stackCatalogue) (ruleSpringStack has s5)).
  { unfold ruleSpringStack. destruct (has "Spring"); [stage_add H5 | stage_keep H5]. }
  set (s6 := ruleSpringStack has s5) in *. clearbody s6. clear H5.
  unfold ruleFullStack.
  destruct (_ && _ && negb (arrIncludes s6 "MERN") && negb (arrIncludes s6 "PERN"));
    [|stage_keep H6].
  destruct (has "MongoDB"); [stage_add H6|].
  destruct (has "PostgreSQL"); [stage_add H6 | stage_keep H6].
Qed.

(** X5: [detectFullStacks] returns at most four names, none twice, each one
    of the nineteen names of the catalogue (nine pattern names and ten
    composite names); without any detected technology it returns none.  In
    the returned analysis [primary] therefore has at most four entries and
    [secondary] at most three, both without duplicates. *)
Theorem detectFullStacks_bounded_distinct {cal : Calendar} (u : GitHubUser)
    (repos : list RepositoryWithLanguages) (oracle : nat -> Z) (n : nat)
    (detected : list string) :
  let ts := techStack (fst (analyzeSkills u repos oracle n)) in
  (List.length (detectFullStacks detected) <= 4)%nat
  /\ NoDup (detectFullStacks detected)
  /\ incl (detectFullStacks detected) stackCatalogue
  /\ detectFullStacks [] = []
  /\ (List.length (primary ts) <= 4)%nat /\ NoDup (primary ts)
  /\ (List.length (secondary ts) <= 3)%nat /\ NoDup (secondary ts).
Proof.
  assert (Hstacks : forall d,
             (List.length (detectFullStacks d) <= 4)%nat /\ NoDup (detectFullStacks d)
             /\ incl (detectFullStacks d) stackCatalogue).
  { intros d. rewrite detectFullStacks_rules. cbv zeta.
    destruct (detectFullStacks_full_fresh d) as [Hn Hi]. unfold sliceTo.
    split; [apply firstn_le_length|]. split; [now apply firstn_NoDup|].
    intros x Hx. apply Hi. now apply (firstn_In_full 4). }
  destruct (Hstacks detected) as (Hlen & Hnodup & Hincl).
  rewrite analyzeSkills_techStack. unfold techStackOf. cbv zeta. cbn [primary secondary].
  pose proof (rankedLanguages_NoDup repos) as Hranked.
  repeat split; try assumption.
  - destruct (0 <? _)%nat; [apply Hstacks|].
    rewrite length_map. unfold sliceTo.
    etransitivity; [apply firstn_le_length | lia].
  - destruct (0 <? _)%nat; [apply Hstacks|].
    unfold topLanguagesOf, sliceTo. rewrite firstn_firstn, <- firstn_map.
    now apply firstn_NoDup.
  - rewrite length_map. unfold slice. etransitivity; [apply firstn_le_length | lia].
  - unfold slice, topLanguagesOf, sliceTo. rewrite <- firstn_map, <- skipn_map, <- firstn_map.
    apply firstn_NoDup.
    assert (Hskip : forall (l : list string) k, NoDup l -> NoDup (skipn k l)).
    { intros l k Hl. rewrite <- (firstn_skipn k l) in Hl. now apply NoDup_app_remove_l in Hl. }
    apply Hskip. now apply firstn_NoDup.
Qed.

(** ** Content of the three tiers of the stack depth *)

Lemma bumpUsage_addBytes (usage : list (string * Z)) (key : string) :
  bumpUsage usage key = addBytes usage key 1.
Proof.
  induction usage as [|[k count] usage IH]; simpl; [reflexivity|].
  now rewrite IH.
Qed.

Lemma usageStep_facts (text : string) (recent : bool) (tech : string)
    (table : list (string * list string)) (scan : UsageScan) :
  let scan' :=
    fold_left
      (fun scan '(framework, keywords) =>
         if someKeyword keywords text then
           {| frameworkUsage := bumpUsage (frameworkUsage scan) framework;
              recentFrameworks :=
                if recent then setAdd (recentFrameworks scan) framework
                else recentFrameworks scan |}
         else scan)
      table scan in
  (NoDup (map fst (frameworkUsage scan)) -> NoDup (map fst (frameworkUsage scan')))
  /\ (Forall (fun entry => 1 <= snd entry) (frameworkUsage scan) ->
      Forall (fun entry => 1 <= snd entry) (frameworkUsage scan'))
  /\ (incl (recentFrameworks scan) (map fst (frameworkUsage scan)) ->
      incl (recentFrameworks scan') (map fst (frameworkUsage scan')))
  /\ totalOf (frameworkUsage scan') tech
     = totalOf (frameworkUsage scan) tech + tableHits text tech table.
Proof.
  revert scan. induction table as [|[framework keywords] table IH]; intros scan; cbv zeta.
  - simpl. unfold tableHits. simpl. repeat split; try tauto. lia.
  - cbn [fold_left]. specialize (IH
      (if someKeyword keywords text then
         {| frameworkUsage := bumpUsage (frameworkUsage scan) framework;
            recentFrameworks :=
              if recent then setAdd (recentFrameworks scan) framework
              else recentFrameworks scan |}
       else scan)).
    cbv zeta in IH. destruct IH as (Hn & Hp & Hr & Ht).
    unfold tableHits in *. cbn [filter fst snd].
    destruct (someKeyword keywords text) eqn:Hmatch.
    + cbn [frameworkUsage recentFrameworks] in *.
      rewrite bumpUsage_addBytes in *. split; [|split; [|split]].
      * intros Hs. apply Hn. rewrite addBytes_keys. unfold setAdd. now apply set_add_nodup.
      * intros Hs. apply Hp. clear - Hs.
        induction Hs as [|[k v] usage Hv Htail IHs]; simpl.
        -- constructor; [simpl; lia | constructor].
        -- destruct (String.eqb k framework); constructor; simpl in *; try lia; assumption.
      * intros Hs. apply Hr. rewrite addBytes_keys.
        intros x Hx. apply setAdd_In.
        destruct recent; [apply setAdd_In in Hx; destruct Hx as [-> | Hx]|];
          [now left | right; now apply Hs | right; now apply Hs].
      * rewrite Ht, addBytes_totalOf. rewrite andb_true_r.
        destruct (String.eqb framework tech); simpl List.length; lia.
    + rewrite andb_false_r. tauto.
Qed.

Lemma scanUsage_table_facts (recentCutoff : Z) (table : list (string * list string))
    (tech : string) (repos : list RepositoryWithLanguages) (scan0 : UsageScan) :
  let scan :=
    fold_left
      (fun scan repo =>
         let text := searchText repo in
         fold_left
           (fun scan '(framework, keywords) =>
              if someKeyword keywords text then
                {| frameworkUsage := bumpUsage (frameworkUsage scan) framework;
                   recentFrameworks :=
                     if updated_at repo >=? recentCutoff
                     then setAdd (recentFrameworks scan) framework
                     else recentFrameworks scan |}
              else scan)
           table scan)
      repos scan0 in
  (NoDup (map fst (frameworkUsage scan0)) ->
   Forall (fun entry => 1 <= snd entry) (frameworkUsage scan0) ->
   incl (recentFrameworks scan0) (map fst (frameworkUsage scan0)) ->
   NoDup (map fst (frameworkUsage scan))
   /\ Forall (fun entry => 1 <= snd entry) (frameworkUsage scan)
   /\ incl (recentFrameworks scan) (map fst (frameworkUsage scan)))
  /\ totalOf (frameworkUsage scan) tech
     = totalOf (frameworkUsage scan0) tech
       + sumZ (map (fun repo => tableHits (searchText repo) tech table) repos).
Proof.
  revert scan0. induction repos as [|repo repos IH]; intros scan0; cbv zeta.
  - cbn [fold_left map]. unfold sumZ. cbn [fold_right]. split; [tauto | lia].
  - cbn [fold_left map].
    pose proof (usageStep_facts (searchText repo) (updated_at repo >=? recentCutoff) tech
                  table scan0) as Hstep.
    cbv zeta in Hstep, IH. destruct Hstep as (Hn & Hp & Hr & Ht).
    match goal with
    | |- context [fold_left _ repos ?s1] => destruct (IH s1) as [Hinv Htot]
    end.
    split.
    + intros H1 H2 H3. apply Hinv; [now apply Hn | now apply Hp | now apply Hr].
    + rewrite Htot, Ht. unfold sumZ. cbn [fold_right]. lia.
Qed.

Lemma scanUsage_facts (recentCutoff : Z) (repos : list RepositoryWithLanguages)
    (tech : string) :
  let scan := scanUsage recentCutoff repos in
  NoDup (map fst (frameworkUsage scan))
  /\ Forall (fun entry => 1 <= snd entry) (frameworkUsage scan)
  /\ incl (recentFrameworks scan) (map fst (frameworkUsage scan))
  /\ totalOf (frameworkUsage scan) tech
     = sumZ (map (fun repo => tableHits (searchText repo) tech frameworkKeywords) repos).
Proof.
  unfold scanUsage. generalize frameworkKeywords. intros table.
  destruct (scanUsage_table_facts recentCutoff table tech repos
              {| frameworkUsage := []; recentFrameworks := [] |}) as [Hinv Htot].
  cbv zeta in Hinv, Htot |- *. cbn [frameworkUsage recentFrameworks map] in Hinv.
  destruct (Hinv (NoDup_nil _) (Forall_nil _) (incl_refl _)) as (H1 & H2 & H3).
  split; [exact H1|]. split; [exact H2|]. split; [exact H3|].
  rewrite Htot. cbn [frameworkUsage]. unfold totalOf. cbn [find]. lia.
Qed.

Lemma frameworkKeywords_NoDup : NoDup (map fst frameworkKeywords).
Proof.
  simpl. repeat (constructor; [simpl; intuition discriminate|]). constructor.
Qed.

Lemma tableHits_absent (text tech : string) (table : list (string * list string)) :
  ~ In tech (map fst table) -> tableHits text tech table = 0.
Proof.
  unfold tableHits. induction table as [|[k kws] table IH]; intros Hnot; [reflexivity|].
  simpl in *. destruct (String.eqb k tech) eqn:Hk.
  - apply String.eqb_eq in Hk. tauto.
  - simpl. apply IH. tauto.
Qed.

Lemma tableHits_unique (text tech : string) (table : list (string * list string)) :
  NoDup (map fst table) ->
  tableHits text tech table
  = if someKeyword
         match find (fun entry => String.eqb (fst entry) tech) table with
         | Some entry => snd entry
         | None => []
         end text
    then 1 else 0.
Proof.
  induction table as [|[k kws] table IH]; intros Hnodup; [reflexivity|].
  inversion Hnodup as [|? ? Hnotin Hnodup']; subst.
  unfold tableHits in *. cbn [filter find fst snd].
  destruct (String.eqb k tech) eqn:Hk.
  - apply String.eqb_eq in Hk. subst k. cbn [andb].
    pose proof (tableHits_absent text tech table Hnotin) as Hzero. unfold tableHits in Hzero.
    cbn [fst snd]. destruct (someKeyword kws text); cbn [List.length]; lia.
  - cbn [andb]. now apply IH.
Qed.

Lemma sumZ_indicator {A} (p : A -> bool) (l : list A) :
  sumZ (map (fun x => if p x then 1 else 0) l) = Z.of_nat (List.length (filter p l)).
Proof.
  induction l as [|x l IH]; [reflexivity|].
  cbn [map filter]. unfold sumZ in *. cbn [fold_right]. rewrite IH.
  destruct (p x); cbn [List.length]; lia.
Qed.

Lemma frameworkUsage_mentions (recentCutoff : Z) (repos : list RepositoryWithLanguages)
    (tech : string) :
  totalOf (frameworkUsage (scanUsage recentCutoff repos)) tech = mentions repos tech.
Proof.
  destruct (scanUsage_facts recentCutoff repos tech) as (_ & _ & _ & ->).
  unfold mentions. rewrite <- sumZ_indicator. f_equal. apply map_ext. intros repo.
  apply (tableHits_unique _ _ _ frameworkKeywords_NoDup).
Qed.

Lemma totalOf_found (usage : list (string * Z)) (key : string) :
  totalOf usage key <> 0 -> In (key, totalOf usage key) usage.
Proof.
  unfold totalOf. destruct (find _ usage) as [[k v]|] eqn:Hfind; [|congruence].
  intros _. apply find_some in Hfind. destruct Hfind as [Hin Hk].
  apply String.eqb_eq in Hk. simpl in *. now subst k.
Qed.

Lemma promoteFrameworks_facts (usage : list (string * Z)) (core0 supporting0 : list string) :
  let result :=
    fold_left
      (fun '(coreSet, supportingSet) '(framework, count) =>
         if count >=? 2 then (setAdd coreSet framework, supportingSet)
         else (coreSet, setAdd supportingSet framework))
      usage (core0, supporting0) in
  (forall x, In x (fst result) <->
             In x core0 \/ exists count, In (x, count) usage /\ 2 <= count)
  /\ (forall x, In x (snd result) <->
                In x supporting0 \/ exists count, In (x, count) usage /\ count < 2)
  /\ (NoDup core0 -> NoDup (fst result))
  /\ (NoDup supporting0 -> NoDup (snd result)).
Proof.
  revert core0 supporting0.
  induction usage as [|[framework count] usage IH]; intros core0 supporting0; cbv zeta.
  - simpl. repeat split; try tauto; intros [H | (c & [] & _)]; exact H.
  - cbn [fold_left]. destruct (count >=? 2) eqn:Hcount.
    + apply Z.geb_le in Hcount.
      destruct (IH (setAdd core0 framework) supporting0) as (Hc & Hs & Hnc & Hns).
      split; [|split; [|split]].
      * intros x. rewrite Hc, setAdd_In. split.
        -- intros [[-> | Hin] | (c & Hin & Hc2)].
           ++ right. exists count. split; [now left | lia].
           ++ now left.
           ++ right. exists c. split; [now right | exact Hc2].
        -- intros [Hin | (c & [Heq | Hin] & Hc2)].
           ++ left. now right.
           ++ injection Heq as -> ->. left. now left.
           ++ right. now exists c.
      * intros x. rewrite Hs. split.
        -- intros [Hin | (c & Hin & Hc2)]; [now left|].
           right. exists c. split; [now right | exact Hc2].
        -- intros [Hin | (c & [Heq | Hin] & Hc2)]; [now left | | right; now exists c].
           injection Heq as -> ->. lia.
      * intros Hn. apply Hnc. unfold setAdd. now apply set_add_nodup.
      * exact Hns.
    + assert (Hlt : count < 2) by (destruct (Z.geb_spec count 2); [discriminate | lia]).
      destruct (IH core0 (setAdd supporting0 framework)) as (Hc & Hs & Hnc & Hns).
      split; [|split; [|split]].
      * intros x. rewrite Hc. split.
        -- intros [Hin | (c & Hin & Hc2)]; [now left|].
           right. exists c. split; [now right | exact Hc2].
        -- intros [Hin | (c & [Heq | Hin] & Hc2)]; [now left | | right; now exists c].
           injection Heq as -> ->. lia.
      * intros x. rewrite Hs, setAdd_In. split.
        -- intros [[-> | Hin] | (c & Hin & Hc2)].
           ++ right. exists count. split; [now left | lia].
           ++ now left.
           ++ right. exists c. split; [now right | exact Hc2].
        -- intros [Hin | (c & [Heq | Hin] & Hc2)].
           ++ left. now right.
           ++ injection Heq as -> ->. left. now left.
           ++ right. now exists c.
      * exact Hnc.
      * intros Hn. apply Hns. unfold setAdd. now apply set_add_nodup.
Qed.

Lemma supportsIfAbsent_fold (coreSet items supporting0 : list string) :
  let result := fold_left (fun acc item => supportsIfAbsent item coreSet acc) items supporting0 in
  (forall x, In x result <-> In x supporting0 \/ (In x items /\ ~ In x coreSet))
  /\ (NoDup supporting0 -> NoDup result).
Proof.
  revert supporting0. induction items as [|item items IH]; intros supporting0; cbv zeta.
  - simpl. split; [tauto | tauto].
  - cbn [fold_left]. destruct (IH (supportsIfAbsent item coreSet supporting0)) as [Hin Hn].
    unfold supportsIfAbsent in *.
    destruct (setHas coreSet item) eqn:Hhas; cbn [negb] in *.
    + apply setHas_true in Hhas. split; [|exact Hn].
      intros x. rewrite Hin. simpl. split; [|intuition congruence].
      intros [H | [Hx Hnot]]; [now left | right; split; [now right | exact Hnot]].
    + apply setHas_false in Hhas. split.
      * intros x. rewrite Hin, setAdd_In. simpl. intuition congruence.
      * intros Hs. apply Hn. unfold setAdd. now apply set_add_nodup.
Qed.

Lemma emergingFrameworks_none (coreSet supportingSet recent acc : list string) :
  (forall x, In x recent -> In x coreSet \/ In x supportingSet) ->
  fold_left
    (fun acc framework =>
       if negb (setHas coreSet framework) && negb (setHas supportingSet framework)
       then setAdd acc framework else acc)
    recent acc = acc.
Proof.
  revert acc. induction recent as [|framework recent IH]; intros acc Hcover; [reflexivity|].
  cbn [fold_left].
  destruct (Hcover framework (or_introl eq_refl)) as [Hc | Hs].
  - apply setHas_true in Hc. rewrite Hc. simpl. apply IH. intros x Hx. apply Hcover. now right.
  - apply setHas_true in Hs. rewrite Hs, andb_false_r. apply IH.
    intros x Hx. apply Hcover. now right.
Qed.

Lemma emergingLanguages_facts (recentCutoff : Z) (coreSet supportingSet : list string)
    (repos : list RepositoryWithLanguages) (acc : list string) :
  (forall x, In x (emergingLanguages recentCutoff coreSet supportingSet repos acc) <->
             In x acc
             \/ (recentLanguage recentCutoff repos x
                 /\ ~ In x coreSet /\ ~ In x supportingSet))
  /\ (NoDup acc -> NoDup (emergingLanguages recentCutoff coreSet supportingSet repos acc)).
Proof.
  unfold emergingLanguages, recentLanguage.
  revert acc. induction repos as [|repo repos IH]; intros acc.
  - simpl. split; [|tauto]. intros x. split; [now left|].
    intros [H | ((r & [] & _) & _)]. exact H.
  - cbn [fold_left].
    match goal with
    | |- context [fold_left _ repos ?acc'] => destruct (IH acc') as [Hin Hn]
    end.
    assert (Hskip : forall x,
               (In x acc \/ (exists r, In r repos /\ language r = Some x /\ x <> EmptyString
                                       /\ (recentCutoff <= updated_at r
                                           \/ recentCutoff <= created_at r))
                            /\ ~ In x coreSet /\ ~ In x supportingSet)
               -> In x acc
                  \/ (exists r, In r (repo :: repos) /\ language r = Some x
                                /\ x <> EmptyString
                                /\ (recentCutoff <= updated_at r
                                    \/ recentCutoff <= created_at r))
                     /\ ~ In x coreSet /\ ~ In x supportingSet).
    { intros x [H | ((r & Hr & Hrest) & Hout)]; [now left|].
      right. split; [|exact Hout]. exists r. split; [now right | exact Hrest]. }
    destruct (language repo) as [lang|] eqn:Hlang.
    + destruct (negb ((updated_at repo >=? recentCutoff) || (created_at repo >=? recentCutoff))
                || String.eqb lang EmptyString) eqn:Hguard.
      * split; [|exact Hn]. intros x. rewrite Hin. split; [apply Hskip|].
        intros [H | ((r & [<- | Hr] & Hl & Hne & Hrecent) & Hout)]; [now left | |].
        -- exfalso. rewrite Hlang in Hl. injection Hl as ->.
           apply orb_true_iff in Hguard. destruct Hguard as [Hold | Hempty].
           ++ apply negb_true_iff, orb_false_iff in Hold. destruct Hold as [H1 H2].
              destruct (Z.geb_spec (updated_at repo) recentCutoff); [discriminate|].
              destruct (Z.geb_spec (created_at repo) recentCutoff); [discriminate|]. lia.
           ++ apply String.eqb_eq in Hempty. contradiction.
        -- right. split; [|exact Hout]. now exists r.
      * apply orb_false_iff in Hguard. destruct Hguard as [Hrecent Hne].
        apply negb_false_iff, orb_true_iff in Hrecent.
        assert (Hrecent' : recentCutoff <= updated_at repo \/ recentCutoff <= created_at repo).
        { destruct Hrecent as [H | H]; apply Z.geb_le in H; [now left | now right]. }
        apply String.eqb_neq in Hne.
        destruct (negb (setHas coreSet lang) && negb (setHas supportingSet lang)) eqn:Hout.
        -- apply andb_true_iff in Hout. destruct Hout as [Hc Hs].
           apply negb_true_iff, setHas_false in Hc. apply negb_true_iff, setHas_false in Hs.
           split.
           ++ intros x. rewrite Hin, setAdd_In. split.
              ** intros [[-> | H] | Hrest].
                 --- right. split; [|now split]. exists repo. split; [now left | now split].
                 --- now left.
                 --- apply Hskip. now right.
              ** intros [H | ((r & [<- | Hr] & Hl & Hne' & Hrec) & Hout)].
                 --- left. now right.
                 --- rewrite Hlang in Hl. injection Hl as ->. left. now left.
                 --- right. split; [|exact Hout]. now exists r.
           ++ intros Hacc. apply Hn. unfold setAdd. now apply set_add_nodup.
        -- split; [|exact Hn]. intros x. rewrite Hin. split; [apply Hskip|].
           intros [H | ((r & [<- | Hr] & Hl & Hne' & Hrec) & Hc & Hs)]; [now left | |].
           ++ exfalso. rewrite Hlang in Hl. injection Hl as ->.
              apply andb_false_iff in Hout.
              destruct Hout as [H | H]; apply negb_false_iff, setHas_true in H; contradiction.
           ++ right. split; [|now split]. now exists r.
    + split; [|exact Hn]. intros x. rewrite Hin. split; [apply Hskip|].
      intros [H | ((r & [<- | Hr] & Hl & Hrest) & Hout)]; [now left | congruence |].
      right. split; [|exact Hout]. now exists r.
Qed.

Lemma setFrom_In (values : list string) (x : string) : In x (setFrom values) <-> In x values.
Proof.
  unfold setFrom.
  assert (Hfold : forall acc, In x (fold_left setAdd values acc) <-> In x acc \/ In x values).
  { induction values as [|v values IH]; intros acc; simpl; [tauto|].
    rewrite IH, setAdd_In. intuition congruence. }
  rewrite Hfold. simpl. tauto.
Qed.

Lemma deriveStackDepthAt_tiers (recentCutoff : Z) (ts : TechStack)
    (repos : list RepositoryWithLanguages) :
  let depth := deriveStackDepthAt recentCutoff ts repos in
  (forall x, In x (core depth) <-> In x (firstn 4 (primary ts)) \/ 2 <= mentions repos x)
  /\ (forall x, In x (supporting depth) <->
                ~ In x (core depth)
                /\ (mentions repos x = 1 \/ In x (secondary ts) \/ In x (tools ts)))
  /\ (forall x, In x (emerging depth) <->
                recentLanguage recentCutoff repos x
                /\ ~ In x (core depth) /\ ~ In x (supporting depth))
  /\ NoDup (core depth) /\ NoDup (supporting depth) /\ NoDup (emerging depth).
Proof.
  unfold deriveStackDepthAt, promoteFrameworks.
  pose proof (promoteFrameworks_facts (frameworkUsage (scanUsage recentCutoff repos))
                (setFrom (sliceTo 4 (primary ts))) []) as Hpromote.
  cbv zeta in Hpromote.
  destruct (fold_left _ (frameworkUsage (scanUsage recentCutoff repos)) _)
    as [coreSet supporting0].
  cbn [fst snd] in Hpromote. destruct Hpromote as (Hcore & Hsupp0 & Hncore & Hnsupp0).
  destruct (scanUsage_facts recentCutoff repos EmptyString) as (Hkeys & Hpos & Hrecent & _).
  cbv zeta in Hkeys, Hpos, Hrecent.
  assert (Hentry : forall x count,
             In (x, count) (frameworkUsage (scanUsage recentCutoff repos)) ->
             count = mentions repos x /\ 1 <= count).
  { intros x count Hin. split.
    - rewrite <- (frameworkUsage_mentions recentCutoff). symmetry.
      now apply totalOf_entry.
    - rewrite Forall_forall in Hpos. exact (Hpos _ Hin). }
  assert (Hfound : forall x, mentions repos x <> 0 ->
             In (x, mentions repos x) (frameworkUsage (scanUsage recentCutoff repos))).
  { intros x Hx. rewrite <- (frameworkUsage_mentions recentCutoff) in *.
    now apply totalOf_found. }
  assert (Hcore' : forall x, In x coreSet <->
                             In x (firstn 4 (primary ts)) \/ 2 <= mentions repos x).
  { intros x. rewrite Hcore, setFrom_In. unfold sliceTo. split.
    - intros [H | (count & Hin & Hc)]; [now left|].
      right. destruct (Hentry _ _ Hin) as [-> _]. exact Hc.
    - intros [H | Hc]; [now left|]. right. exists (mentions repos x).
      split; [apply Hfound; lia | exact Hc]. }
  assert (Hsupp0' : forall x, In x supporting0 <-> mentions repos x = 1).
  { intros x. rewrite Hsupp0. split.
    - intros [[] | (count & Hin & Hc)]. destruct (Hentry _ _ Hin) as [-> H1]. lia.
    - intros H1. right. exists (mentions repos x). split; [apply Hfound; lia | lia]. }
  destruct (supportsIfAbsent_fold coreSet (secondary ts) supporting0) as [Hs1 Hn1].
  cbv zeta in Hs1, Hn1.
  set (supporting1 :=
         fold_left (fun acc item => supportsIfAbsent item coreSet acc) (secondary ts)
           supporting0) in *.
  destruct (supportsIfAbsent_fold coreSet (tools ts) supporting1) as [Hs2 Hn2].
  cbv zeta in Hs2, Hn2.
  set (supporting2 :=
         fold_left (fun acc tool => supportsIfAbsent tool coreSet acc) (tools ts)
           supporting1) in *.
  cbv zeta. cbn [core supporting emerging].
  rewrite emergingFrameworks_none.
  2:{ intros x Hx. apply Hrecent in Hx. apply in_map_iff in Hx.
      destruct Hx as ([k count] & <- & Hin). simpl.
      destruct (Hentry _ _ Hin) as [Hcount Hone].
      destruct (Z.le_gt_cases 2 count) as [Hge | Hlt].
      - left. apply Hcore'. right. lia.
      - right. apply Hs2. left. apply Hs1. left. apply Hsupp0'. lia. }
  destruct (emergingLanguages_facts recentCutoff coreSet supporting2 repos []) as [Hem Hnem].
  assert (Hfiltered : forall x,
             In x (filter (fun item => negb (setHas coreSet item)) supporting2) <->
             ~ In x coreSet
             /\ (mentions repos x = 1 \/ In x (secondary ts) \/ In x (tools ts))).
  { intros x. rewrite filter_In, negb_true_iff, setHas_false, Hs2, Hs1, Hsupp0'. tauto. }
  split; [exact Hcore'|]. split; [exact Hfiltered|]. split.
  - intros x. rewrite Hem, Hfiltered, Hs2, Hs1, Hsupp0'. simpl. tauto.
  - split; [apply Hncore, setFrom_NoDup; constructor|]. split.
    + apply NoDup_filter, Hn2, Hn1, Hnsupp0. constructor.
    + apply Hnem. constructor.
Qed.

(** X6: the content of the three tiers.  [core] holds the first four
    [primary] entries and the technologies mentioned by at least two
    repositories; [supporting] holds, outside [core], the technologies
    mentioned by exactly one repository, the [secondary] languages and the
    [tools]; [emerging] holds the primary languages of the repositories
    updated or created since the cutoff that are in neither of the other
    tiers, and nothing else: a recently mentioned framework is never
    emerging on that account.  No tier lists a name twice. *)
Theorem stackDepth_tiers {cal : Calendar} (u : GitHubUser)
    (repos : list RepositoryWithLanguages) (oracle : nat -> Z) (n : nat) :
  let sa := fst (analyzeSkills u repos oracle n) in
  let ts := techStack sa in
  let depth := stackDepth sa in
  (forall x, In x (core depth) <-> In x (firstn 4 (primary ts)) \/ 2 <= mentions repos x)
  /\ (forall x, In x (supporting depth) <->
                ~ In x (core depth)
                /\ (mentions repos x = 1 \/ In x (secondary ts) \/ In x (tools ts)))
  /\ (forall x, In x (emerging depth) <->
                recentLanguage (monthsBefore 12 (oracle n)) repos x
                /\ ~ In x (core depth) /\ ~ In x (supporting depth))
  /\ NoDup (core depth) /\ NoDup (supporting depth) /\ NoDup (emerging depth).
Proof.
  destruct (analyzeSkills_run u repos oracle n) as (level & active & age & n' & ->).
  cbn [fst techStack stackDepth]. apply deriveStackDepthAt_tiers.
Qed.

(** ** Experience level *)

Lemma determineExperienceLevel_bands (accountAge : Q) (totalProjects activeProjects : Z)
    (avgStars : Q) :
  determineExperienceLevel accountAge totalProjects activeProjects avgStars
  = levelOfScore (ageBand accountAge + projectBand totalProjects
                  + activityBand activeProjects + starBand avgStars).
Proof.
  unfold determineExperienceLevel, ageBand, projectBand, activityBand, starBand. cbv zeta.
  destruct (Qle_bool 7 accountAge); [|destruct (Qle_bool 5 accountAge);
    [|destruct (Qle_bool 3 accountAge); [|destruct (Qle_bool 1 accountAge)]]];
  (destruct (totalProjects >=? 100); [|destruct (totalProjects >=? 50);
     [|destruct (totalProjects >=? 20); [|destruct (totalProjects >=? 10)]]]);
  (destruct (activeProjects >=? 20); [|destruct (activeProjects >=? 10);
     [|destruct (activeProjects >=? 5)]]);
  (destruct (Qle_bool 100 avgStars); [|destruct (Qle_bool 50 avgStars);
     [|destruct (Qle_bool 20 avgStars); [|destruct (Qle_bool 5 avgStars)]]]);
  reflexivity.
Qed.

Lemma Qle_bool_mono (bound a b : Q) :
  (a <= b)%Q -> Qle_bool bound a = true -> Qle_bool bound b = true.
Proof. rewrite !Qle_bool_iff. intros Hab Ha. now apply Qle_trans with a. Qed.

Lemma Qle_bool_false (bound a : Q) : Qle_bool bound a = false -> (a < bound)%Q.
Proof.
  intros Hf. apply Qnot_le_lt. intros Hle. apply Qle_bool_iff in Hle. congruence.
Qed.

Lemma ageBand_range (a : Q) : 0 <= ageBand a <= 4.
Proof. unfold ageBand. repeat (destruct (Qle_bool _ a)); lia. Qed.

Lemma starBand_range (a : Q) : 0 <= starBand a <= 4.
Proof. unfold starBand. repeat (destruct (Qle_bool _ a)); lia. Qed.

Lemma projectBand_range (t : Z) : 0 <= projectBand t <= 4.
Proof. unfold projectBand. repeat (destruct (t >=? _)); lia. Qed.

Lemma activityBand_range (t : Z) : 0 <= activityBand t <= 3.
Proof. unfold activityBand. repeat (destruct (t >=? _)); lia. Qed.

Ltac band_mono a b :=
  repeat match goal with
         | |- context [Qle_bool ?k a] =>
             let E := fresh in
             destruct (Qle_bool k a) eqn:E;
             [rewrite (Qle_bool_mono k a b) by assumption|]
         | |- context [Qle_bool ?k b] => destruct (Qle_bool k b)
         end; lia.

Lemma ageBand_mono (a b : Q) : (a <= b)%Q -> ageBand a <= ageBand b.
Proof. intros Hab. unfold ageBand. band_mono a b. Qed.

Lemma starBand_mono (a b : Q) : (a <= b)%Q -> starBand a <= starBand b.
Proof. intros Hab. unfold starBand. band_mono a b. Qed.

Lemma projectBand_mono (a b : Z) : a <= b -> projectBand a <= projectBand b.
Proof.
  intros Hab. unfold projectBand.
  repeat match goal with
         | |- context [?x >=? ?k] => destruct (Z.geb_spec x k)
         end; lia.
Qed.

Lemma activityBand_mono (a b : Z) : a <= b -> activityBand a <= activityBand b.
Proof.
  intros Hab. unfold activityBand.
  repeat match goal with
         | |- context [?x >=? ?k] => destruct (Z.geb_spec x k)
         end; lia.
Qed.

Lemma levelOfScore_mono (a b : Z) : a <= b -> levelRank (levelOfScore a) <= levelRank (levelOfScore b).
Proof.
  intros Hab. unfold levelOfScore.
  repeat match goal with
         | |- context [?x >=? ?k] => destruct (Z.geb_spec x k)
         end; simpl; lia.
Qed.

(** X7: the experience level never falls when the account is older, the
    repositories more numerous, more of them active or the mean star count
    higher; and Expert is out of reach for an account younger than a year,
    for fewer than ten repositories and for a mean below five stars. *)
Theorem determineExperienceLevel_monotone (age age' : Q) (total total' active active' : Z)
    (avgStars avgStars' : Q) :
  ((age <= age')%Q -> total <= total' -> active <= active' -> (avgStars <= avgStars')%Q ->
   levelRank (determineExperienceLevel age total active avgStars)
   <= levelRank (determineExperienceLevel age' total' active' avgStars'))
  /\ (determineExperienceLevel age total active avgStars = Expert ->
      (1 <= age)%Q /\ 10 <= total /\ (5 <= avgStars)%Q).
Proof.
  rewrite !determineExperienceLevel_bands. split.
  - intros Ha Ht Hact Hs. apply levelOfScore_mono.
    pose proof (ageBand_mono _ _ Ha). pose proof (projectBand_mono _ _ Ht).
    pose proof (activityBand_mono _ _ Hact). pose proof (starBand_mono _ _ Hs). lia.
  - intros Hexpert.
    assert (Hscore : 12 <= ageBand age + projectBand total + activityBand active
                           + starBand avgStars).
    { revert Hexpert. unfold levelOfScore.
      repeat match goal with
             | |- context [?x >=? ?k] => destruct (Z.geb_spec x k)
             end; try discriminate. intros _. lia. }
    pose proof (ageBand_range age). pose proof (projectBand_range total).
    pose proof (activityBand_range active). pose proof (starBand_range avgStars).
    split; [|split].
    + destruct (Qle_bool 1 age) eqn:Hyoung; [now apply Qle_bool_iff|].
      exfalso. apply Qle_bool_false in Hyoung.
      assert (Hzero : ageBand age = 0).
      { unfold ageBand.
        repeat match goal with
               | |- context [Qle_bool ?k age] =>
                   let E := fresh in destruct (Qle_bool k age) eqn:E;
                   [apply Qle_bool_iff in E; lra|]
               end. reflexivity. }
      lia.
    + destruct (Z.le_gt_cases 10 total) as [H10 | H10]; [exact H10|]. exfalso.
      assert (Hzero : projectBand total = 0).
      { unfold projectBand.
        repeat match goal with
               | |- context [?x >=? ?k] => destruct (Z.geb_spec x k)
               end; lia. }
      lia.
    + destruct (Qle_bool 5 avgStars) eqn:Hfew; [now apply Qle_bool_iff|].
      exfalso. apply Qle_bool_false in Hfew.
      assert (Hzero : starBand avgStars = 0).
      { unfold starBand.
        repeat match goal with
               | |- context [Qle_bool ?k avgStars] =>
                   let E := fresh in destruct (Qle_bool k avgStars) eqn:E;
                   [apply Qle_bool_iff in E; lra|]
               end. reflexivity. }
      lia.
Qed.

Lemma determineExperienceLevel_monotone_witness :
  levelRank (determineExperienceLevel 2 10 3 4) <= levelRank (determineExperienceLevel 8 120 25 60)
  /\ ((1 <= 8)%Q /\ 10 <= 120 /\ (5 <= 60)%Q).
Proof.
  split.
  - apply (proj1 (determineExperienceLevel_monotone 2 8 10 120 3 25 4 60));
      [unfold Qle; simpl; lia | lia | lia | unfold Qle; simpl; lia].
  - apply (proj2 (determineExperienceLevel_monotone 8 8 120 120 25 25 60 60)). reflexivity.
Defined.

Lemma filterClock_length {A} (p : A -> Clock bool) (arr : list A) (oracle : nat -> Z)
    (n : nat) :
  (List.length (fst (filterClock p arr oracle n)) <= List.length arr)%nat.
Proof.
  revert n. induction arr as [|x arr IH]; intros n; simpl; [lia|].
  unfold bind. destruct (p x oracle n) as [keep n1].
  specialize (IH n1). destruct (filterClock p arr oracle n1) as [rest n2].
  simpl in *. destruct keep; simpl; lia.
Qed.

Lemma filterClock_frozen {cal : Calendar} (repos : list RepositoryWithLanguages)
    (oracle : nat -> Z) (now : Z) (n : nat) :
  (forall k, oracle k = now) ->
  fst (filterClock (fun r => isRecentlyActive (updated_at r)) repos oracle n)
  = filter (fun r => updated_at r >? monthsBefore 6 now) repos.
Proof.
  intros Hfrozen. revert n. induction repos as [|r repos IH]; intros n; [reflexivity|].
  cbn [filterClock filter]. unfold bind at 1. unfold isRecentlyActive at 1.
  unfold bind at 1. unfold newDate, ret at 1. cbn [fst snd]. unfold bind at 1.
  specialize (IH (S n)).
  destruct (filterClock _ repos oracle (S n)) as [rest n2]. cbn [fst] in IH.
  unfold ret. cbn [fst]. rewrite Hfrozen, IH. reflexivity.
Qed.

Lemma analyzeSkills_experience_run {cal : Calendar} (u : GitHubUser)
    (repos : list RepositoryWithLanguages) (oracle : nat -> Z) (n : nat) :
  let sa := fst (analyzeSkills u repos oracle n) in
  let activeList :=
    fst (filterClock (fun r => isRecentlyActive (updated_at r)) repos oracle (S (S n))) in
  totalProjects sa = Z.of_nat (List.length repos)
  /\ activeProjects sa = Z.of_nat (List.length activeList)
  /\ accountAge sa
     = (inject_Z (roundDiv ((oracle (S n) - user_created_at u) * 10)
                    (1000 * 60 * 60 * 24 * 365)) / 10)%Q
  /\ experienceLevel sa
     = determineExperienceLevel (accountAge sa) (totalProjects sa) (activeProjects sa)
         (inject_Z (sumStars repos) / inject_Z (Z.of_nat (List.length repos)))%Q.
Proof.
  cbv beta iota zeta
      delta [analyzeSkills deriveStackDepth calculateAccountAge bind newDate ret].
  match goal with
  | |- context [filterClock ?p ?l ?o ?m] => destruct (filterClock p l o m) as [active n']
  end.
  cbn [fst snd totalProjects activeProjects accountAge experienceLevel].
  repeat split.
Qed.

(** X8: in the returned analysis [totalProjects] is the number of
    repositories, [activeProjects] lies between 0 and [totalProjects], and
    the level is the one of these figures and of the mean star count; with no
    repository the level is Beginner whatever the age of the account.  When
    every clock read returns the same instant, [activeProjects] counts the
    repositories updated after that instant minus six months. *)
Theorem analyzeSkills_experience {cal : Calendar} (u : GitHubUser)
    (repos : list RepositoryWithLanguages) (oracle : nat -> Z) (n : nat) :
  let sa := fst (analyzeSkills u repos oracle n) in
  totalProjects sa = Z.of_nat (List.length repos)
  /\ 0 <= activeProjects sa <= totalProjects sa
  /\ experienceLevel sa
     = determineExperienceLevel (accountAge sa) (totalProjects sa) (activeProjects sa)
         (inject_Z (sumStars repos) / inject_Z (Z.of_nat (List.length repos)))%Q
  /\ (repos = [] -> experienceLevel sa = Beginner)
  /\ (forall now, (forall k, oracle k = now) ->
        activeProjects sa
        = countWhere (fun r => updated_at r >? monthsBefore 6 now) repos).
Proof.
  destruct (analyzeSkills_experience_run u repos oracle n) as (Htotal & Hactive & Hage & Hlevel).
  cbv zeta in *. split; [exact Htotal|]. split.
  { rewrite Hactive, Htotal.
    pose proof (filterClock_length (fun r => isRecentlyActive (updated_at r)) repos oracle
                  (S (S n))). lia. }
  split; [exact Hlevel|]. split.
  - intros Hempty. rewrite Hlevel, Hactive, Htotal. subst repos.
    rewrite determineExperienceLevel_bands.
    pose proof (ageBand_range (accountAge (fst (analyzeSkills u [] oracle n)))) as Hband.
    cbn [filterClock ret fst List.length sumStars fold_left].
    change (projectBand (Z.of_nat 0)) with 0. change (activityBand (Z.of_nat 0)) with 0.
    change (starBand (inject_Z 0 / inject_Z (Z.of_nat 0))) with 0.
    unfold levelOfScore.
    repeat match goal with
           | |- context [?x >=? ?k] => destruct (Z.geb_spec x k)
           end; try lia; reflexivity.
  - intros now Hfrozen. rewrite Hactive, (filterClock_frozen repos oracle now _ Hfrozen).
    reflexivity.
Qed.

Lemma analyzeSkills_experience_witness :
  experienceLevel (fst (analyzeSkills (cal := sampleCalendar) sampleUser []
                          (fun _ => sampleNow) 0%nat)) = Beginner
  /\ activeProjects (fst (analyzeSkills (cal := sampleCalendar) sampleUser [repoShop; repoNotes]
                            (fun _ => sampleNow) 0%nat))
     = countWhere (fun r => updated_at r >? @monthsBefore sampleCalendar 6 sampleNow)
         [repoShop; repoNotes].
Proof.
  split.
  - now apply (analyzeSkills_experience (cal := sampleCalendar) sampleUser []
                 (fun _ => sampleNow) 0%nat).
  - now apply (analyzeSkills_experience (cal := sampleCalendar) sampleUser
                 [repoShop; repoNotes] (fun _ => sampleNow) 0%nat).
Defined.

(** ** Highlight selector: how many entries, and which comes first *)

Lemma byStarsDesc_spec (a b : RepositoryWithLanguages) :
  byStarsDesc a b = true <-> stargazers_count b <= stargazers_count a.
Proof. unfold byStarsDesc. rewrite Z.leb_le. lia. Qed.

Lemma addHighlight_extends (repos : list RepositoryWithLanguages)
    (candidate : option RepositoryWithLanguages) (why : string) (st : HighlightState) :
  (forall r, candidate = Some r -> In r repos) ->
  highlightsCopy repos st ->
  highlightsCopy repos (addHighlight candidate why st)
  /\ (exists suffix,
        hs_highlights (addHighlight candidate why st) = hs_highlights st ++ suffix)
  /\ incl (hs_seen st) (hs_seen (addHighlight candidate why st))
  /\ (forall r, candidate = Some r -> In (name r) (hs_seen (addHighlight candidate why st))).
Proof.
  intros Hcand Hcopy. unfold addHighlight.
  destruct candidate as [repo|].
  - destruct (setHas (hs_seen st) (name repo)) eqn:Hhas.
    + split; [exact Hcopy|]. split; [exists []; now rewrite app_nil_r|].
      split; [apply incl_refl|]. intros r [= <-]. now apply setHas_true.
    + cbn [hs_highlights hs_seen]. split; [|split; [|split]].
      * unfold highlightsCopy. cbn [hs_highlights]. apply Forall_app. split; [exact Hcopy|].
        constructor; [|constructor]. exists repo. split; [now apply Hcand | reflexivity].
      * eexists. reflexivity.
      * intros x Hx. apply setAdd_In. now right.
      * intros r [= <-]. apply setAdd_In. now left.
  - split; [exact Hcopy|]. split; [exists []; now rewrite app_nil_r|].
    split; [apply incl_refl | discriminate].
Qed.

Lemma popularLoop_extends (repos : list RepositoryWithLanguages) (limit : nat)
    (rest : list RepositoryWithLanguages) (st : HighlightState) :
  incl rest repos ->
  highlightsCopy repos st ->
  let st' := popularLoop limit rest st in
  highlightsCopy repos st'
  /\ (exists suffix, hs_highlights st' = hs_highlights st ++ suffix)
  /\ incl (hs_seen st) (hs_seen st')
  /\ ((limit <= List.length (hs_highlights st'))%nat
      \/ forall r, In r rest -> In (name r) (hs_seen st')).
Proof.
  revert st. induction rest as [|repo rest IH]; intros st Hincl Hcopy; cbv zeta;
    cbn [popularLoop].
  - split; [exact Hcopy|]. split; [exists []; now rewrite app_nil_r|].
    split; [apply incl_refl|]. right. intros r [].
  - destruct (List.length (hs_highlights st) <? limit)%nat eqn:Hlt.
    + destruct (addHighlight_extends repos (Some repo) "Popular" st) as (Hc1 & Hx1 & Hs1 & Hn1).
      { intros r [= <-]. apply Hincl. now left. }
      { exact Hcopy. }
      destruct (IH (addHighlight (Some repo) "Popular" st)) as (Hc2 & Hx2 & Hs2 & Hdone).
      { intros x Hx. apply Hincl. now right. }
      { exact Hc1. }
      cbv zeta in *. split; [exact Hc2|]. split; [|split].
      * destruct Hx1 as (s1 & E1). destruct Hx2 as (s2 & E2).
        exists (s1 ++ s2). now rewrite E2, E1, app_assoc.
      * now apply incl_tran with (hs_seen (addHighlight (Some repo) "Popular" st)).
      * destruct Hdone as [Hfull | Hall]; [now left|]. right.
        intros r [<- | Hr]; [|now apply Hall]. apply Hs2. now apply Hn1.
    + apply Nat.ltb_ge in Hlt. split; [exact Hcopy|].
      split; [exists []; now rewrite app_nil_r|]. split; [apply incl_refl | now left].
Qed.

Lemma distinctNames_In (repos : list RepositoryWithLanguages) (x : string) :
  In x (distinctNames repos) <-> In x (map name repos).
Proof. unfold distinctNames. apply setFrom_In. Qed.

(** X9: for a non-empty list the selector returns exactly
    min(3, number of distinct repository names) entries.  The first one is
    the "Top starred" copy of a repository with the largest star count, and
    every entry is the copy of a repository of the list. *)
Theorem extractRepositoryHighlights_count (repos : list RepositoryWithLanguages)
    (priorityLanguages : list string) :
  repos <> [] ->
  let hs := extractRepositoryHighlights repos priorityLanguages in
  List.length hs = Nat.min 3 (List.length (distinctNames repos))
  /\ (exists top others,
        hs = highlightOf top "Top starred" :: others /\ In top repos
        /\ forall r, In r repos -> stargazers_count r <= stargazers_count top)
  /\ (forall h, In h hs -> exists repo, In repo repos /\ h = highlightOf repo (reason h)).
Proof.
  intros Hne. cbv zeta. unfold extractRepositoryHighlights.
  destruct repos as [|r0 repos0] eqn:Hrepos; [congruence|]. rewrite <- Hrepos in *. cbv zeta.
  set (byStars := stableSort byStarsDesc repos).
  set (byRecency := stableSort byUpdateDesc repos).
  set (st0 := {| hs_highlights := []; hs_seen := [] |}).
  set (c2 := match arrFind _ byRecency with Some repo => Some repo | None => _ end).
  set (c3 := arrFind _ byStars).
  destruct byStars as [|top sortedRest] eqn:Hsorted.
  { exfalso. now apply (stableSort_nonempty byStarsDesc repos Hne). }
  assert (Htop : In top repos).
  { apply (stableSort_In byStarsDesc). fold byStars. rewrite Hsorted. now left. }
  assert (Hmax : forall r, In r repos -> stargazers_count r <= stargazers_count top).
  { intros r Hr. apply byStarsDesc_spec.
    apply (stableSort_head_first byStarsDesc) with (l := repos) (t := sortedRest);
      [| | exact Hsorted | exact Hr].
    - intros x y. rewrite !byStarsDesc_spec. lia.
    - intros x y z. rewrite !byStarsDesc_spec. lia. }
  assert (HbyStars : incl (top :: sortedRest) repos).
  { intros x Hx. apply (stableSort_In byStarsDesc). fold byStars. now rewrite Hsorted. }
  cbn [hd_error].
  set (st1 := addHighlight (Some top) "Top starred" st0).
  assert (Hst1 : hs_highlights st1 = [highlightOf top "Top starred"]) by reflexivity.
  assert (Hcopy1 : highlightsCopy repos st1).
  { unfold highlightsCopy. rewrite Hst1. constructor; [|constructor]. now exists top. }
  assert (Hinv1 : highlightInvariant repos st1).
  { apply addHighlight_invariant; [intros r [= <-]; exact Htop|].
    split; [constructor | split; [intros x; simpl; tauto | intros x []]]. }
  assert (Hc2 : forall r, c2 = Some r -> In r repos).
  { intros r Hr. subst c2. destruct (arrFind _ byRecency) eqn:Hfind.
    - injection Hr as <-. apply find_some in Hfind.
      now apply (stableSort_In byUpdateDesc), Hfind.
    - apply hd_error_In in Hr. now apply stableSort_In in Hr. }
  assert (Hc3 : forall r, c3 = Some r -> In r repos).
  { intros r Hr. apply find_some in Hr. apply HbyStars, Hr. }
  destruct (addHighlight_extends repos c2 "Recent" st1 Hc2 Hcopy1) as (Hcopy2 & Hx2 & _ & _).
  pose proof (addHighlight_invariant repos c2 "Recent" st1 Hc2 Hinv1) as Hinv2.
  pose proof (addHighlight_length c2 "Recent" st1) as Hlen2.
  set (st2 := addHighlight c2 "Recent" st1) in *.
  destruct (addHighlight_extends repos c3 "Core stack" st2 Hc3 Hcopy2) as (Hcopy3 & Hx3 & _ & _).
  pose proof (addHighlight_invariant repos c3 "Core stack" st2 Hc3 Hinv2) as Hinv3.
  pose proof (addHighlight_length c3 "Core stack" st2) as Hlen3.
  set (st3 := addHighlight c3 "Core stack" st2) in *.
  set (limit := Nat.min 3 (List.length repos)).
  destruct (popularLoop_extends repos limit (top :: sortedRest) st3 HbyStars Hcopy3)
    as (Hcopy4 & Hx4 & _ & Hdone).
  pose proof (popularLoop_invariant repos limit (top :: sortedRest) st3 HbyStars Hinv3)
    as (Hnodup & Hseen & Hnames).
  pose proof (popularLoop_length limit (top :: sortedRest) st3) as Hlen4.
  cbv zeta in *. set (st4 := popularLoop limit (top :: sortedRest) st3) in *.
  rewrite Hst1 in Hlen2. cbn [List.length] in Hlen2.
  assert (Hdistinct : NoDup (distinctNames repos)) by (apply setFrom_NoDup; constructor).
  assert (Hdn : (List.length (distinctNames repos) <= List.length repos)%nat).
  { rewrite <- (length_map name repos). apply NoDup_incl_length; [exact Hdistinct|].
    intros x Hx. now apply distinctNames_In. }
  assert (Hupper : (List.length (hs_highlights st4) <= List.length (distinctNames repos))%nat).
  { rewrite <- (length_map hl_name). apply NoDup_incl_length; [exact Hnodup|].
    intros x Hx. apply distinctNames_In. now apply Hnames. }
  split; [|split].
  - assert (Hlower : (limit <= List.length (hs_highlights st4))%nat
                     \/ (List.length (distinctNames repos)
                         <= List.length (hs_highlights st4))%nat).
    { destruct Hdone as [Hfull | Hall]; [now left|]. right.
      rewrite <- (length_map hl_name). apply NoDup_incl_length; [exact Hdistinct|].
      intros x Hx. apply distinctNames_In, in_map_iff in Hx. destruct Hx as (r & <- & Hr).
      apply Hseen, Hall. apply (stableSort_In byStarsDesc) in Hr.
      fold byStars in Hr. now rewrite Hsorted in Hr. }
    subst limit. lia.
  - destruct Hx2 as (s2 & Hs2). destruct Hx3 as (s3 & Hs3). destruct Hx4 as (s4 & Hs4).
    exists top, (s2 ++ s3 ++ s4). split; [|split; [exact Htop | exact Hmax]].
    rewrite Hs4, Hs3, Hs2, Hst1. cbn [app]. now rewrite <- !app_assoc.
  - intros h Hh. unfold highlightsCopy in Hcopy4. rewrite Forall_forall in Hcopy4.
    now apply Hcopy4.
Qed.

Lemma extractRepositoryHighlights_count_witness :
  List.length (extractRepositoryHighlights [repoShop; repoNotes; repoShop] ["Python"])
  = Nat.min 3 (List.length (distinctNames [repoShop; repoNotes; repoShop])).
Proof.
  apply (extractRepositoryHighlights_count [repoShop; repoNotes; repoShop] ["Python"]).
  discriminate.
Defined.

(** ** Activity metrics: how the figures relate *)

Lemma countWhere_le {A} (p q : A -> bool) (arr : list A) :
  (forall x, p x = true -> q x = true) -> countWhere p arr <= countWhere q arr.
Proof.
  intros Himp. unfold countWhere. apply inj_le.
  induction arr as [|x arr IH]; simpl; [lia|].
  destruct (p x) eqn:Hp.
  - rewrite (Himp x Hp). simpl. lia.
  - destruct (q x); simpl; lia.
Qed.

Lemma countWhere_bounds {A} (p : A -> bool) (arr : list A) :
  0 <= countWhere p arr <= Z.of_nat (List.length arr).
Proof.
  unfold countWhere. pose proof (filter_length_le p arr). lia.
Qed.

Lemma roundDiv_nonneg (a b : Z) : 0 <= a -> 0 < b -> 0 <= roundDiv a b.
Proof. intros Ha Hb. unfold roundDiv. apply Z.div_pos; lia. Qed.

Lemma updateIntervals_nonneg (sorted : list RepositoryWithLanguages) :
  Forall (fun gap => 0 <= gap) (updateIntervals sorted).
Proof.
  induction sorted as [|a s IH]; [constructor|].
  destruct s as [|b s']; [constructor|].
  change (updateIntervals (a :: b :: s'))
    with (roundDiv (Z.abs (updated_at a - updated_at b)) dayMs :: updateIntervals (b :: s')).
  constructor; [|exact IH]. apply roundDiv_nonneg; [lia | reflexivity].
Qed.

Lemma median_le_max (values : list Z) (bound : Z) :
  values <> [] -> (forall v, In v values -> v <= bound) -> median values <= bound.
Proof.
  intros Hne Hbound. unfold median.
  destruct values as [|z vs] eqn:Hvalues; [congruence|]. rewrite <- Hvalues in *.
  set (sorted := stableSort numericAsc values).
  assert (Hlen : List.length sorted = List.length values) by apply stableSort_length.
  assert (Hpos : (0 < List.length values)%nat) by (rewrite Hvalues; simpl; lia).
  assert (Hnth : forall k, (k < List.length sorted)%nat -> nth k sorted 0 <= bound).
  { intros k Hk. apply Hbound. apply (stableSort_In numericAsc). now apply nth_In. }
  pose proof (Nat.div_mod_eq (List.length sorted) 2) as Hdiv.
  pose proof (Nat.mod_upper_bound (List.length sorted) 2 ltac:(lia)) as Hmod.
  destruct (List.length sorted mod 2 =? 0)%nat eqn:Heven; cbn [negb].
  - apply Nat.eqb_eq in Heven.
    pose proof (Hnth (List.length sorted / 2 - 1)%nat ltac:(lia)) as Ha.
    pose proof (Hnth (List.length sorted / 2)%nat ltac:(lia)) as Hb.
    pose proof (roundDiv_half (nth (List.length sorted / 2 - 1) sorted 0
                               + nth (List.length sorted / 2) sorted 0)) as Hround.
    lia.
  - apply Hnth. lia.
Qed.

(** X10: for a non-empty list the counts are nested,
    0 <= recentPushes <= activeLast30Days <= activeLast90Days <= number of
    repositories; no gap is negative; and the median interval never exceeds
    the longest quiet streak. *)
Theorem calculateActivityMetrics_consistent (repos : list RepositoryWithLanguages)
    (oracle : nat -> Z) (n : nat) :
  repos <> [] ->
  let metrics := fst (calculateActivityMetrics repos oracle n) in
  0 <= recentPushes metrics
  /\ recentPushes metrics <= activeLast30Days metrics
  /\ activeLast30Days metrics <= activeLast90Days metrics
  /\ activeLast90Days metrics <= Z.of_nat (List.length repos)
  /\ Forall (fun gap => 0 <= gap) (dayGaps repos)
  /\ medianUpdateInterval metrics <= longestQuietStreak metrics.
Proof.
  intros Hne. rewrite (calculateActivityMetrics_nonempty _ _ _ Hne). cbv zeta.
  cbn [fst]. unfold activityAt. cbv zeta.
  cbn [recentPushes activeLast30Days activeLast90Days medianUpdateInterval longestQuietStreak].
  set (sorted := stableSort byUpdateDesc repos).
  split; [apply countWhere_bounds|]. split.
  { apply countWhere_le. intros x Hx. apply Z.leb_le in Hx. apply Z.leb_le. lia. }
  split.
  { apply countWhere_le. intros x Hx. apply Z.leb_le in Hx. apply Z.leb_le. lia. }
  split.
  { rewrite <- (stableSort_length byUpdateDesc repos). apply countWhere_bounds. }
  split; [apply updateIntervals_nonneg|].
  destruct (updateIntervals sorted) as [|g gaps] eqn:Hgaps; [lia|].
  apply median_le_max; [discriminate|].
  intros v Hv. apply mathMax_upper. apply in_or_app. now left.
Qed.

Lemma calculateActivityMetrics_consistent_witness :
  medianUpdateInterval
    (fst (calculateActivityMetrics [repoShop; repoNotes] (fun _ => sampleNow) 0%nat))
  <= longestQuietStreak
       (fst (calculateActivityMetrics [repoShop; repoNotes] (fun _ => sampleNow) 0%nat)).
Proof.
  apply (calculateActivityMetrics_consistent [repoShop; repoNotes] (fun _ => sampleNow) 0%nat).
  discriminate.
Defined.

(** ** Release cadence and quality labels *)

(** X11: a longer median interval never gives a more frequent cadence, and
    the cadence of the returned quality signals is the one of the median
    interval of the activity metrics, except for no repository, where it is
    Ad-hoc although the default median interval of 90 days alone would give
    Quarterly. *)
Theorem releaseCadence_monotone {cal : Calendar} (u : GitHubUser)
    (repos : list RepositoryWithLanguages) (contribs : option ContributionStats)
    (oracle : nat -> Z) (n : nat) (interval interval' : Z) :
  let result := fst (analyzeRepositories u repos contribs oracle n) in
  (interval <= interval' ->
   cadenceRank (cadenceFromInterval interval) <= cadenceRank (cadenceFromInterval interval'))
  /\ (repos <> [] ->
      releaseCadence (quality result)
      = cadenceFromInterval (medianUpdateInterval (activity result)))
  /\ (repos = [] ->
      releaseCadence (quality result) = AdHoc
      /\ cadenceFromInterval (medianUpdateInterval (activity result)) = Quarterly).
Proof.
  cbv zeta. split; [|split].
  - intros Hle. unfold cadenceFromInterval.
    repeat match goal with
           | |- context [?x <=? ?k] => destruct (Z.leb_spec x k)
           end; simpl; lia.
  - intros Hne. unfold analyzeRepositories, bind.
    destruct (analyzeSkills u repos oracle n) as [sa n1].
    destruct (calculateActivityMetrics repos oracle n1) as [act n2]. cbv zeta.
    destruct (buildTimeline u repos sa oracle n2) as [tl n3]. cbn [ret fst quality activity].
    destruct repos; [congruence | reflexivity].
  - intros ->. unfold analyzeRepositories, bind.
    destruct (analyzeSkills u [] oracle n) as [sa n1].
    cbn [calculateActivityMetrics ret]. cbv zeta.
    destruct (buildTimeline u [] sa oracle n1) as [tl n3]. cbn [ret fst quality activity].
    split; reflexivity.
Qed.

Lemma releaseCadence_monotone_witness :
  cadenceRank (cadenceFromInterval 14) <= cadenceRank (cadenceFromInterval 31).
Proof.
  apply (proj1 (releaseCadence_monotone (cal := sampleCalendar) sampleUser [] None
                  (fun _ => sampleNow) 0%nat 14 31)). lia.
Defined.

Lemma ratioAtLeast_iff (hits total : Z) (a : Z) (b : positive) :
  0 < total -> (ratioAtLeast hits total (a # b) = true <-> a * total <= Z.pos b * hits).
Proof.
  intros Hpos. unfold ratioAtLeast. rewrite Qle_bool_iff.
  destruct total as [|t|t]; try lia.
  unfold Qle, Qdiv, Qmult, Qinv, inject_Z. cbn [Qnum Qden].
  rewrite Pos.mul_1_l, Z.mul_1_r. lia.
Qed.

(** X12: for a non-empty list the three labels are decided by the share of
    the repositories that hit, with exact integer thresholds: testing is
    Strong from 35 hits per 100 repositories and Sparse below 18, automation
    Advanced from 3 per 10 and None below 15 per 100, documentation
    Comprehensive from 45 per 100 and Sparse below 2 per 10.  In particular
    no hit gives Sparse, None and Sparse, and a hit in every repository gives
    Strong, Advanced and Comprehensive. *)
Theorem evaluateQualitySignals_thresholds (repos : list RepositoryWithLanguages)
    (a : ActivityMetrics) :
  repos <> [] ->
  let q := evaluateQualitySignals repos a in
  let total := Z.of_nat (List.length repos) in
  (testing q = TestingStrong <-> 35 * total <= 100 * testingHitsOf repos)
  /\ (testing q = TestingSparse <-> 100 * testingHitsOf repos < 18 * total)
  /\ (automation q = AutomationAdvanced <-> 3 * total <= 10 * automationHitsOf repos)
  /\ (automation q = AutomationNone <-> 100 * automationHitsOf repos < 15 * total)
  /\ (documentation q = DocComprehensive <-> 45 * total <= 100 * documentationHitsOf repos)
  /\ (documentation q = DocSparse <-> 10 * documentationHitsOf repos < 2 * total)
  /\ releaseCadence q = cadenceFromInterval (medianUpdateInterval a).
Proof.
  intros Hne. cbv zeta.
  assert (Hpos : 0 < Z.of_nat (List.length repos)).
  { destruct repos; [congruence | simpl; lia]. }
  unfold evaluateQualitySignals.
  destruct repos as [|r0 repos0] eqn:Hrepos; [congruence|]. rewrite <- Hrepos in *. cbv zeta.
  cbn [testing automation documentation releaseCadence].
  fold (testingHitsOf repos) (automationHitsOf repos) (documentationHitsOf repos).
  set (total := Z.of_nat (List.length repos)) in *.
  pose proof (ratioAtLeast_iff (testingHitsOf repos) total 35 100 Hpos) as T1.
  pose proof (ratioAtLeast_iff (testingHitsOf repos) total 18 100 Hpos) as T2.
  pose proof (ratioAtLeast_iff (automationHitsOf repos) total 3 10 Hpos) as A1.
  pose proof (ratioAtLeast_iff (automationHitsOf repos) total 15 100 Hpos) as A2.
  pose proof (ratioAtLeast_iff (documentationHitsOf repos) total 45 100 Hpos) as D1.
  pose proof (ratioAtLeast_iff (documentationHitsOf repos) total 2 10 Hpos) as D2.
  split; [|split; [|split; [|split; [|split; [|split; [|reflexivity]]]]]].
  1, 2: clear A1 A2 D1 D2;
        destruct (ratioAtLeast (testingHitsOf repos) total (35 # 100)),
                 (ratioAtLeast (testingHitsOf repos) total (18 # 100));
        split; intros; try discriminate; try reflexivity;
        intuition (try discriminate; lia).
  1, 2: clear T1 T2 D1 D2;
        destruct (ratioAtLeast (automationHitsOf repos) total (3 # 10)),
                 (ratioAtLeast (automationHitsOf repos) total (15 # 100));
        split; intros; try discriminate; try reflexivity;
        intuition (try discriminate; lia).
  all: clear T1 T2 A1 A2;
       destruct (ratioAtLeast (documentationHitsOf repos) total (45 # 100)),
                (ratioAtLeast (documentationHitsOf repos) total (2 # 10));
       split; intros; try discriminate; try reflexivity;
       intuition (try discriminate; lia).
Qed.

Lemma evaluateQualitySignals_thresholds_witness :
  testing (evaluateQualitySignals [repoShop; repoNotes] defaultActivity) = TestingSparse.
Proof.
  apply (evaluateQualitySignals_thresholds [repoShop; repoNotes] defaultActivity);
    [discriminate | vm_compute; reflexivity].
Defined.

(** A description is long by its UTF-16 length: 39 kana and kanji, 117
    bytes in UTF-8, do not make the description of [repoKana] long. *)
Example longDescription_counts_code_units :
  longDescription repoKana = false
  /\ documentation (evaluateQualitySignals [repoKana] defaultActivity) = DocSparse.
Proof. split; vm_compute; reflexivity. Qed.

(** ** Opportunity and forecast lists *)

Lemma setFrom_length (values : list string) :
  (List.length (setFrom values) <= List.length values)%nat.
Proof.
  unfold setFrom.
  assert (Hfold : forall acc,
             (List.length (fold_left setAdd values acc)
              <= List.length acc + List.length values)%nat).
  { induction values as [|v values IH]; intros acc; simpl; [lia|].
    etransitivity; [apply IH|].
    assert (Hadd : (List.length (setAdd acc v) <= S (List.length acc))%nat).
    { unfold setAdd. clear. induction acc as [|a acc IHacc]; simpl; [lia|].
      destruct (string_dec v a); simpl; lia. }
    lia. }
  specialize (Hfold []). simpl in Hfold. exact Hfold.
Qed.

Lemma matchJobRoles_In (ts : TechStack) (table : list (string * list string))
    (roles : list string) (role : string) :
  In role
     (fold_left
        (fun roles '(role, requiredSkills) =>
           let matches := filter (skillSatisfied ts) requiredSkills in
           if (2 <=? List.length matches)%nat then setAdd roles role else roles)
        table roles)
  <-> In role roles
      \/ exists requiredSkills,
           In (role, requiredSkills) table
           /\ (2 <= List.length (filter (skillSatisfied ts) requiredSkills))%nat.
Proof.
  revert roles. induction table as [|[r skills] table IH]; intros roles.
  - simpl. split; [now left | intros [H | (k & [] & _)]; exact H].
  - cbn [fold_left]. cbv zeta. rewrite IH.
    destruct (2 <=? List.length (filter (skillSatisfied ts) skills))%nat eqn:Hcount.
    + apply Nat.leb_le in Hcount. rewrite setAdd_In. split.
      * intros [[-> | Hin] | (k & Hk & Hm)].
        -- right. exists skills. split; [now left | exact Hcount].
        -- now left.
        -- right. exists k. split; [now right | exact Hm].
      * intros [Hin | (k & [Heq | Hk] & Hm)].
        -- left. now right.
        -- injection Heq as -> ->. left. now left.
        -- right. now exists k.
    + apply Nat.leb_gt in Hcount. split.
      * intros [Hin | (k & Hk & Hm)]; [now left|].
        right. exists k. split; [now right | exact Hm].
      * intros [Hin | (k & [Heq | Hk] & Hm)]; [now left | | right; now exists k].
        injection Heq as -> ->. lia.
Qed.

(** X13: a job role is suggested exactly when at least two of its required
    skills are satisfied.  The four lists of the opportunities have no
    duplicates, there are always two recommendations, and between one and
    six next actions. *)
Theorem identifyOpportunities_lists (sa : SkillAnalysis) (q : QualitySignals)
    (a : ActivityMetrics) :
  let opp := identifyOpportunities sa q a in
  (forall role,
      In role (jobRoles opp) <->
      exists requiredSkills,
        In (role, requiredSkills) techStackMapping
        /\ (2 <= List.length (filter (skillSatisfied (techStack sa)) requiredSkills))%nat)
  /\ NoDup (jobRoles opp) /\ NoDup (industries opp)
  /\ NoDup (recommendations opp) /\ NoDup (nextActions opp)
  /\ List.length (recommendations opp) = 2%nat
  /\ (1 <= List.length (nextActions opp) <= 6)%nat.
Proof.
  cbv zeta. unfold identifyOpportunities. cbv zeta.
  cbn [jobRoles industries recommendations nextActions]. unfold dedupe.
  split.
  { intros role. rewrite setFrom_In. unfold matchJobRoles.
    rewrite matchJobRoles_In. simpl. tauto. }
  split; [apply setFrom_NoDup; constructor|].
  split; [apply setFrom_NoDup; constructor|].
  split; [apply setFrom_NoDup; constructor|].
  split; [apply setFrom_NoDup; constructor|].
  split; [destruct (experienceLevel sa); reflexivity|].
  assert (Hbase : exists first, levelNextActions (experienceLevel sa) = [first])
    by (destruct (experienceLevel sa); eexists; reflexivity).
  destruct Hbase as (first & Hbase). rewrite Hbase.
  assert (Hgrow : forall (c : bool) (l : list string) (x : string),
             (List.length (if c then l ++ [x] else l) <= S (List.length l))%nat
             /\ (In first l -> In first (if c then l ++ [x] else l))).
  { intros c l x. destruct c; [|split; [lia | tauto]].
    rewrite length_app. cbn [List.length]. split; [lia|].
    intros Hin. apply in_or_app. now left. }
  match goal with
  | |- context [setFrom (if ?c5 then (if ?c4 then (if ?c3 then (if ?c2 then
                  (if ?c1 then [first] ++ [?x1] else [first]) ++ [?x2] else _) ++ [?x3]
                    else _) ++ [?x4] else _) ++ [?x5] else _)] =>
      set (l1 := if c1 then [first] ++ [x1] else [first]);
      set (l2 := if c2 then l1 ++ [x2] else l1);
      set (l3 := if c3 then l2 ++ [x3] else l2);
      set (l4 := if c4 then l3 ++ [x4] else l3);
      set (l5 := if c5 then l4 ++ [x5] else l4);
      destruct (Hgrow c1 [first] x1) as [Hlen1 Hin1];
      destruct (Hgrow c2 l1 x2) as [Hlen2 Hin2];
      destruct (Hgrow c3 l2 x3) as [Hlen3 Hin3];
      destruct (Hgrow c4 l3 x4) as [Hlen4 Hin4];
      destruct (Hgrow c5 l4 x5) as [Hlen5 Hin5]
  end.
  fold l1 in Hlen1, Hin1. fold l2 in Hlen2, Hin2. fold l3 in Hlen3, Hin3.
  fold l4 in Hlen4, Hin4. fold l5 in Hlen5, Hin5.
  cbn [List.length] in Hlen1.
  assert (Hin : In first l5).
  { apply Hin5, Hin4, Hin3, Hin2, Hin1. now left. }
  split.
  - apply setFrom_In in Hin.
    destruct (setFrom l5); [destruct Hin | cbn [List.length]; lia].
  - etransitivity; [apply setFrom_length | lia].
Qed.

Lemma setFrom_nonempty (values : list string) : values <> [] -> setFrom values <> [].
Proof.
  destruct values as [|v values]; [congruence|]. intros _ Hempty.
  assert (Hin : In v (setFrom (v :: values))) by (apply setFrom_In; now left).
  rewrite Hempty in Hin. destruct Hin.
Qed.

(** X14: the forecast always names at least one growth area, always lists
    System Design, Cloud Architecture and Security Best Practices among the
    skills to learn, and always gives a career path of three rungs; neither
    list repeats an entry. *)
Theorem predictFuture_lists (sa : SkillAnalysis) (q : QualitySignals) (a : ActivityMetrics) :
  let future := predictFuture sa q a in
  growthAreas future <> []
  /\ NoDup (growthAreas future)
  /\ incl ["System Design"; "Cloud Architecture"; "Security Best Practices"]
          (skillsToLearn future)
  /\ NoDup (skillsToLearn future)
  /\ List.length (careerPath future) = 3%nat.
Proof.
  cbv zeta. unfold predictFuture. cbv zeta.
  cbn [growthAreas skillsToLearn careerPath]. unfold dedupe.
  split; [|split; [|split; [|split]]].
  - apply setFrom_nonempty.
    match goal with |- context [fs_growthAreas ?s] => destruct (fs_growthAreas s) end;
      discriminate.
  - apply setFrom_NoDup. constructor.
  - match goal with
    | |- context [arrIncludes ?l "System Design"] =>
        destruct (arrIncludes l "System Design") eqn:Hhas; cbn [negb]
    end.
    + exfalso. revert Hhas.
      unfold ruleFrontend, ruleContainers, rulePython, ruleJsTs, ruleVelocity, forecastInit.
      repeat match goal with
             | |- context [if ?c then _ else _] => destruct c
             end; cbn [fs_skillsToLearn app]; discriminate.
    + intros x Hx. apply setFrom_In. apply in_or_app. now right.
  - apply setFrom_NoDup. constructor.
  - destruct (experienceLevel sa); reflexivity.
Qed.

(** ** Timeline *)

Lemma StronglySorted_app_drop {A} (R : A -> A -> Prop) (l1 : list A) (x : A) (l2 : list A) :
  StronglySorted R (l1 ++ x :: l2) -> StronglySorted R (l1 ++ l2).
Proof.
  induction l1 as [|a l1 IH]; simpl; intros Hs.
  - now inversion Hs.
  - inversion Hs as [|? ? Hs' Hall]; subst. constructor; [now apply IH|].
    apply Forall_app in Hall. destruct Hall as [H1 H2].
    apply Forall_app. split; [exact H1 | now inversion H2].
Qed.

Lemma keyPresent_In (acc : list TimelineEvent) (event : TimelineEvent) :
  existsb (fun existing => String.eqb (eventKey existing) (eventKey event)) acc = true
  <-> In (eventKey event) (map eventKey acc).
Proof.
  rewrite existsb_exists, in_map_iff. split.
  - intros (x & Hx & Heq). apply String.eqb_eq in Heq. now exists x.
  - intros (x & Heq & Hx). exists x. split; [exact Hx | now apply String.eqb_eq].
Qed.

Lemma dedupeEvents_fold (R : TimelineEvent -> TimelineEvent -> Prop)
    (events acc : list TimelineEvent) :
  let result :=
    fold_left
      (fun acc event =>
         if negb (existsb (fun existing => String.eqb (eventKey existing) (eventKey event)) acc)
         then acc ++ [event] else acc)
      events acc in
  (NoDup (map eventKey acc) -> NoDup (map eventKey result))
  /\ (StronglySorted R (acc ++ events) -> StronglySorted R result)
  /\ incl result (acc ++ events)
  /\ (forall e, In e (acc ++ events) -> In (eventKey e) (map eventKey result))
  /\ (List.length acc <= List.length result <= List.length acc + List.length events)%nat.
Proof.
  cbv zeta. revert acc. induction events as [|event events IH]; intros acc.
  - cbn [fold_left]. rewrite app_nil_r.
    split; [exact (fun H => H)|].
    split; [exact (fun H => H)|].
    split; [apply incl_refl|].
    split; [intros e He; now apply in_map|].
    cbn [List.length]. lia.
  - cbn [fold_left].
    destruct (existsb (fun existing => String.eqb (eventKey existing) (eventKey event)) acc)
      eqn:Hpresent; cbn [negb].
    + destruct (IH acc) as (Hnodup & Hsorted & Hincl & Hkeys & Hlen).
      apply keyPresent_In in Hpresent.
      split; [exact Hnodup|].
      split; [intros Hs; apply Hsorted; now apply StronglySorted_app_drop with event|].
      split.
      { intros e He. apply Hincl in He. apply in_app_or in He. apply in_or_app.
        destruct He as [He | He]; [now left | right; now right]. }
      split.
      { intros e He. apply in_app_or in He. destruct He as [He | [<- | He]].
        - apply Hkeys. apply in_or_app. now left.
        - apply in_map_iff in Hpresent. destruct Hpresent as (x & Heq & Hx).
          rewrite <- Heq. apply Hkeys. apply in_or_app. now left.
        - apply Hkeys. apply in_or_app. now right. }
      cbn [List.length]. lia.
    + destruct (IH (acc ++ [event])) as (Hnodup & Hsorted & Hincl & Hkeys & Hlen).
      assert (Hfresh : ~ In (eventKey event) (map eventKey acc)).
      { intros Hin. apply keyPresent_In in Hin. congruence. }
      rewrite <- app_assoc in Hsorted, Hincl, Hkeys. cbn [app] in Hsorted, Hincl, Hkeys.
      split.
      { intros Hacc. apply Hnodup. rewrite map_app. cbn [map].
        apply NoDup_app; [exact Hacc | repeat constructor; intros [] |].
        intros k Hk [<- | []]. now apply Hfresh. }
      split; [exact Hsorted|].
      split; [exact Hincl|].
      split; [exact Hkeys|].
      rewrite length_app in Hlen. cbn [List.length] in *. lia.
Qed.

Lemma adoptionEvents_extends {cal : Calendar} (byCreation : list RepositoryWithLanguages)
    (langs : list TopLanguage) (events : list TimelineEvent) :
  exists extra,
    fold_left
      (fun events lang =>
         match arrFind (fun repo => usesLanguage repo (tl_language lang)) byCreation with
         | Some found =>
             events ++
             [ {| year := getFullYear (created_at found);
                  title := tl_language lang ^^ " adoption";
                  ev_description :=
                    name found ^^ " introduced " ^^ tl_language lang
                      ^^ " into the portfolio" |} ]
         | None => events
         end)
      langs events
    = events ++ extra
    /\ (List.length extra <= List.length langs)%nat
    /\ (forall e, In e extra ->
          exists lang, In lang langs /\ title e = tl_language lang ^^ " adoption").
Proof.
  revert events. induction langs as [|lang langs IH]; intros events.
  - exists []. cbn [fold_left]. rewrite app_nil_r.
    split; [reflexivity|]. split; [cbn [List.length]; lia | intros e []].
  - cbn [fold_left].
    destruct (arrFind (fun repo => usesLanguage repo (tl_language lang)) byCreation) as [found|].
    + match goal with |- context [fold_left _ langs (events ++ [?e])] => set (event := e) end.
      destruct (IH (events ++ [event])) as (extra & -> & Hlen & Htitles).
      exists (event :: extra). rewrite <- app_assoc. split; [reflexivity|].
      split; [cbn [List.length]; lia|].
      intros e [<- | He].
      * exists lang. split; [now left | reflexivity].
      * destruct (Htitles e He) as (l & Hl & Ht). exists l. split; [now right | exact Ht].
    + destruct (IH events) as (extra & -> & Hlen & Htitles).
      exists extra. split; [reflexivity|]. split; [cbn [List.length]; lia|].
      intros e He. destruct (Htitles e He) as (l & Hl & Ht).
      exists l. split; [now right | exact Ht].
Qed.

Lemma timeSince_reads (date : Z) (oracle : nat -> Z) (n : nat) :
  snd (timeSince date oracle n) = S n.
Proof. reflexivity. Qed.

Lemma byCreationAsc_total (a b : RepositoryWithLanguages) :
  byCreationAsc a b = true \/ byCreationAsc b a = true.
Proof. unfold byCreationAsc. rewrite !Z.leb_le. lia. Qed.

Lemma byCreationAsc_trans (a b c : RepositoryWithLanguages) :
  byCreationAsc a b = true -> byCreationAsc b c = true -> byCreationAsc a c = true.
Proof. unfold byCreationAsc. rewrite !Z.leb_le. lia. Qed.

Lemma byYearAsc_total (a b : TimelineEvent) : byYearAsc a b = true \/ byYearAsc b a = true.
Proof. unfold byYearAsc. rewrite !Z.leb_le. lia. Qed.

Lemma byYearAsc_trans (a b c : TimelineEvent) :
  byYearAsc a b = true -> byYearAsc b c = true -> byYearAsc a c = true.
Proof. unfold byYearAsc. rewrite !Z.leb_le. lia. Qed.

Lemma StronglySorted_weaken {A} (R R' : A -> A -> Prop) (l : list A) :
  (forall x y, R x y -> R' x y) -> StronglySorted R l -> StronglySorted R' l.
Proof.
  intros Himp Hs. rewrite <- (map_id l). now apply StronglySorted_map with (R := R).
Qed.

(** X15: the timeline.  Without repositories it is the single event
    "Joined GitHub" and the clock is not read; otherwise the clock is read
    once.  In both cases the events are in ascending order of year, no two
    of them have the same key [year-title], there are between one and six,
    the key of the "Joined GitHub" event is present, and every title is one
    of the four kinds that the builder writes.  With repositories the key
    of "Latest launch" in the year of a most recently updated repository is
    present as well. *)
Theorem buildTimeline_shape {cal : Calendar} (u : GitHubUser)
    (repos : list RepositoryWithLanguages) (sa : SkillAnalysis)
    (oracle : nat -> Z) (n : nat) :
  let run := buildTimeline u repos sa oracle n in
  let result := fst run in
  (repos = [] -> map title result = ["Joined GitHub"] /\ snd run = n)
  /\ (repos <> [] ->
      snd run = S n
      /\ exists latest,
           In latest repos
           /\ (forall other, In other repos -> updated_at other <= updated_at latest)
           /\ In (numberToString (getFullYear (updated_at latest)) ^^ "-Latest launch")
                 (map eventKey result))
  /\ StronglySorted (fun a b => year a <= year b) result
  /\ NoDup (map eventKey result)
  /\ (1 <= List.length result <= 6)%nat
  /\ In (numberToString (getFullYear (user_created_at u)) ^^ "-Joined GitHub")
        (map eventKey result)
  /\ (forall e, In e result -> timelineTitle repos sa (title e)).
Proof.
  cbv zeta. unfold buildTimeline. cbv zeta.
  destruct (stableSort byCreationAsc repos) as [|firstRepo restC] eqn:Hc.
  { assert (Hempty : repos = []).
    { apply length_zero_iff_nil. rewrite <- (stableSort_length byCreationAsc), Hc.
      reflexivity. }
    unfold ret. cbn [fst snd map title].
    split; [intros _; split; reflexivity|].
    split; [intros Hne; contradiction|].
    split; [repeat constructor|].
    split; [repeat constructor; intros []|].
    split; [cbn [List.length]; lia|].
    split; [left; reflexivity|].
    intros e [<- | []]. left. reflexivity. }
  assert (Hne : repos <> []) by (intros ->; discriminate Hc).
  destruct (stableSort byUpdateDesc repos) as [|latestRepo restU] eqn:Hu.
  { exfalso. now apply (stableSort_nonempty byUpdateDesc repos Hne). }
  unfold bind, ret.
  pose proof (timeSince_reads (updated_at latestRepo) oracle n) as Hreads.
  destruct (timeSince (updated_at latestRepo) oracle n) as [since n'].
  cbn [fst snd] in Hreads |- *. subst n'.
  unfold adoptionEvents.
  match goal with
  | |- context [fold_left ?f (sliceTo 3 (topLanguages sa)) ?evs] =>
      destruct (adoptionEvents_extends (firstRepo :: restC) (sliceTo 3 (topLanguages sa)) evs)
        as (extra & Hextra & Hlen & Htitles)
  end.
  rewrite Hextra. clear Hextra.
  match goal with
  | |- context [dedupeEvents (stableSort byYearAsc ?evs)] => set (events := evs)
  end.
  assert (Hthree : (List.length extra <= 3)%nat).
  { etransitivity; [exact Hlen|]. unfold sliceTo. apply firstn_le_length. }
  assert (Hall : List.length events = (3 + List.length extra)%nat).
  { subst events. rewrite !length_app. cbn [List.length]. lia. }
  set (sorted := stableSort byYearAsc events).
  assert (HsortedIn : forall e, In e sorted <-> In e events)
    by (intros e; apply stableSort_In).
  assert (HsortedLen : List.length sorted = List.length events)
    by apply stableSort_length.
  assert (Hordered : StronglySorted (fun a b => year a <= year b) sorted).
  { apply StronglySorted_weaken with (R := fun a b => byYearAsc a b = true).
    - intros x y. unfold byYearAsc. rewrite Z.leb_le. lia.
    - apply stableSort_sorted; [apply byYearAsc_total | apply byYearAsc_trans]. }
  unfold dedupeEvents.
  destruct (dedupeEvents_fold (fun a b => year a <= year b) sorted [])
    as (Hnodup & Hsorted & Hincl & Hkeys & Hlens).
  cbn [app List.length] in Hsorted, Hincl, Hkeys, Hlens.
  assert (Hlatest : forall other, In other repos -> updated_at other <= updated_at latestRepo).
  { intros other Hother.
    pose proof (stableSort_head_first byUpdateDesc byUpdateDesc_total byUpdateDesc_trans
                  repos latestRepo restU Hu other Hother) as Hle.
    unfold byUpdateDesc in Hle. apply Z.leb_le in Hle. lia. }
  assert (Hfirst : forall other, In other repos -> created_at firstRepo <= created_at other).
  { intros other Hother.
    pose proof (stableSort_head_first byCreationAsc byCreationAsc_total byCreationAsc_trans
                  repos firstRepo restC Hc other Hother) as Hle.
    unfold byCreationAsc in Hle. apply Z.leb_le in Hle. lia. }
  assert (HfirstIn : In firstRepo repos).
  { apply (stableSort_In byCreationAsc). rewrite Hc. now left. }
  assert (HlatestIn : In latestRepo repos).
  { apply (stableSort_In byUpdateDesc). rewrite Hu. now left. }
  split; [intros Hempty; contradiction|].
  split.
  { intros _. split; [reflexivity|]. exists latestRepo.
    split; [exact HlatestIn|]. split; [exact Hlatest|].
    match goal with
    | |- In ?k _ =>
        change k with
          (eventKey {| year := getFullYear (updated_at latestRepo);
                       title := "Latest launch";
                       ev_description :=
                         name latestRepo ^^ " updated " ^^ since ^^ " ago" |})
    end.
    apply Hkeys. apply HsortedIn. subst events. apply in_or_app. right. left.
    reflexivity. }
  split; [apply Hsorted; exact Hordered|].
  split; [apply Hnodup; constructor|].
  split.
  { split; [|lia].
    destruct sorted as [|e0 rest] eqn:Hs; [cbn [List.length] in HsortedLen; lia|].
    cbn [fold_left existsb negb app].
    destruct (dedupeEvents_fold (fun a b => year a <= year b) rest [e0])
      as (_ & _ & _ & _ & Hlower).
    cbn [List.length] in Hlower. lia. }
  split.
  { match goal with
    | |- In ?k _ =>
        change k with
          (eventKey {| year := getFullYear (user_created_at u);
                       title := "Joined GitHub";
                       ev_description :=
                         "Account created • " ^^ numberToString (totalProjects sa)
                           ^^ " public repositories analysed" |})
    end.
    apply Hkeys. apply HsortedIn. subst events. apply in_or_app. left.
    apply in_or_app. left. left. reflexivity. }
  intros e He. apply Hincl, HsortedIn in He. subst events.
  apply in_app_or in He. destruct He as [He | [<- | []]].
  - apply in_app_or in He. destruct He as [[<- | [<- | []]] | He].
    + left. reflexivity.
    + right. left. exists firstRepo. split; [exact HfirstIn|]. split; [exact Hfirst|].
      reflexivity.
    + right. right. left. destruct (Htitles e He) as (lang & Hlang & Ht).
      exists lang. split; [exact Hlang | exact Ht].
  - right. right. right. reflexivity.
Qed.

Lemma buildTimeline_shape_witness :
  snd (buildTimeline (cal := sampleCalendar) sampleUser [repoShop; repoNotes]
         (fst (fst (sampleForecastInput 80 AutomationBasic))) (fun _ => sampleNow) 0%nat)
  = 1%nat.
Proof.
  apply (proj1 (proj2 (buildTimeline_shape (cal := sampleCalendar) sampleUser
                         [repoShop; repoNotes]
                         (fst (fst (sampleForecastInput 80 AutomationBasic)))
                         (fun _ => sampleNow) 0%nat))).
  discriminate.
Defined.

(** X16: the wording of an age.  [timeSince] reads the clock once.  Let
    [days] be the elapsed milliseconds over 86400000, rounded to the nearest
    integer.  Up to 1 day (also for a date in the future) the text is
    "1 day"; from 2 to 6 days it is that number of days; from 7 to 31 days
    it is days/7 rounded, which is 1 to 4, in "wks"; from 32 to 344 days it
    is days/30 rounded, which is 1 to 11, in "mo"; from 345 to 547 days it
    is "1 yr"; from 548 days on it is days/365 rounded, at least 2, in
    "yrs". *)
Theorem timeSince_ranges (date : Z) (oracle : nat -> Z) (n : nat) (days : Z) :
  nearestInteger (oracle n - date) 86400000 days ->
  let text := fst (timeSince date oracle n) in
  snd (timeSince date oracle n) = S n
  /\ (days <= 1 -> text = "1 day")
  /\ (2 <= days <= 6 -> text = numberToString days ^^ " days")
  /\ (7 <= days <= 31 ->
      exists weeks,
        nearestInteger days 7 weeks /\ 1 <= weeks <= 4
        /\ text = numberToString weeks ^^ " wks")
  /\ (32 <= days <= 344 ->
      exists months,
        nearestInteger days 30 months /\ 1 <= months <= 11
        /\ text = numberToString months ^^ " mo")
  /\ (345 <= days <= 547 -> text = "1 yr")
  /\ (548 <= days ->
      exists years,
        nearestInteger days 365 years /\ 2 <= years
        /\ text = numberToString years ^^ " yrs").
Proof.
  intros Hdays. apply nearestInteger_unique in Hdays; [|lia].
  cbv zeta. unfold timeSince, bind, newDate, ret. cbn [fst snd]. cbv zeta.
  change (1000 * 60 * 60 * 24) with 86400000. rewrite <- Hdays. clear Hdays.
  assert (Hweeks : forall d, 7 <= d <= 31 -> 1 <= roundDiv d 7 <= 4)
    by (intros d Hd; unfold roundDiv; Z.div_mod_to_equations; lia).
  assert (Hweeks' : forall d, 32 <= d -> 5 <= roundDiv d 7)
    by (intros d Hd; unfold roundDiv; Z.div_mod_to_equations; lia).
  assert (Hmonths : forall d, 32 <= d <= 344 -> 1 <= roundDiv d 30 <= 11)
    by (intros d Hd; unfold roundDiv; Z.div_mod_to_equations; lia).
  assert (Hmonths' : forall d, 345 <= d -> 12 <= roundDiv d 30)
    by (intros d Hd; unfold roundDiv; Z.div_mod_to_equations; lia).
  assert (Hyear : forall d, 345 <= d <= 547 -> roundDiv d 365 = 1)
    by (intros d Hd; unfold roundDiv; Z.div_mod_to_equations; lia).
  assert (Hyears : forall d, 548 <= d -> 2 <= roundDiv d 365)
    by (intros d Hd; unfold roundDiv; Z.div_mod_to_equations; lia).
  split; [reflexivity|].
  split.
  { intros Hd. destruct (Z.leb_spec days 1); [reflexivity | lia]. }
  split.
  { intros Hd. destruct (Z.leb_spec days 1); [lia|].
    destruct (Z.ltb_spec days 7); [reflexivity | lia]. }
  split.
  { intros Hd. destruct (Z.leb_spec days 1); [lia|].
    destruct (Z.ltb_spec days 7); [lia|].
    pose proof (Hweeks days Hd) as Hw.
    destruct (Z.ltb_spec (roundDiv days 7) 5); [|lia].
    exists (roundDiv days 7).
    split; [apply roundDiv_nearest; lia|]. split; [exact Hw | reflexivity]. }
  split.
  { intros Hd. destruct (Z.leb_spec days 1); [lia|].
    destruct (Z.ltb_spec days 7); [lia|].
    pose proof (Hweeks' days (proj1 Hd)) as Hw.
    destruct (Z.ltb_spec (roundDiv days 7) 5); [lia|].
    pose proof (Hmonths days Hd) as Hm.
    destruct (Z.ltb_spec (roundDiv days 30) 12); [|lia].
    exists (roundDiv days 30).
    split; [apply roundDiv_nearest; lia|]. split; [exact Hm | reflexivity]. }
  split.
  { intros Hd. destruct (Z.leb_spec days 1); [lia|].
    destruct (Z.ltb_spec days 7); [lia|].
    assert (Hw : 5 <= roundDiv days 7) by (apply Hweeks'; lia).
    destruct (Z.ltb_spec (roundDiv days 7) 5); [lia|].
    assert (Hm : 12 <= roundDiv days 30) by (apply Hmonths'; lia).
    destruct (Z.ltb_spec (roundDiv days 30) 12); [lia|].
    rewrite (Hyear days Hd). reflexivity. }
  intros Hd. destruct (Z.leb_spec days 1); [lia|].
  destruct (Z.ltb_spec days 7); [lia|].
  assert (Hw : 5 <= roundDiv days 7) by (apply Hweeks'; lia).
  destruct (Z.ltb_spec (roundDiv days 7) 5); [lia|].
  assert (Hm : 12 <= roundDiv days 30) by (apply Hmonths'; lia).
  destruct (Z.ltb_spec (roundDiv days 30) 12); [lia|].
  pose proof (Hyears days Hd) as Hy.
  exists (roundDiv days 365).
  split; [apply roundDiv_nearest; lia|]. split; [exact Hy|].
  destruct (Z.gtb_spec (roundDiv days 365) 1); [reflexivity | lia].
Qed.

Lemma timeSince_ranges_witness :
  nearestInteger (sampleNow - (sampleNow - 40 * dayMs)) 86400000 40
  /\ exists months,
       nearestInteger 40 30 months /\ 1 <= months <= 11
       /\ fst (timeSince (sampleNow - 40 * dayMs) (fun _ => sampleNow) 0%nat)
          = numberToString months ^^ " mo".
Proof.
  assert (Hdays : nearestInteger (sampleNow - (sampleNow - 40 * dayMs)) 86400000 40)
    by (vm_compute; split; [discriminate | reflexivity]).
  split; [exact Hdays|].
  apply (timeSince_ranges (sampleNow - 40 * dayMs) (fun _ => sampleNow) 0%nat 40 Hdays).
  lia.
Defined.

(** ** Contribution statistics *)

Lemma countWhere_cons {A} (p : A -> bool) (x : A) (l : list A) :
  countWhere p (x :: l) = (if p x then 1 else 0) + countWhere p l.
Proof.
  unfold countWhere. cbn [filter]. destruct (p x); cbn [List.length]; lia.
Qed.

Lemma countWhere_filter {A} (p q : A -> bool) (l : list A) :
  countWhere p (filter q l) = countWhere (fun x => q x && p x) l.
Proof.
  induction l as [|x l IH]; [reflexivity|].
  cbn [filter]. rewrite (countWhere_cons (fun x => q x && p x)).
  destruct (q x); cbn [andb]; [rewrite countWhere_cons|]; rewrite IH; lia.
Qed.

Lemma filter_absorb {A} (p q : A -> bool) (l : list A) :
  (forall x, p x = true -> q x = true) -> filter p (filter q l) = filter p l.
Proof.
  intros Himp. induction l as [|x l IH]; [reflexivity|].
  cbn [filter]. destruct (q x) eqn:Hq.
  - cbn [filter]. now rewrite IH.
  - rewrite IH. destruct (p x) eqn:Hp; [|reflexivity].
    rewrite (Himp x Hp) in Hq. discriminate.
Qed.

(** The titles that the loop over the pull-request events meets. *)
Lemma scanPREvents_fold (events : list GitHubEvent) (s : PRScan) :
  let titles :=
    flat_map (fun e =>
                if actionIs e "opened" then
                  match pull_request (payload e) with
                  | Some pr => [prp_title pr]
                  | None => []
                  end
                else []) events in
  let final := fold_left scanPREvent events s in
  scan_totalPRs final = scan_totalPRs s + countWhere (fun e => actionIs e "opened") events
  /\ scan_mergedPRs final = scan_mergedPRs s + countWhere carriesMerged events
  /\ scan_openPRs final = scan_openPRs s + countWhere carriesOpen events
  /\ map pr_title (scan_recentPRs final)
     = map pr_title (scan_recentPRs s)
       ++ firstn (5 - List.length (scan_recentPRs s)) titles.
Proof.
  cbv zeta. revert s. induction events as [|e events IH]; intros s.
  - cbn [fold_left flat_map]. unfold countWhere. cbn [filter List.length].
    rewrite firstn_nil, app_nil_r.
    split; [lia|]. split; [lia|]. split; [lia | reflexivity].
  - cbn [fold_left flat_map]. rewrite !countWhere_cons.
    destruct (IH (scanPREvent s e)) as (-> & -> & -> & ->). clear IH.
    unfold scanPREvent, carriesMerged, carriesOpen. cbv zeta.
    destruct (pull_request (payload e)) as [pr|];
      cbn [scan_totalPRs scan_mergedPRs scan_openPRs scan_recentPRs].
    + destruct (actionIs e "opened"), (prp_merged pr), (String.eqb (prp_state pr) "open");
        cbn [negb andb];
        (split; [lia|]; split; [lia|]; split; [lia|]);
        rewrite ?Bool.andb_true_r, ?Bool.andb_false_r;
        try reflexivity;
        (destruct (Nat.ltb_spec (List.length (scan_recentPRs s)) 5) as [Hlt | Hge];
         [ rewrite length_app, map_app, <- app_assoc; cbn [List.length map pr_title app];
           replace (5 - List.length (scan_recentPRs s))%nat
             with (S (5 - (List.length (scan_recentPRs s) + 1)))%nat by lia;
           reflexivity
         | replace (5 - List.length (scan_recentPRs s))%nat with 0%nat by lia;
           reflexivity ]).
    + destruct (actionIs e "opened"); cbn [app]; (split; [lia|]; split; [lia|]; split; [lia|]);
        reflexivity.
Qed.

Lemma scanIssueEvents_fold (events : list GitHubEvent) (total closed : Z) :
  fold_left scanIssueEvent events (total, closed)
  = (total + countWhere (fun e => actionIs e "opened") events,
     closed + countWhere (fun e => actionIs e "closed") events).
Proof.
  revert total closed. induction events as [|e events IH]; intros total closed.
  - cbn [fold_left]. unfold countWhere. cbn [filter List.length]. f_equal; lia.
  - cbn [fold_left]. rewrite !countWhere_cons. unfold scanIssueEvent at 2.
    rewrite IH. destruct (actionIs e "opened"), (actionIs e "closed"); f_equal; lia.
Qed.

Lemma flat_map_filter {A B} (q : A -> bool) (f : A -> list B) (l : list A) :
  flat_map f (filter q l) = flat_map (fun x => if q x then f x else []) l.
Proof.
  induction l as [|x l IH]; [reflexivity|].
  cbn [filter flat_map]. destruct (q x); cbn [flat_map app]; now rewrite IH.
Qed.

Lemma filter_filter_andb {A} (f g : A -> bool) (l : list A) :
  filter f (filter g l) = filter (fun x => g x && f x) l.
Proof.
  induction l as [|x l IH]; [reflexivity|].
  cbn [filter]. destruct (g x); cbn [andb filter]; now rewrite IH.
Qed.

(** The entries that the loop pushes describe, in order, the opened events
    that carry a pull request, as long as fewer than five are held. *)
Lemma scanPREvents_recent (events prior : list GitHubEvent) (s : PRScan) :
  Forall2 describesPullRequest prior (scan_recentPRs s) ->
  Forall2 describesPullRequest
    (prior
     ++ firstn (5 - List.length prior)
          (filter (fun e =>
                     actionIs e "opened"
                     && match pull_request (payload e) with Some _ => true | None => false end)
                  events))
    (scan_recentPRs (fold_left scanPREvent events s)).
Proof.
  revert prior s. induction events as [|e events IH]; intros prior s Hprior.
  - cbn [fold_left filter]. rewrite firstn_nil, app_nil_r. exact Hprior.
  - cbn [fold_left filter].
    pose proof (Forall2_length Hprior) as Hlen.
    destruct (pull_request (payload e)) as [pr|] eqn:Hpr.
    + destruct (actionIs e "opened") eqn:Hopened; cbn [andb].
      * destruct (Nat.ltb_spec (List.length (scan_recentPRs s)) 5) as [Hlt | Hge].
        -- replace (5 - List.length prior)%nat with (S (5 - List.length (prior ++ [e])))%nat
             by (rewrite length_app; cbn [List.length]; lia).
           cbn [firstn].
           replace (prior ++ e :: firstn (5 - List.length (prior ++ [e])) (filter _ events))
             with ((prior ++ [e]) ++ firstn (5 - List.length (prior ++ [e])) (filter
                     (fun e0 =>
                        actionIs e0 "opened"
                        && match pull_request (payload e0) with
                           | Some _ => true
                           | None => false
                           end) events))
             by (now rewrite <- app_assoc).
           apply IH. unfold scanPREvent. rewrite Hpr, Hopened. cbv zeta.
           cbn [scan_recentPRs].
           apply Nat.ltb_lt in Hlt. rewrite Hlt. cbn [andb].
           apply Forall2_app; [exact Hprior|]. constructor; [|constructor].
           exists pr. cbn [pr_repo pr_title pr_url pr_createdAt pr_state].
           repeat (split; [reflexivity|]).
           destruct (prp_merged pr), (String.eqb_spec (prp_state pr) "open");
             repeat split; intros; try discriminate; try reflexivity;
             try tauto; try (destruct H; congruence).
        -- replace (5 - List.length prior)%nat with 0%nat by lia.
           cbn [firstn]. rewrite app_nil_r.
           specialize (IH prior (scanPREvent s e)).
           replace (5 - List.length prior)%nat with 0%nat in IH by lia.
           cbn [firstn] in IH. rewrite app_nil_r in IH. apply IH.
           unfold scanPREvent. rewrite Hpr, Hopened. cbv zeta. cbn [scan_recentPRs].
           apply Nat.ltb_ge in Hge. rewrite Hge. cbn [andb]. exact Hprior.
      * apply IH. unfold scanPREvent. rewrite Hpr, Hopened. cbv zeta.
        cbn [scan_recentPRs]. rewrite Bool.andb_false_r. exact Hprior.
    + rewrite Bool.andb_false_r. apply IH. unfold scanPREvent. rewrite Hpr.
      cbn [scan_recentPRs]. exact Hprior.
Qed.

Lemma parseContributionStats_recent (events : list GitHubEvent) :
  Forall2 describesPullRequest (firstn 5 (openedPullRequests events))
          (recentPRs (parseContributionStats events)).
Proof.
  unfold parseContributionStats. cbv zeta.
  destruct (fold_left scanIssueEvent _ (0, 0)) as [issuesTotal issuesClosed].
  cbn [recentPRs].
  match goal with
  | |- context [fold_left scanPREvent ?l ?s] =>
      pose proof (scanPREvents_recent l [] s (Forall2_nil _)) as Hrecent
  end.
  cbn [app List.length] in Hrecent. rewrite filter_filter_andb in Hrecent.
  unfold openedPullRequests, isPullRequestEvent.
  replace (filter _ events)
    with (filter
            (fun x =>
               String.eqb (ev_type x) "PullRequestEvent"
               && (actionIs x "opened"
                   && match pull_request (payload x) with
                      | Some _ => true
                      | None => false
                      end)) events).
  - exact Hrecent.
  - apply filter_ext. intros e. now rewrite Bool.andb_assoc.
Qed.

Lemma parseContributionStats_run (events : list GitHubEvent) :
  let stats := parseContributionStats events in
  totalPRs stats = countWhere (fun e => isPullRequestEvent e && actionIs e "opened") events
  /\ mergedPRs stats = countWhere (fun e => isPullRequestEvent e && carriesMerged e) events
  /\ openPRs stats = countWhere (fun e => isPullRequestEvent e && carriesOpen e) events
  /\ totalIssues stats = countWhere (fun e => isIssuesEvent e && actionIs e "opened") events
  /\ closedIssues stats = countWhere (fun e => isIssuesEvent e && actionIs e "closed") events
  /\ map pr_title (recentPRs stats) = firstn 5 (openedTitles events).
Proof.
  cbv zeta. unfold parseContributionStats. cbv zeta.
  rewrite scanIssueEvents_fold.
  cbn [totalPRs mergedPRs openPRs totalIssues closedIssues recentPRs].
  match goal with
  | |- context [fold_left scanPREvent ?l ?s] =>
      destruct (scanPREvents_fold l s) as (Ht & Hm & Ho & Hr)
  end.
  cbn [scan_totalPRs scan_mergedPRs scan_openPRs scan_recentPRs map app List.length] in *.
  rewrite Ht, Hm, Ho, Hr, !countWhere_filter, flat_map_filter.
  repeat (split; [reflexivity|]).
  unfold openedTitles, isPullRequestEvent.
  f_equal. apply flat_map_ext. intros e.
  destruct (String.eqb (ev_type e) "PullRequestEvent"); reflexivity.
Qed.

(** X17: what the scan of the event feed counts.  Each counter is the
    number of events of its kind ("opened" pull-request events, events
    carrying a merged, respectively an open and unmerged, pull request,
    "opened" and "closed" issue events); the recent list holds, in feed
    order, one entry for each of the first five "opened" pull-request events
    that carry a pull request, with the short repository name, the title,
    the link, the creation date and the state (merged, open or closed) of
    that pull request.  Hence the list has at most five entries and never
    more than [totalPRs], merged and open together never exceed the
    pull-request events, and events of other types do not change the
    result. *)
Theorem parseContributionStats_counts (events : list GitHubEvent) :
  let stats := parseContributionStats events in
  totalPRs stats = countWhere (fun e => isPullRequestEvent e && actionIs e "opened") events
  /\ mergedPRs stats = countWhere (fun e => isPullRequestEvent e && carriesMerged e) events
  /\ openPRs stats = countWhere (fun e => isPullRequestEvent e && carriesOpen e) events
  /\ totalIssues stats = countWhere (fun e => isIssuesEvent e && actionIs e "opened") events
  /\ closedIssues stats = countWhere (fun e => isIssuesEvent e && actionIs e "closed") events
  /\ Forall2 describesPullRequest (firstn 5 (openedPullRequests events)) (recentPRs stats)
  /\ map pr_title (recentPRs stats) = firstn 5 (openedTitles events)
  /\ (List.length (recentPRs stats) <= 5)%nat
  /\ Z.of_nat (List.length (recentPRs stats)) <= totalPRs stats
  /\ mergedPRs stats + openPRs stats <= countWhere isPullRequestEvent events
  /\ parseContributionStats
       (filter (fun e => isPullRequestEvent e || isIssuesEvent e) events) = stats.
Proof.
  cbv zeta. destruct (parseContributionStats_run events) as (Ht & Hm & Ho & Hi & Hc & Hr).
  pose proof (parseContributionStats_recent events) as Hentries.
  cbv zeta in *.
  assert (Hlen : List.length (recentPRs (parseContributionStats events))
                 = List.length (firstn 5 (openedTitles events))).
  { rewrite <- Hr. now rewrite length_map. }
  split; [exact Ht|]. split; [exact Hm|]. split; [exact Ho|].
  split; [exact Hi|]. split; [exact Hc|]. split; [exact Hentries|]. split; [exact Hr|].
  split; [rewrite Hlen; apply firstn_le_length|].
  split.
  { rewrite Hlen, Ht. rewrite length_firstn.
    assert (Htitles : Z.of_nat (List.length (openedTitles events))
                      <= countWhere (fun e => isPullRequestEvent e && actionIs e "opened")
                                    events).
    { clear. induction events as [|e events IH]; [reflexivity|].
      rewrite countWhere_cons. unfold openedTitles in *. cbn [flat_map].
      rewrite length_app.
      destruct (isPullRequestEvent e && actionIs e "opened");
        [destruct (pull_request (payload e))|]; cbn [List.length]; lia. }
    lia. }
  split.
  { rewrite Hm, Ho. clear. induction events as [|e events IH]; [reflexivity|].
    rewrite !countWhere_cons. unfold carriesMerged, carriesOpen in *.
    destruct (isPullRequestEvent e); cbn [andb]; [|lia].
    destruct (pull_request (payload e)) as [pr|]; [destruct (prp_merged pr)|];
      cbn [negb andb]; try lia.
    destruct (String.eqb (prp_state pr) "open"); lia. }
  unfold parseContributionStats.
  rewrite !filter_absorb; [reflexivity | |];
    intros e He; unfold isPullRequestEvent, isIssuesEvent; rewrite He;
    first [reflexivity | apply Bool.orb_true_r].
Qed.

(** ** Anonymous request window *)

Lemma anonymousCalls_within (later : list Z) (w : AnonymousWindow) :
  (forall t, In t later -> t - anonWindowStart w <= ANON_WINDOW_MS) ->
  anonymousCalls later w
  = map (fun k => anonRequestCount w + Z.of_nat k + 1 <=? ANON_LIMIT)
        (seq 0 (List.length later)).
Proof.
  revert w. induction later as [|t later IH]; intros w Hwithin; [reflexivity|].
  cbn [anonymousCalls List.length seq map]. unfold enforceAnonymousLimit.
  cbn [hasToken]. cbv zeta.
  assert (Ht : t - anonWindowStart w <= ANON_WINDOW_MS) by (apply Hwithin; now left).
  destruct (Z.gtb_spec (t - anonWindowStart w) ANON_WINDOW_MS) as [Habs | _]; [lia|].
  cbn [anonWindowStart anonRequestCount].
  assert (Hrest :
            anonymousCalls later
              {| anonWindowStart := anonWindowStart w;
                 anonRequestCount := anonRequestCount w + 1 |}
            = map (fun k => anonRequestCount w + Z.of_nat k + 1 <=? ANON_LIMIT)
                  (seq 1 (List.length later))).
  { rewrite IH.
    - cbn [anonWindowStart anonRequestCount]. rewrite <- seq_shift, map_map.
      apply map_ext. intros k. f_equal. lia.
    - intros t' Ht'. cbn [anonWindowStart]. apply Hwithin. now right. }
  destruct (Z.gtb_spec (anonRequestCount w + 1) ANON_LIMIT) as [Hover | Hin];
    rewrite Hrest; f_equal; cbn [Z.of_nat]; symmetry;
    [apply Z.leb_gt | apply Z.leb_le]; lia.
Qed.

(** X18: the burst limit of anonymous requests.  A call made more than 60
    seconds after the start of the window opens a new window; of that call
    and the calls that follow it within 60 seconds, exactly the first 25
    return and every later one throws, since a rejected call still counts. *)
Theorem anonymousCalls_burst (w : AnonymousWindow) (t0 : Z) (later : list Z) :
  t0 - anonWindowStart w > ANON_WINDOW_MS ->
  (forall t, In t later -> t - t0 <= ANON_WINDOW_MS) ->
  anonymousCalls (t0 :: later) w
  = map (fun k => (k <? 25)%nat) (seq 0 (S (List.length later))).
Proof.
  intros Hnew Hwithin.
  cbn [anonymousCalls seq map]. unfold enforceAnonymousLimit. cbn [hasToken]. cbv zeta.
  destruct (Z.gtb_spec (t0 - anonWindowStart w) ANON_WINDOW_MS) as [_ | Habs]; [|lia].
  cbn [anonWindowStart anonRequestCount].
  destruct (Z.gtb_spec (0 + 1) ANON_LIMIT) as [Habs | _]; [unfold ANON_LIMIT in Habs; lia|].
  f_equal. rewrite anonymousCalls_within.
  - cbn [anonRequestCount]. rewrite <- seq_shift, map_map. apply map_ext. intros k.
    unfold ANON_LIMIT.
    destruct (Z.leb_spec (0 + 1 + Z.of_nat k + 1) 25), (Nat.ltb_spec (S k) 25);
      try reflexivity; lia.
  - intros t Ht. cbn [anonWindowStart]. now apply Hwithin.
Qed.

Lemma anonymousCalls_burst_witness :
  anonymousCalls (sampleNow :: repeat (sampleNow + 1000) 30)
                 {| anonWindowStart := 0; anonRequestCount := 0 |}
  = map (fun k => (k <? 25)%nat) (seq 0 31).
Proof.
  apply (anonymousCalls_burst {| anonWindowStart := 0; anonRequestCount := 0 |} sampleNow
           (repeat (sampleNow + 1000) 30)).
  - vm_compute. reflexivity.
  - intros t Ht. apply repeat_spec in Ht. subst t. vm_compute. discriminate.
Defined.

(** ** The repository list handed to the engine *)

Lemma flat_map_map {A B C} (f : B -> list C) (g : A -> B) (l : list A) :
  flat_map f (map g l) = flat_map (fun x => f (g x)) l.
Proof. induction l as [|x l IH]; [reflexivity|]. cbn [map flat_map]. now rewrite IH. Qed.

(** X19: what [analyzeUser] hands to the engine.  The list has the
    repositories of the listing, in order and under their names, and every
    entry has a byte map.  The bytes of a language are those fetched for the
    first fifteen repositories plus one byte for each later repository whose
    primary language it is; a failed request counts as an empty map. *)
Theorem analyzeUserRepos_languages
    (fetchLanguages : Repository -> option (list (string * Z))) (repos : list Repository) :
  let handed := analyzeUserRepos fetchLanguages repos in
  map name handed = map repo_name repos
  /\ (forall repo, In repo handed -> languageStats repo <> None)
  /\ allLanguageStats handed
     = flat_map (fetchedOrEmpty fetchLanguages) (firstn 15 repos)
       ++ flat_map basicLanguageStats (skipn 15 repos)
  /\ (forall lang,
        languageBytes handed lang
        = sumZ (map snd (filter (fun entry => String.eqb (fst entry) lang)
                                (flat_map (fetchedOrEmpty fetchLanguages)
                                          (firstn 15 repos))))
          + countWhere (primaryLanguageIs lang) (skipn 15 repos)).
Proof.
  cbv zeta.
  assert (Hall : allLanguageStats (analyzeUserRepos fetchLanguages repos)
                 = flat_map (fetchedOrEmpty fetchLanguages) (firstn 15 repos)
                   ++ flat_map basicLanguageStats (skipn 15 repos)).
  { unfold analyzeUserRepos, allLanguageStats, sliceTo. cbv zeta.
    rewrite flat_map_app, !flat_map_map. f_equal.
    apply flat_map_ext. intros repo. unfold fetchedOrEmpty.
    destruct (fetchLanguages repo); reflexivity. }
  split.
  { unfold analyzeUserRepos, sliceTo. cbv zeta. rewrite map_app, !map_map.
    rewrite <- (firstn_skipn 15 repos) at 3. rewrite map_app. f_equal.
    apply map_ext. intros repo. destruct (fetchLanguages repo); reflexivity. }
  split.
  { intros repo Hin. unfold analyzeUserRepos in Hin. cbv zeta in Hin.
    apply in_app_or in Hin. destruct Hin as [Hin | Hin];
      apply in_map_iff in Hin; destruct Hin as (r & <- & _).
    - destruct (fetchLanguages r); discriminate.
    - discriminate. }
  split; [exact Hall|].
  intros lang. unfold languageBytes. rewrite Hall, filter_app, map_app, sumZ_app.
  f_equal. generalize (skipn 15 repos). intros others.
  induction others as [|repo others IH]; [reflexivity|].
  cbn [flat_map]. rewrite filter_app, map_app, sumZ_app, IH, countWhere_cons.
  f_equal. unfold basicLanguageStats, primaryLanguageIs.
  destruct (repo_language repo) as [l|]; [|reflexivity].
  destruct (String.eqb l EmptyString); [reflexivity|].
  cbn [filter fst negb andb]. destruct (String.eqb l lang); reflexivity.
Qed.

(** ** Icon lookup *)

Lemma iconOf_None (table : list (string * string)) (key : string) :
  iconOf table key = None <-> ~ In key (map fst table).
Proof.
  induction table as [|[k icon] table IH]; cbn [iconOf map fst In]; [tauto|].
  destruct (String.eqb k key) eqn:Hk.
  - apply String.eqb_eq in Hk. split; [discriminate | tauto].
  - apply String.eqb_neq in Hk. rewrite IH. tauto.
Qed.

Lemma iconOf_Some (table : list (string * string)) (key icon : string) :
  iconOf table key = Some icon -> In (key, icon) table.
Proof.
  induction table as [|[k i] table IH]; cbn [iconOf In]; [discriminate|].
  destruct (String.eqb k key) eqn:Hk.
  - apply String.eqb_eq in Hk. intros [= ->]. left. now subst.
  - intros H. right. now apply IH.
Qed.

Lemma iconOf_In (table : list (string * string)) (key icon : string) :
  NoDup (map fst table) -> In (key, icon) table -> iconOf table key = Some icon.
Proof.
  induction table as [|[k i] table IH]; cbn [iconOf map fst In]; [intros _ []|].
  intros Hnodup Hin. inversion Hnodup as [|? ? Hfresh Hrest]; subst.
  destruct Hin as [Heq | Hin].
  - injection Heq as -> ->. now rewrite String.eqb_refl.
  - destruct (String.eqb k key) eqn:Hk; [|now apply IH].
    apply String.eqb_eq in Hk. subst k. exfalso. apply Hfresh.
    apply in_map_iff. now exists (key, icon).
Qed.

Lemma techIconMap_keys_NoDup : NoDup (map fst techIconMap).
Proof.
  assert (Hfixed : nodup string_dec (map fst techIconMap) = map fst techIconMap)
    by (vm_compute; reflexivity).
  rewrite <- Hfixed. apply NoDup_nodup.
Qed.

Lemma techIconMap_no_fallback : ~ In fallbackIcon (map snd techIconMap).
Proof.
  assert (Hnone : existsb (String.eqb fallbackIcon) (map snd techIconMap) = false)
    by (vm_compute; reflexivity).
  intros Hin. apply Bool.not_true_iff_false in Hnone. apply Hnone.
  apply existsb_exists. exists fallbackIcon. split; [exact Hin | apply String.eqb_refl].
Qed.

Lemma techIconMap_no_inherited (key : string) :
  In key objectPrototypeMembers -> ~ In key (map fst techIconMap).
Proof.
  assert (Hnone : forallb (fun k => negb (existsb (String.eqb k) (map fst techIconMap)))
                          objectPrototypeMembers = true)
    by (vm_compute; reflexivity).
  intros Hkey Hin. rewrite forallb_forall in Hnone. specialize (Hnone key Hkey).
  apply Bool.negb_true_iff in Hnone. apply Bool.not_true_iff_false in Hnone. apply Hnone.
  apply existsb_exists. exists key. split; [exact Hin | apply String.eqb_refl].
Qed.

Lemma arrIncludes_In (arr : list string) (x : string) :
  arrIncludes arr x = true <-> In x arr.
Proof.
  unfold arrIncludes. rewrite existsb_exists. split.
  - intros (y & Hy & Heq). apply String.eqb_eq in Heq. now subst.
  - intros Hin. exists x. split; [exact Hin | apply String.eqb_refl].
Qed.

Lemma find_first {A} (p : A -> bool) (l : list A) (i : nat) (x : A) :
  nth_error l i = Some x -> p x = true ->
  (forall j y, (j < i)%nat -> nth_error l j = Some y -> p y = false) ->
  find p l = Some x.
Proof.
  revert i. induction l as [|a l IH]; intros i Hnth Hx Hbefore.
  - destruct i; discriminate.
  - destruct i as [|i]; cbn [nth_error find] in *.
    + injection Hnth as ->. now rewrite Hx.
    + rewrite (Hbefore 0%nat a); [|lia | reflexivity].
      apply IH with i; [exact Hnth | exact Hx|].
      intros j y Hj Hy. apply (Hbefore (S j) y); [lia | exact Hy].
Qed.

(** X20: the icon of a technology.  A key of the table gets its own icon.
    The name of a member inherited from [Object.prototype] gets that member
    instead of a path, and no other name does.  A path returned is the
    fallback or an icon of the table, and it is the fallback exactly when
    the name is no key and no key matches it loosely. *)
Theorem getTechIcon_result (techName : string) :
  (forall icon, In (techName, icon) techIconMap -> getTechIcon techName = IconPath icon)
  /\ (forall member,
        getTechIcon techName = InheritedMember member
        <-> member = techName /\ In techName objectPrototypeMembers)
  /\ (forall path,
        getTechIcon techName = IconPath path ->
        path = fallbackIcon \/ In path (map snd techIconMap))
  /\ (getTechIcon techName = IconPath fallbackIcon
      <-> ~ In techName (map fst techIconMap)
          /\ ~ In techName objectPrototypeMembers
          /\ forall key, In key (map fst techIconMap) ->
                         looseIconMatch (toLowerCase techName) key = false).
Proof.
  pose proof techIconMap_keys_NoDup as Hnodup.
  pose proof techIconMap_no_fallback as Hfallback.
  pose proof techIconMap_no_inherited as Hinherited.
  unfold getTechIcon. cbv zeta.
  generalize dependent techIconMap. intros table Hnodup Hfallback Hinherited.
  assert (Hsnd : forall key icon, iconOf table key = Some icon -> In icon (map snd table)).
  { intros key icon H. apply iconOf_Some in H. apply in_map_iff. now exists (key, icon). }
  split.
  { intros icon Hin. now rewrite (iconOf_In table techName icon Hnodup Hin). }
  split.
  { intros member. split.
    - destruct (iconOf table techName) eqn:Hown; [discriminate|].
      destruct (arrIncludes objectPrototypeMembers techName) eqn:Hproto.
      + intros [= <-]. split; [reflexivity | now apply arrIncludes_In].
      + destruct (arrFind _ _) as [found|]; [destruct (iconOf table found)|]; discriminate.
    - intros [-> Hproto].
      assert (Hown : iconOf table techName = None)
        by (apply iconOf_None; now apply Hinherited).
      rewrite Hown. apply arrIncludes_In in Hproto. now rewrite Hproto. }
  split.
  { intros path. destruct (iconOf table techName) as [icon|] eqn:Hown.
    - intros [= <-]. right. now apply Hsnd with techName.
    - destruct (arrIncludes objectPrototypeMembers techName); [discriminate|].
      destruct (arrFind _ _) as [found|]; [|intros [= <-]; now left].
      destruct (iconOf table found) as [icon|] eqn:Hfound; intros [= <-];
        [right; now apply Hsnd with found | now left]. }
  split.
  - destruct (iconOf table techName) as [icon|] eqn:Hown.
    { intros [= ->]. exfalso. apply Hfallback. now apply Hsnd with techName. }
    apply iconOf_None in Hown.
    destruct (arrIncludes objectPrototypeMembers techName) eqn:Hproto; [discriminate|].
    assert (Hnot : ~ In techName objectPrototypeMembers).
    { intros Hin. apply arrIncludes_In in Hin. congruence. }
    unfold arrFind.
    destruct (find (looseIconMatch (toLowerCase techName)) (map fst table)) as [found|]
      eqn:Hfind.
    + apply find_some in Hfind. destruct Hfind as [Hkey _].
      destruct (iconOf table found) as [icon|] eqn:Hfound.
      * intros [= ->]. exfalso. apply Hfallback. now apply Hsnd with found.
      * apply iconOf_None in Hfound. contradiction.
    + intros _. split; [exact Hown|]. split; [exact Hnot|].
      intros key Hkey. now apply (find_none _ _ Hfind).
  - intros (Hown & Hnot & Hnone).
    apply iconOf_None in Hown. rewrite Hown.
    destruct (arrIncludes objectPrototypeMembers techName) eqn:Hproto.
    { apply arrIncludes_In in Hproto. contradiction. }
    unfold arrFind.
    destruct (find (looseIconMatch (toLowerCase techName)) (map fst table)) as [found|]
      eqn:Hfind; [|reflexivity].
    apply find_some in Hfind. destruct Hfind as [Hkey Hmatch].
    rewrite (Hnone found Hkey) in Hmatch. discriminate.
Qed.

Lemma getTechIcon_result_witness :
  getTechIcon "Vue" = IconPath "/src/assets/images/Vue.js.svg"
  /\ getTechIcon "Zig" = IconPath fallbackIcon.
Proof.
  split.
  - apply (getTechIcon_result "Vue"). vm_compute. tauto.
  - apply (getTechIcon_result "Zig"). split; [|split].
    + vm_compute. intuition discriminate.
    + vm_compute. intuition discriminate.
    + assert (Hnone : forallb (fun key => negb (looseIconMatch (toLowerCase "Zig") key))
                              (map fst techIconMap) = true)
        by (vm_compute; reflexivity).
      intros key Hkey. rewrite forallb_forall in Hnone.
      specialize (Hnone key Hkey). now apply Bool.negb_true_iff in Hnone.
Defined.

(** X21: among the keys that match a name loosely, the first one in table
    order decides.  A name that is no key of the table and no inherited
    member gets the icon of the first key that equals it, is contained in
    it or contains it after lower-casing; so "java" is given the JavaScript
    icon, which comes before the entry of Java. *)
Theorem getTechIcon_first_match (techName : string) (i : nat) (key icon : string) :
  ~ In techName (map fst techIconMap) ->
  ~ In techName objectPrototypeMembers ->
  nth_error techIconMap i = Some (key, icon) ->
  looseIconMatch (toLowerCase techName) key = true ->
  (forall j earlier,
      (j < i)%nat -> nth_error (map fst techIconMap) j = Some earlier ->
      looseIconMatch (toLowerCase techName) earlier = false) ->
  getTechIcon techName = IconPath icon.
Proof.
  pose proof techIconMap_keys_NoDup as Hnodup.
  unfold getTechIcon. cbv zeta.
  generalize dependent techIconMap. intros table Hnodup Hown Hnot Hnth Hmatch Hbefore.
  apply iconOf_None in Hown. rewrite Hown.
  destruct (arrIncludes objectPrototypeMembers techName) eqn:Hproto.
  { apply arrIncludes_In in Hproto. contradiction. }
  unfold arrFind.
  rewrite (find_first _ (map fst table) i key).
  - rewrite (iconOf_In table key icon Hnodup); [reflexivity|].
    now apply nth_error_In with i.
  - rewrite nth_error_map, Hnth. reflexivity.
  - exact Hmatch.
  - exact Hbefore.
Qed.

Lemma getTechIcon_first_match_witness :
  getTechIcon "java" = IconPath "/src/assets/images/JavaScript.svg".
Proof.
  apply (getTechIcon_first_match "java" 0 "JavaScript").
  - vm_compute. intuition discriminate.
  - vm_compute. intuition discriminate.
  - reflexivity.
  - vm_compute. reflexivity.
  - intros j earlier Hj. lia.
Defined.

(** ** Short repository names *)

Lemma splitChar_noSlash (s : string) : hasNoSlash s = true -> splitChar "/" s = [s].
Proof.
  induction s as [|c s IH]; [reflexivity|].
  cbn [hasNoSlash splitChar]. intros H. apply Bool.andb_true_iff in H.
  destruct H as [Hc Hs]. apply Bool.negb_true_iff in Hc. rewrite Hc, (IH Hs). reflexivity.
Qed.

Lemma splitChar_slash (a b : string) :
  hasNoSlash a = true -> splitChar "/" (a ^^ String "/" b) = a :: splitChar "/" b.
Proof.
  induction a as [|c a IH]; [reflexivity|].
  cbn [hasNoSlash splitChar String.append]. intros H. apply Bool.andb_true_iff in H.
  destruct H as [Hc Ha]. apply Bool.negb_true_iff in Hc. rewrite Hc, (IH Ha). reflexivity.
Qed.

(** X22: the short name of a repository in the recent pull requests.  Of
    "owner/repo" it is "repo", also when more segments follow; a name
    without a slash is kept, and so is "owner/", whose second segment is
    empty. *)
Theorem repoShortName_segments (owner repo : string) :
  hasNoSlash owner = true ->
  repoShortName owner = owner
  /\ repoShortName (owner ^^ "/") = owner ^^ "/"
  /\ (hasNoSlash repo = true -> repo <> EmptyString ->
      repoShortName (owner ^^ "/" ^^ repo) = repo
      /\ forall rest, repoShortName (owner ^^ "/" ^^ repo ^^ "/" ^^ rest) = repo).
Proof.
  intros Howner. unfold repoShortName.
  split; [now rewrite (splitChar_noSlash owner Howner)|].
  split.
  { change (owner ^^ "/") with (owner ^^ String "/" EmptyString).
    now rewrite (splitChar_slash owner EmptyString Howner). }
  intros Hrepo Hne.
  assert (Hfalse : String.eqb repo EmptyString = false) by now apply String.eqb_neq.
  split.
  - change (owner ^^ "/" ^^ repo) with (owner ^^ String "/" repo).
    rewrite (splitChar_slash owner repo Howner), (splitChar_noSlash repo Hrepo).
    cbn [nth_error]. now rewrite Hfalse.
  - intros rest.
    change (owner ^^ "/" ^^ repo ^^ "/" ^^ rest)
      with (owner ^^ String "/" (repo ^^ String "/" rest)).
    rewrite (splitChar_slash owner _ Howner), (splitChar_slash repo rest Hrepo).
    cbn [nth_error]. now rewrite Hfalse.
Qed.

Lemma repoShortName_segments_witness :
  repoShortName "octocat/hello-world" = "hello-world".
Proof.
  apply (repoShortName_segments "octocat" "hello-world");
    [reflexivity | reflexivity | discriminate].
Defined.

(** ** The empty portfolio *)

Lemma determineExperienceLevel_empty (age : Q) :
  determineExperienceLevel age 0 0 (inject_Z 0 / inject_Z 0)%Q = Beginner.
Proof.
  rewrite determineExperienceLevel_bands.
  pose proof (ageBand_range age) as Hband.
  change (projectBand 0) with 0. change (activityBand 0) with 0.
  change (starBand (inject_Z 0 / inject_Z 0)) with 0.
  unfold levelOfScore.
  repeat match goal with
         | |- context [?x >=? ?k] => destruct (Z.geb_spec x k)
         end; try lia; reflexivity.
Qed.

(** X23: the analysis of a user without repositories, whatever the user,
    the calendar and the clock.  The user and the contribution statistics
    are passed through; the level is Beginner with no project, language,
    highlight, job role or industry; the activity is the default one and the
    quality record carries the single note about missing repositories; all
    six next actions are listed, the market demand is Medium, and the
    timeline is the single event "Joined GitHub". *)
Theorem analyzeRepositories_no_repository {cal : Calendar} (u : GitHubUser)
    (contribs : option ContributionStats) (oracle : nat -> Z) (n : nat) :
  let result := fst (analyzeRepositories u [] contribs oracle n) in
  user result = u
  /\ contributions result = contribs
  /\ totalProjects (skillAnalysis result) = 0
  /\ activeProjects (skillAnalysis result) = 0
  /\ experienceLevel (skillAnalysis result) = Beginner
  /\ topLanguages (skillAnalysis result) = []
  /\ highlights result = []
  /\ activity result = defaultActivity
  /\ releaseCadence (quality result) = AdHoc
  /\ notes (quality result) = ["No public repositories available for analysis."]
  /\ jobRoles (opportunities result) = []
  /\ industries (opportunities result) = []
  /\ List.length (nextActions (opportunities result)) = 6%nat
  /\ marketDemand (futurePrediction result) = Medium
  /\ map title (timeline result) = ["Joined GitHub"].
Proof.
  cbv zeta.
  destruct (analyzeSkills_run u [] oracle n) as (level & active & age & n' & Hrun).
  destruct (analyzeSkills_experience_run u [] oracle n) as (_ & Hactive & _ & Hlevel).
  cbv zeta in Hactive, Hlevel. rewrite Hrun in Hactive, Hlevel.
  cbn [fst activeProjects experienceLevel accountAge totalProjects filterClock ret
       List.length sumStars fold_left Z.of_nat] in Hactive, Hlevel.
  rewrite Hactive in Hlevel. rewrite determineExperienceLevel_empty in Hlevel.
  subst level active.
  unfold analyzeRepositories, bind. rewrite Hrun.
  vm_compute.
  repeat (split; [reflexivity|]). reflexivity.
Qed.

(** ** The clock reads of the engine *)








(** The clock is not only read for recency windows.  Two runs on the same
    user and repositories that see the same instant at every read that
    feeds a recency window (the reads 0, 2, 3 and 4) and differ only in what
    [calculateAccountAge] reads (read 1) return different account ages; two
    runs that differ only in what [timeSince] reads (read 5) return different
    timelines. *)
Example analyzeRepositories_reads_beyond_recency :
  accountAge
    (skillAnalysis
       (fst (analyzeRepositories (cal := sampleCalendar) sampleUser [repoShop; repoNotes]
               None (fun _ => sampleNow) 0%nat)))
  <> accountAge
       (skillAnalysis
          (fst (analyzeRepositories (cal := sampleCalendar) sampleUser
                  [repoShop; repoNotes] None
                  (fun k => if (k =? 1)%nat then sampleNow + 400 * dayMs else sampleNow)
                  0%nat)))
  /\ timeline
       (fst (analyzeRepositories (cal := sampleCalendar) sampleUser [repoShop; repoNotes]
               None (fun _ => sampleNow) 0%nat))
     <> timeline
          (fst (analyzeRepositories (cal := sampleCalendar) sampleUser
                  [repoShop; repoNotes] None
                  (fun k => if (k =? 5)%nat then sampleNow + 400 * dayMs else sampleNow)
                  0%nat)).
Proof. split; vm_compute; discriminate. Qed.

